(** * Tenant-scoped compliance and cryptography layer

    A shallow embedding of the three backend services that carry the
    engineering content of the repository:

    - [EncryptionService] (apps/backend/src/auth/auth.controller.ts, second
      document of the file): key derivation, AES-256-GCM encryption and
      decryption, HMAC signing and verification;
    - [AuditLogService] (apps/backend/src/common/audit-log.service.ts);
    - [DataResidencyService]
      (apps/backend/src/common/data-residency.service.ts).

    JavaScript strings are [string]s holding the code points of the text in
    generalised UTF-8: a scalar value is its UTF-8 sequence, a surrogate
    pair is the four bytes of its supplementary code point, and an unpaired
    surrogate U+D800..U+DFFF is the three bytes ED A0..BF 80..BF. Buffers
    are [list byte], a [throw] is the [Throw] completion of a small
    exception monad, and [undefined] is [None]. *)

From Stdlib Require Import List String Ascii Bool ZArith Lia.
From Stdlib Require Import DecimalString DecimalPos DecimalZ.
From Stdlib.Strings Require Import Byte.
Import ListNotations.
Open Scope string_scope.

(* ================================================================== *)
(** * JavaScript run-time conventions *)
(* ================================================================== *)

(** The three error classes that the modelled code can raise. *)
Inductive JsError : Type :=
| Error (message : string)
| TypeError (message : string)
| RangeError (message : string).

Definition error_message (e : JsError) : string :=
  match e with
  | Error m | TypeError m | RangeError m => m
  end.

(** The outcome of evaluating a statement list: a value or a thrown error. *)
Inductive Completion (A : Type) : Type :=
| Normal (value : A)
| Throw (error : JsError).
Arguments Normal {A} value.
Arguments Throw {A} error.

Definition bind {A B} (c : Completion A) (k : A -> Completion B)
  : Completion B :=
  match c with
  | Normal a => k a
  | Throw e => Throw e
  end.

Notation "x <- c ;; k" := (bind c (fun x => k))
  (at level 61, c at next level, right associativity).

(** [try { body } catch (error) { handler }]. *)
Definition try_catch {A} (body : Completion A)
  (handler : JsError -> Completion A) : Completion A :=
  match body with
  | Normal a => Normal a
  | Throw e => handler e
  end.

(** Property access [receiver.prop]: reading a property of [undefined]
    raises a TypeError. *)
Definition deref {A} (receiver : option A) (prop : string) : Completion A :=
  match receiver with
  | Some a => Normal a
  | None =>
      Throw (TypeError
               ("Cannot read properties of undefined (reading '" ++ prop ++ "')"))
  end.

(** [Array.prototype.includes] on an array of strings. *)
Definition includes (xs : list string) (x : string) : bool :=
  existsb (String.eqb x) xs.

(** [Array.prototype.join]. *)
Fixpoint join (xs : list string) (sep : string) : string :=
  match xs with
  | [] => ""
  | [x] => x
  | x :: rest => x ++ sep ++ join rest sep
  end.

(** [[...new Set(xs)]]: the distinct elements, each at its first position. *)
Fixpoint dedupe_from (seen xs : list string) : list string :=
  match xs with
  | [] => []
  | x :: rest =>
      if includes seen x then dedupe_from seen rest
      else x :: dedupe_from (x :: seen) rest
  end.

Definition dedupe (xs : list string) : list string := dedupe_from [] xs.

(** [String.prototype.toLowerCase] on the ASCII letters. *)
Definition lower_ascii (c : ascii) : ascii :=
  let n := nat_of_ascii c in
  if andb (Nat.leb 65 n) (Nat.leb n 90) then ascii_of_nat (n + 32) else c.

Fixpoint toLowerCase (s : string) : string :=
  match s with
  | EmptyString => EmptyString
  | String c rest => String (lower_ascii c) (toLowerCase rest)
  end.

(** [String.prototype.startsWith] is [String.prefix]; this is
    [String.prototype.includes]. *)
Fixpoint str_includes (s sub : string) : bool :=
  if String.prefix sub s then true
  else match s with
       | EmptyString => false
       | String _ rest => str_includes rest sub
       end.

(** Structured payloads: the values [JSON.parse] can produce, plus
    [undefined]. Objects keep their properties in enumeration order. *)
#[warnings="-register-all"] Inductive JsValue : Type :=
| JUndefined
| JNull
| JBool (b : bool)
| JNumber (n : Z)
| JString (s : string)
| JArray (items : list JsValue)
| JObject (props : list (string * JsValue)).

(** The key under which [Object.entries] lists the array element [i]. *)
Definition index_key (i : nat) : string :=
  NilZero.string_of_uint (Nat.to_uint i).

(* ================================================================== *)
(** * Buffers and their text encodings *)
(* ================================================================== *)

Definition Buffer : Type := list byte.

(** The ['utf8'] encoding of Node, on strings held in generalised UTF-8.
    Writing a string as UTF-8 replaces each unpaired surrogate by U+FFFD,
    as [String.prototype.toWellFormed] does; reading UTF-8 replaces each
    maximal ill-formed part of the bytes by U+FFFD. *)
Module Utf8.

(** The code of the character lies between [lo] and [hi]. *)
Definition within (lo hi : nat) (c : ascii) : bool :=
  andb (Nat.leb lo (nat_of_ascii c)) (Nat.leb (nat_of_ascii c) hi).

Definition continuation (c : ascii) : bool := within 128 191 c.

(** U+FFFD, the replacement character. *)
Definition replacement : string :=
  String "239" (String "191" (String "189" EmptyString)).

(** An unpaired surrogate, U+D800 to U+DFFF. *)
Definition surrogate (a b c : ascii) : bool :=
  andb (within 237 237 a) (andb (within 160 191 b) (continuation c)).

(** The well-formed sequences of two, three and four bytes. *)
Definition scalar2 (a b : ascii) : bool :=
  andb (within 194 223 a) (continuation b).

Definition scalar3 (a b c : ascii) : bool :=
  andb (orb (andb (within 224 224 a) (within 160 191 b))
            (orb (andb (within 225 236 a) (continuation b))
                 (orb (andb (within 237 237 a) (within 128 159 b))
                      (andb (within 238 239 a) (continuation b)))))
       (continuation c).

Definition scalar4 (a b c d : ascii) : bool :=
  andb (orb (andb (within 240 240 a) (within 144 191 b))
            (orb (andb (within 241 243 a) (continuation b))
                 (andb (within 244 244 a) (within 128 143 b))))
       (andb (continuation c) (continuation d)).

(** [String.prototype.toWellFormed]: every unpaired surrogate becomes
    U+FFFD. *)
Fixpoint toWellFormed (s : string) : string :=
  match s with
  | EmptyString => EmptyString
  | String a tail =>
      match tail with
      | String b (String c rest) =>
          if surrogate a b c then replacement ++ toWellFormed rest
          else String a (toWellFormed tail)
      | _ => String a (toWellFormed tail)
      end
  end.

(** The decoder inside a sequence of several bytes: the bytes read so far,
    the number of bytes still due, and the range of the next one. *)
Record Partial : Type := {
  seen : string;
  due : nat;
  lower : nat;
  upper : nat
}.

(** The state after a lead byte; [None] for a byte that starts nothing. *)
Definition lead (c : ascii) : option Partial :=
  let one := String c EmptyString in
  if within 194 223 c
  then Some {| seen := one; due := 1; lower := 128; upper := 191 |}
  else if within 224 224 c
  then Some {| seen := one; due := 2; lower := 160; upper := 191 |}
  else if within 237 237 c
  then Some {| seen := one; due := 2; lower := 128; upper := 159 |}
  else if within 225 239 c
  then Some {| seen := one; due := 2; lower := 128; upper := 191 |}
  else if within 240 240 c
  then Some {| seen := one; due := 3; lower := 144; upper := 191 |}
  else if within 241 243 c
  then Some {| seen := one; due := 3; lower := 128; upper := 191 |}
  else if within 244 244 c
  then Some {| seen := one; due := 3; lower := 128; upper := 143 |}
  else None.

(** A byte read outside any sequence: the text it gives and the state it
    leaves. *)
Definition start (c : ascii) : string * option Partial :=
  if within 0 127 c then (String c EmptyString, None)
  else match lead c with
       | Some p => (EmptyString, Some p)
       | None => (replacement, None)
       end.

(** One byte of input. A byte that cannot continue the sequence under way
    ends it with U+FFFD and is read again from the initial state. *)
Definition step (st : option Partial) (c : ascii)
  : string * option Partial :=
  match st with
  | None => start c
  | Some p =>
      if within (lower p) (upper p) c
      then match due p with
           | S (S n) =>
               (EmptyString,
                Some {| seen := seen p ++ String c EmptyString; due := S n;
                        lower := 128; upper := 191 |})
           | _ => (seen p ++ String c EmptyString, None)
           end
      else (replacement ++ fst (start c), snd (start c))
  end.

(** The text decoded from the bytes [s], read in state [st]; a sequence
    cut short by the end of the input gives U+FFFD. *)
Fixpoint decode_from (st : option Partial) (s : string) : string :=
  match s with
  | EmptyString =>
      match st with
      | Some _ => replacement
      | None => EmptyString
      end
  | String c rest => fst (step st c) ++ decode_from (snd (step st c)) rest
  end.

Definition decode (s : string) : string := decode_from None s.

(** Whether the text is a sequence of code points; [lone] tells whether
    unpaired surrogates count. *)
Fixpoint codePoints (lone : bool) (s : string) : bool :=
  match s with
  | EmptyString => true
  | String a t1 =>
      if within 0 127 a then codePoints lone t1
      else
        match t1 with
        | String b t2 =>
            if scalar2 a b then codePoints lone t2
            else
              match t2 with
              | String c t3 =>
                  if orb (scalar3 a b c) (andb lone (surrogate a b c))
                  then codePoints lone t3
                  else
                    match t3 with
                    | String d t4 =>
                        if scalar4 a b c d then codePoints lone t4 else false
                    | EmptyString => false
                    end
              | EmptyString => false
              end
        | EmptyString => false
        end
  end.

(** [String.prototype.isWellFormed]: no unpaired surrogate. *)
Definition isWellFormed (s : string) : bool := codePoints false s.

End Utf8.

(** [Buffer.from(s, 'utf8')], also the ['utf8'] input encoding of a cipher:
    the UTF-8 bytes of the text, an unpaired surrogate being written as
    U+FFFD. *)
Definition utf8_encode (s : string) : Buffer :=
  list_byte_of_string (Utf8.toWellFormed s).

(** [buf.toString('utf8')], also the ['utf8'] output encoding of a
    decipher: every maximal ill-formed part of the bytes comes out as
    U+FFFD. *)
Definition utf8_decode (b : Buffer) : string :=
  Utf8.decode (string_of_list_byte b).

Module Hex.

Definition digits : list ascii := list_ascii_of_string "0123456789abcdef".

Definition digit (n : nat) : ascii := nth n digits "0"%char.

(** The value of a hexadecimal digit, in either case. *)
Definition value (c : ascii) : option nat :=
  let n := nat_of_ascii c in
  if andb (Nat.leb 48 n) (Nat.leb n 57) then Some (n - 48)
  else if andb (Nat.leb 97 n) (Nat.leb n 102) then Some (n - 87)
  else if andb (Nat.leb 65 n) (Nat.leb n 70) then Some (n - 55)
  else None.

Definition encode_byte (b : byte) : string :=
  let n := Byte.to_nat b in
  String (digit (n / 16)) (String (digit (n mod 16)) EmptyString).

(** [buf.toString('hex')], also the ['hex'] output encoding of a cipher. *)
Fixpoint encode (b : Buffer) : string :=
  match b with
  | [] => EmptyString
  | x :: rest => encode_byte x ++ encode rest
  end.

Definition byte_of_nat (n : nat) : byte :=
  match Byte.of_nat n with
  | Some b => b
  | None => x00
  end.

(** [Buffer.from(s, 'hex')]: pairs of digits, truncated at the first pair
    that is not hexadecimal and at a trailing single digit. *)
Fixpoint decode (s : string) : Buffer :=
  match s with
  | String hi (String lo rest) =>
      match value hi, value lo with
      | Some h, Some l => byte_of_nat (16 * h + l) :: decode rest
      | _, _ => []
      end
  | _ => []
  end.

End Hex.

Module Base64.

Definition alphabet : list ascii :=
  list_ascii_of_string
    "ABCDEFGHIJKLMNOPQRSTUVWXYZabcdefghijklmnopqrstuvwxyz0123456789+/".

Definition char (v : nat) : ascii := nth v alphabet "="%char.

(** The sextet a character stands for; the URL-safe [-] and [_] are
    accepted as well. *)
Definition value (c : ascii) : option nat :=
  let n := nat_of_ascii c in
  if andb (Nat.leb 65 n) (Nat.leb n 90) then Some (n - 65)
  else if andb (Nat.leb 97 n) (Nat.leb n 122) then Some (n - 71)
  else if andb (Nat.leb 48 n) (Nat.leb n 57) then Some (n + 4)
  else if orb (Nat.eqb n 43) (Nat.eqb n 45) then Some 62
  else if orb (Nat.eqb n 47) (Nat.eqb n 95) then Some 63
  else None.

Definition b2n (b : bool) : nat := if b then 1 else 0.

(** The sextet with the given bits, most significant first. *)
Definition six (a5 a4 a3 a2 a1 a0 : bool) : nat :=
  32 * b2n a5 + 16 * b2n a4 + 8 * b2n a3 + 4 * b2n a2 + 2 * b2n a1 + b2n a0.

(** The octet with the given bits, most significant first. *)
Definition octet (a7 a6 a5 a4 a3 a2 a1 a0 : bool) : byte :=
  Byte.of_bits (a0, (a1, (a2, (a3, (a4, (a5, (a6, a7))))))).

Definition bit (v i : nat) : bool := Nat.testbit v i.

(** The sextets of one, two and three input bytes. *)
Definition sextets1 (x : byte) : list nat :=
  let '(x0, (x1, (x2, (x3, (x4, (x5, (x6, x7))))))) := Byte.to_bits x in
  [six x7 x6 x5 x4 x3 x2; six x1 x0 false false false false].

Definition sextets2 (x y : byte) : list nat :=
  let '(x0, (x1, (x2, (x3, (x4, (x5, (x6, x7))))))) := Byte.to_bits x in
  let '(y0, (y1, (y2, (y3, (y4, (y5, (y6, y7))))))) := Byte.to_bits y in
  [six x7 x6 x5 x4 x3 x2; six x1 x0 y7 y6 y5 y4;
   six y3 y2 y1 y0 false false].

Definition sextets3 (x y z : byte) : list nat :=
  let '(x0, (x1, (x2, (x3, (x4, (x5, (x6, x7))))))) := Byte.to_bits x in
  let '(y0, (y1, (y2, (y3, (y4, (y5, (y6, y7))))))) := Byte.to_bits y in
  let '(z0, (z1, (z2, (z3, (z4, (z5, (z6, z7))))))) := Byte.to_bits z in
  [six x7 x6 x5 x4 x3 x2; six x1 x0 y7 y6 y5 y4;
   six y3 y2 y1 y0 z7 z6; six z5 z4 z3 z2 z1 z0].

Definition chars (vs : list nat) : string :=
  string_of_list_ascii (map char vs).

(** [buf.toString('base64')]. *)
Fixpoint encode (b : Buffer) : string :=
  match b with
  | [] => EmptyString
  | [x] => chars (sextets1 x) ++ "=="
  | [x; y] => chars (sextets2 x y) ++ "="
  | x :: y :: z :: rest => chars (sextets3 x y z) ++ encode rest
  end.

(** The sextets of the text up to the first padding character, skipping
    every character outside the alphabet. *)
Fixpoint sextets (s : string) : list nat :=
  match s with
  | EmptyString => []
  | String c rest =>
      if Ascii.eqb c "="%char then []
      else match value c with
           | Some v => v :: sextets rest
           | None => sextets rest
           end
  end.

Definition first_byte (v0 v1 : nat) : byte :=
  octet (bit v0 5) (bit v0 4) (bit v0 3) (bit v0 2) (bit v0 1) (bit v0 0)
        (bit v1 5) (bit v1 4).

Definition second_byte (v1 v2 : nat) : byte :=
  octet (bit v1 3) (bit v1 2) (bit v1 1) (bit v1 0)
        (bit v2 5) (bit v2 4) (bit v2 3) (bit v2 2).

Definition third_byte (v2 v3 : nat) : byte :=
  octet (bit v2 1) (bit v2 0)
        (bit v3 5) (bit v3 4) (bit v3 3) (bit v3 2) (bit v3 1) (bit v3 0).

Fixpoint bytes (vs : list nat) : Buffer :=
  match vs with
  | v0 :: v1 :: v2 :: v3 :: rest =>
      first_byte v0 v1 :: second_byte v1 v2 :: third_byte v2 v3 :: bytes rest
  | [v0; v1; v2] => [first_byte v0 v1; second_byte v1 v2]
  | [v0; v1] => [first_byte v0 v1]
  | _ => []
  end.

(** [Buffer.from(s, 'base64')]. *)
Definition decode (s : string) : Buffer := bytes (sextets s).

End Base64.

(* ================================================================== *)
(** * JSON.stringify *)
(* ================================================================== *)

Module Json.

Definition dquote : ascii := "034"%char.
Definition backslash : ascii := "092"%char.

(** The escape of one character inside a JSON string literal. *)
Definition escape_char (c : ascii) : string :=
  let n := nat_of_ascii c in
  if Nat.eqb n 34 then String backslash (String dquote EmptyString)
  else if Nat.eqb n 92 then String backslash (String backslash EmptyString)
  else if Nat.eqb n 8 then String backslash "b"
  else if Nat.eqb n 12 then String backslash "f"
  else if Nat.eqb n 10 then String backslash "n"
  else if Nat.eqb n 13 then String backslash "r"
  else if Nat.eqb n 9 then String backslash "t"
  else if Nat.ltb n 32
       then String backslash
              ("u00" ++ String (Hex.digit (n / 16))
                          (String (Hex.digit (n mod 16)) EmptyString))
  else String c EmptyString.

(** The escape of the unpaired surrogate whose second and third bytes are
    [b] and [c]: the six characters from [\ud800] to [\udfff]. *)
Definition escape_surrogate (b c : ascii) : string :=
  let v := 64 * (nat_of_ascii b - 128) + (nat_of_ascii c - 128) in
  String backslash
    ("ud" ++ String (Hex.digit (v / 256))
               (String (Hex.digit (v / 16 mod 16))
                  (String (Hex.digit (v mod 16)) EmptyString))).

Fixpoint escape (s : string) : string :=
  match s with
  | EmptyString => EmptyString
  | String a tail =>
      match tail with
      | String b (String c rest) =>
          if Utf8.surrogate a b c then escape_surrogate b c ++ escape rest
          else escape_char a ++ escape tail
      | _ => escape_char a ++ escape tail
      end
  end.

(** [JSON.stringify] of a string: the quoted literal. *)
Definition quote (s : string) : string :=
  String dquote (escape s ++ String dquote EmptyString).

Definition number (n : Z) : string := NilZero.string_of_int (Z.to_int n).

(** [JSON.stringify]; [None] is the result [undefined]. An [undefined]
    property is left out of an object and printed as [null] in an array. *)
Fixpoint stringify (v : JsValue) : option string :=
  match v with
  | JUndefined => None
  | JNull => Some "null"
  | JBool b => Some (if b then "true" else "false")
  | JNumber n => Some (number n)
  | JString s => Some (quote s)
  | JArray items =>
      Some ("[" ++ join (map (fun x => match stringify x with
                                       | Some t => t
                                       | None => "null"
                                       end) items) "," ++ "]")
  | JObject props =>
      Some ("{" ++ join (flat_map
                           (fun kv => match stringify (snd kv) with
                                      | Some t => [quote (fst kv) ++ ":" ++ t]
                                      | None => []
                                      end) props) "," ++ "}")
  end.

(** [Object.keys(v).length]. *)
Definition ownKeys (v : JsValue) : nat :=
  match v with
  | JObject props => List.length props
  | JArray items => List.length items
  | JString s => String.length s
  | _ => 0
  end.

(** The inverse of [escape_char] on the head of a text, used to read a
    string literal back. *)
Definition unescape_simple (e : ascii) : option ascii :=
  let n := nat_of_ascii e in
  if Nat.eqb n 34 then Some dquote
  else if Nat.eqb n 92 then Some backslash
  else if Nat.eqb n 98 then Some "008"%char
  else if Nat.eqb n 102 then Some "012"%char
  else if Nat.eqb n 110 then Some "010"%char
  else if Nat.eqb n 114 then Some "013"%char
  else if Nat.eqb n 116 then Some "009"%char
  else None.

(** The characters that the escape [\u] followed by the digits [d1], and
    the digits of values [v2], [hv] and [lv], stands for: an unpaired
    surrogate when [d1] is [d], a control character otherwise. *)
Definition unescape_unicode (d1 : ascii) (v2 hv lv : nat) (body : string)
  : string :=
  if Ascii.eqb d1 "d"
  then let v := 256 * v2 + 16 * hv + lv in
       String "237"
         (String (ascii_of_nat (128 + v / 64))
            (String (ascii_of_nat (128 + v mod 64)) body))
  else String (ascii_of_nat (16 * hv + lv)) body.

(** Reads the body of a string literal up to its closing quote and returns
    the string it denotes with the text after the quote. *)
Fixpoint read_literal (s : string) : option (string * string) :=
  match s with
  | EmptyString => None
  | String c rest =>
      if Ascii.eqb c dquote then Some (EmptyString, rest)
      else if Ascii.eqb c backslash then
        match rest with
        | String e rest1 =>
            match unescape_simple e with
            | Some ch =>
                match read_literal rest1 with
                | Some (body, after) => Some (String ch body, after)
                | None => None
                end
            | None =>
                match rest1 with
                | String d1 (String d2 (String h (String l rest2))) =>
                    match Hex.value d2, Hex.value h, Hex.value l with
                    | Some v2, Some hv, Some lv =>
                        match read_literal rest2 with
                        | Some (body, after) =>
                            Some (unescape_unicode d1 v2 hv lv body, after)
                        | None => None
                        end
                    | _, _, _ => None
                    end
                | _ => None
                end
            end
        | EmptyString => None
        end
      else match read_literal rest with
           | Some (body, after) => Some (String c body, after)
           | None => None
           end
  end.

End Json.

(* ================================================================== *)
(** * The world the services act on *)
(* ================================================================== *)

(** The entropy source behind [crypto.randomBytes], the clock behind
    [new Date()], and the lines written through [console]. *)
Record World : Type := {
  random : nat -> byte;
  cursor : nat;
  now : Z;
  console : list string
}.

Definition M (A : Type) : Type := World -> Completion A * World.

Definition retM {A} (a : A) : M A := fun w => (Normal a, w).

Definition throwM {A} (e : JsError) : M A := fun w => (Throw e, w).

Definition bindM {A B} (c : M A) (k : A -> M B) : M B :=
  fun w =>
    match c w with
    | (Normal a, w1) => k a w1
    | (Throw e, w1) => (Throw e, w1)
    end.

Notation "x <~ c ;; k" := (bindM c (fun x => k))
  (at level 61, c at next level, right associativity).

Definition liftC {A} (c : Completion A) : M A := fun w => (c, w).

Definition try_catchM {A} (body : M A) (handler : JsError -> M A) : M A :=
  fun w =>
    match body w with
    | (Normal a, w1) => (Normal a, w1)
    | (Throw e, w1) => handler e w1
    end.

(** [crypto.randomBytes(n)]: the next [n] bytes of the source. *)
Definition randomBytes (n : nat) : M Buffer :=
  fun w =>
    (Normal (map (random w) (seq (cursor w) n)),
     {| random := random w; cursor := cursor w + n;
        now := now w; console := console w |}).

(** [console.log(line)] and [console.error(line)]. *)
Definition console_write (line : string) : M unit :=
  fun w =>
    (Normal tt,
     {| random := random w; cursor := cursor w;
        now := now w; console := (console w ++ [line])%list |}).

Definition show_error (e : JsError) : string :=
  match e with
  | Error m => "Error: " ++ m
  | TypeError m => "TypeError: " ++ m
  | RangeError m => "RangeError: " ++ m
  end.

(** A [Date] object: a time value in milliseconds, or the invalid date. *)
Inductive Date : Type :=
| ValidDate (time : Z)
| InvalidDate.

(** [new Date()]. *)
Definition newDate : M Date := fun w => (Normal (ValidDate (now w)), w).

(* ================================================================== *)
(** * EncryptionService *)
(* ================================================================== *)

Module Encryption.

(** The two settings the service reads from [ConfigService]. *)
Record ConfigService : Type := {
  ENCRYPTION_MASTER_KEY : option string;
  HMAC_SECRET : option string
}.

(** The primitives of Node's [crypto] module that the service calls.

    - [pbkdf2Sync password salt iterations keylen], with digest SHA-256;
    - [aes256gcm_encrypt key aad plaintext]: the cipher object made by
      [createCipher('aes-256-gcm', key)], after [setAAD], [update], [final]
      and [getAuthTag]; the result is the ciphertext and the tag;
    - [aes256gcm_decrypt key aad tag ciphertext]: the decipher object made by
      [createDecipher('aes-256-gcm', key)], after [setAAD], [setAuthTag],
      [update] and [final]; [None] when [final] rejects the tag;
    - [hmac_sha256 secret data]: [createHmac('sha256', secret)], [update],
      [digest].

    [createCipher] and [createDecipher] take the key only: the cipher has no
    initialisation-vector argument. *)
Record Crypto : Type := {
  pbkdf2Sync : string -> Buffer -> N -> nat -> Buffer;
  aes256gcm_encrypt : Buffer -> Buffer -> Buffer -> Buffer * Buffer;
  aes256gcm_decrypt : Buffer -> Buffer -> Buffer -> Buffer -> option Buffer;
  hmac_sha256 : string -> string -> Buffer
}.

Definition keyLength : nat := 32.
Definition ivLength : nat := 16.
Definition tagLength : nat := 16.

(** Truthiness of an optional string: [undefined] and the empty string are
    falsy. *)
Definition truthy (value : option string) : bool :=
  match value with
  | Some v => negb (String.eqb v "")
  | None => false
  end.

(** [value || fallback]. *)
Definition or_else (value fallback : option string) : option string :=
  if truthy value then value else fallback.

(** [value || fallback] with a string fallback. *)
Definition or_default (value : option string) (fallback : string) : string :=
  match or_else value (Some fallback) with
  | Some v => v
  | None => fallback
  end.

(** [if (!value) { throw new Error(message); }], then [value] as a string. *)
Definition require (value : option string) (message : string)
  : Completion string :=
  match value with
  | Some v => if truthy value then Normal v else Throw (Error message)
  | None => Throw (Error message)
  end.

(** [buf.subarray(start, end)] and [buf.subarray(start)]. *)
Definition subarray (buf : Buffer) (start stop : nat) : Buffer :=
  firstn (stop - start) (skipn start buf).
Definition subarray_from (buf : Buffer) (start : nat) : Buffer :=
  skipn start buf.

Fixpoint Buffer_eqb (a b : Buffer) : bool :=
  match a, b with
  | [], [] => true
  | x :: a', y :: b' => andb (Byte.eqb x y) (Buffer_eqb a' b')
  | _, _ => false
  end.

(** [crypto.timingSafeEqual]. *)
Definition timingSafeEqual (a b : Buffer) : Completion bool :=
  if Nat.eqb (List.length a) (List.length b) then Normal (Buffer_eqb a b)
  else Throw (RangeError "Input buffers must have the same byte length").

(** [decipher.setAuthTag(tag)] in GCM mode. *)
Definition setAuthTag (tag : Buffer) : Completion unit :=
  let n := List.length tag in
  if orb (orb (Nat.eqb n 4) (Nat.eqb n 8))
         (andb (Nat.leb 12 n) (Nat.leb n 16))
  then Normal tt
  else Throw (Error ("Invalid authentication tag length: " ++ index_key n)).

Section Service.

Variable crypto : Crypto.
Variable configService : ConfigService.

Definition deriveKey (salt : Buffer) : Completion Buffer :=
  masterKey <- require (ENCRYPTION_MASTER_KEY configService)
                       "ENCRYPTION_MASTER_KEY not configured" ;;
  Normal (pbkdf2Sync crypto masterKey salt 100000%N keyLength).

(** [Buffer.from(orgId || 'global', 'utf8')]. *)
Definition associatedData (orgId : option string) : Buffer :=
  utf8_encode (or_default orgId "global").

Definition encrypt (plaintext : string) (orgId : option string) : M string :=
  try_catchM
    (salt <~ randomBytes 16 ;;
     iv <~ randomBytes ivLength ;;
     key <~ liftC (deriveKey salt) ;;
     let sealed :=
       aes256gcm_encrypt crypto key (associatedData orgId)
                         (utf8_encode plaintext) in
     let encrypted := Hex.encode (fst sealed) in
     let tag := snd sealed in
     let combined := (salt ++ iv ++ tag ++ Hex.decode encrypted)%list in
     retM (Base64.encode combined))
    (fun error =>
       throwM (Error ("Encryption failed: " ++ error_message error))).

Definition decrypt (encryptedData : string) (orgId : option string)
  : Completion string :=
  try_catch
    (let combined := Base64.decode encryptedData in
     let salt := subarray combined 0 16 in
     let iv := subarray combined 16 (16 + ivLength) in
     let tag :=
       subarray combined (16 + ivLength) (16 + ivLength + tagLength) in
     let encrypted := subarray_from combined (16 + ivLength + tagLength) in
     key <- deriveKey salt ;;
     _ <- setAuthTag tag ;;
     match aes256gcm_decrypt crypto key (associatedData orgId) tag encrypted
     with
     | Some decrypted => Normal (utf8_decode decrypted)
     | None =>
         Throw (Error "Unsupported state or unable to authenticate data")
     end)
    (fun error =>
       Throw (Error ("Decryption failed: " ++ error_message error))).

Definition createHMAC (data : string) (secret : option string)
  : Completion string :=
  hmacSecret <- require (or_else secret (HMAC_SECRET configService))
                        "HMAC_SECRET not configured" ;;
  Normal (Hex.encode (hmac_sha256 crypto hmacSecret data)).

Definition verifyHMAC (data signature : string) (secret : option string)
  : Completion bool :=
  expectedSignature <- createHMAC data secret ;;
  timingSafeEqual (Hex.decode signature) (Hex.decode expectedSignature).

End Service.

End Encryption.

(* ================================================================== *)
(** * AuditLogService *)
(* ================================================================== *)

Module AuditLog.

Import Encryption.

(** [Omit<AuditLogEntry, 'id' | 'timestamp' | 'signature'>]. *)
Record AuditLogInput : Type := {
  in_userId : string;
  in_orgId : string;
  in_action : string;
  in_resourceType : string;
  in_resourceId : string;
  in_details : JsValue;
  in_ipAddress : string;
  in_userAgent : string
}.

Record AuditLogEntry : Type := {
  id : option string;
  userId : string;
  orgId : string;
  action : string;
  resourceType : string;
  resourceId : string;
  details : JsValue;
  ipAddress : string;
  userAgent : string;
  timestamp : Date;
  signature : option string
}.

Section Service.

Variable crypto : Crypto.
Variable configService : ConfigService.

(** [Date.prototype.toISOString] on a valid time value. *)
Variable isoFormat : Z -> string.

Definition toISOString (d : Date) : Completion string :=
  match d with
  | ValidDate t => Normal (isoFormat t)
  | InvalidDate => Throw (RangeError "Invalid time value")
  end.

(** The object literal that [logAction] signs and [verifyAuditEntry]
    rebuilds, after [JSON.stringify]. *)
Definition signedFields (e : AuditLogEntry) (iso : string)
  : list (string * JsValue) :=
  [("userId", JString (userId e)); ("orgId", JString (orgId e));
   ("action", JString (action e)); ("resourceType", JString (resourceType e));
   ("resourceId", JString (resourceId e)); ("timestamp", JString iso)].

Definition canonical (e : AuditLogEntry) (iso : string) : string :=
  match Json.stringify (JObject (signedFields e iso)) with
  | Some text => text
  | None => "undefined"
  end.

Definition with_signature (e : AuditLogEntry) (s : string) : AuditLogEntry :=
  {| id := id e; userId := userId e; orgId := orgId e; action := action e;
     resourceType := resourceType e; resourceId := resourceId e;
     details := details e; ipAddress := ipAddress e;
     userAgent := userAgent e; timestamp := timestamp e;
     signature := Some s |}.

Definition with_details (e : AuditLogEntry) (d : JsValue) : AuditLogEntry :=
  {| id := id e; userId := userId e; orgId := orgId e; action := action e;
     resourceType := resourceType e; resourceId := resourceId e;
     details := d; ipAddress := ipAddress e;
     userAgent := userAgent e; timestamp := timestamp e;
     signature := signature e |}.

(** The message of the TypeError that [cipher.update] raises on an
    [undefined] argument. *)
Definition undefinedData : string :=
  "The " ++ String Json.dquote ("data" ++ String Json.dquote
    (" argument must be of type string or an instance of Buffer, "
     ++ "TypedArray, or DataView. Received undefined")).

(** Lines 31-55 of [logAction]: the record handed to [storeAuditEntry].
    [JSON.stringify] is [undefined] on no value that has own keys, so the
    [None] branch is never taken. *)
Definition buildAuditEntry (entry : AuditLogInput) : M AuditLogEntry :=
  stamp <~ newDate ;;
  let auditEntry :=
    {| id := None; userId := in_userId entry; orgId := in_orgId entry;
       action := in_action entry; resourceType := in_resourceType entry;
       resourceId := in_resourceId entry; details := in_details entry;
       ipAddress := in_ipAddress entry; userAgent := in_userAgent entry;
       timestamp := stamp; signature := None |} in
  iso <~ liftC (toISOString (timestamp auditEntry)) ;;
  let dataToSign := canonical auditEntry iso in
  sig <~ liftC (createHMAC crypto configService dataToSign None) ;;
  let auditEntry := with_signature auditEntry sig in
  if Nat.ltb 0 (Json.ownKeys (details auditEntry))
  then
    match Json.stringify (details auditEntry) with
    | Some text =>
        encryptedDetails <~
          encrypt crypto configService text (Some (orgId auditEntry)) ;;
        retM (with_details auditEntry
                (JObject [("encrypted", JString encryptedDetails)]))
    | None => throwM (Error ("Encryption failed: " ++ undefinedData))
    end
  else retM auditEntry.

Definition dateToJSON (d : Date) : JsValue :=
  match d with
  | ValidDate t => JString (isoFormat t)
  | InvalidDate => JNull
  end.

Definition entryToJSON (e : AuditLogEntry) : list (string * JsValue) :=
  (match id e with Some i => [("id", JString i)] | None => [] end)
  ++ [("userId", JString (userId e)); ("orgId", JString (orgId e));
      ("action", JString (action e));
      ("resourceType", JString (resourceType e));
      ("resourceId", JString (resourceId e)); ("details", details e);
      ("ipAddress", JString (ipAddress e));
      ("userAgent", JString (userAgent e));
      ("timestamp", dateToJSON (timestamp e))]
  ++ (match signature e with
      | Some s => [("signature", JString s)]
      | None => []
      end).

(** [storeAuditEntry] as the repository has it: one console line. *)
Definition storeAuditEntry (e : AuditLogEntry) : M unit :=
  match Json.stringify
          (JObject (entryToJSON e
                    ++ [("_immutable", JBool true);
                        ("_version", JString "1.0")]))
  with
  | Some logLine => console_write ("AUDIT_LOG: " ++ logLine)
  | None => console_write "AUDIT_LOG: undefined"
  end.

(** [logAction] over the store it writes to; the service itself runs
    [logAction storeAuditEntry]. *)
Definition logAction (store : AuditLogEntry -> M unit)
  (entry : AuditLogInput) : M unit :=
  try_catchM
    (auditEntry <~ buildAuditEntry entry ;;
     _ <~ store auditEntry ;;
     console_write ("Audit log created: " ++ action auditEntry ++ " by "
                      ++ userId auditEntry))
    (fun error =>
       console_write ("Failed to create audit log: " ++ show_error error)).

Definition verifyAuditEntry (entry : AuditLogEntry) : M bool :=
  try_catchM
    (iso <~ liftC (toISOString (timestamp entry)) ;;
     let dataToVerify := canonical entry iso in
     match signature entry with
     | Some s => liftC (verifyHMAC crypto configService dataToVerify s None)
     | None =>
         _ <~ liftC (createHMAC crypto configService dataToVerify None) ;;
         throwM (TypeError "The first argument must be of type string")
     end)
    (fun error =>
       _ <~ console_write ("Audit verification failed: " ++ show_error error) ;;
       retM false).

End Service.

End AuditLog.

(* ================================================================== *)
(** * DataResidencyService *)
(* ================================================================== *)

Module DataResidency.

(** TypeScript's interfaces are erased at run time and [registerOrgRules]
    stores whatever object its caller passes, so every field that the
    evaluator dereferences is an [option]: [None] is [undefined]. *)
Record Restrictions : Type := {
  allowedRegions : option (list string);
  prohibitedRegions : option (list string);
  requiresEncryption : bool;
  retentionPeriodDays : Z
}.

Record DataResidencyRule : Type := {
  orgId : string;
  region : string;
  dataTypes : option (list string);
  restrictions : option Restrictions
}.

Inductive Level : Type := public | internal | confidential | restricted.

Definition Level_eqb (a b : Level) : bool :=
  match a, b with
  | public, public | internal, internal
  | confidential, confidential | restricted, restricted => true
  | _, _ => false
  end.

Record DataClassification : Type := {
  level : Level;
  categories : list string;
  personalData : bool;
  financialData : bool;
  healthData : bool
}.

Inductive Operation : Type := store | process | transfer.

(** The [Map<string, DataResidencyRule>] of the service, in insertion order
    (the order in which [Map.prototype.entries] yields it). *)
Definition Registry : Type := list (string * DataResidencyRule).

Fixpoint map_get (m : Registry) (key : string) : option DataResidencyRule :=
  match m with
  | [] => None
  | (k, v) :: rest => if String.eqb k key then Some v else map_get rest key
  end.

(** [Map.prototype.set]: an existing key keeps its position. *)
Fixpoint map_set (m : Registry) (key : string) (v : DataResidencyRule)
  : Registry :=
  match m with
  | [] => [(key, v)]
  | (k, v0) :: rest =>
      if String.eqb k key then (k, v) :: rest
      else (k, v0) :: map_set rest key v
  end.

Definition mkRule (reg : string) (dts allowed prohibited : list string)
  : DataResidencyRule :=
  {| orgId := "*"; region := reg; dataTypes := Some dts;
     restrictions := Some {| allowedRegions := Some allowed;
                             prohibitedRegions := Some prohibited;
                             requiresEncryption := true;
                             retentionPeriodDays := 2555 |} |}.

Definition EU_rule : DataResidencyRule :=
  mkRule "EU" ["personal"; "financial"; "health"]
         ["EU"; "EEA"] ["US"; "CN"; "RU"].

Definition US_rule : DataResidencyRule :=
  mkRule "US" ["financial"; "health"] ["US"; "CA"] ["CN"; "RU"; "IR"].

Definition FINANCIAL_rule : DataResidencyRule :=
  mkRule "GLOBAL" ["financial"; "trading"; "risk"]
         ["US"; "EU"; "UK"; "CA"; "AU"; "SG"] ["CN"; "RU"; "IR"; "KP"].

(** The registry after the constructor has run [initializeDefaultRules]. *)
Definition initializeDefaultRules : Registry :=
  map_set (map_set (map_set [] "EU" EU_rule) "US" US_rule)
          "FINANCIAL" FINANCIAL_rule.

Definition registerOrgRules (m : Registry) (org : string)
  (rules : DataResidencyRule) : Registry :=
  map_set m ("ORG_" ++ org) rules.

Definition matchesClassification (rule : DataResidencyRule)
  (classification : option DataClassification) : Completion bool :=
  c <- deref classification "financialData" ;;
  fin <- (if financialData c
          then dts <- deref (dataTypes rule) "includes" ;;
               Normal (includes dts "financial")
          else Normal false) ;;
  if fin then Normal true else
  per <- (if personalData c
          then dts <- deref (dataTypes rule) "includes" ;;
               Normal (includes dts "personal")
          else Normal false) ;;
  if per then Normal true else
  hea <- (if healthData c
          then dts <- deref (dataTypes rule) "includes" ;;
               Normal (includes dts "health")
          else Normal false) ;;
  if hea then Normal true else Normal false.

(** The loop over [this.residencyRules.entries()]. *)
Fixpoint globalRules (entries : Registry) (dataType : string)
  (classification : option DataClassification)
  : Completion (list DataResidencyRule) :=
  match entries with
  | [] => Normal []
  | (key, rule) :: rest =>
      if String.prefix "ORG_" key
      then globalRules rest dataType classification
      else
        dts <- deref (dataTypes rule) "includes" ;;
        hit <- (if includes dts dataType then Normal true
                else matchesClassification rule classification) ;;
        tail <- globalRules rest dataType classification ;;
        Normal (if hit then rule :: tail else tail)
  end.

Definition getApplicableRules (m : Registry) (org dataType : string)
  (classification : option DataClassification)
  : Completion (list DataResidencyRule) :=
  own <- match map_get m ("ORG_" ++ org) with
         | Some orgRule =>
             dts <- deref (dataTypes orgRule) "includes" ;;
             Normal (if includes dts dataType then [orgRule] else [])
         | None => Normal []
         end ;;
  glob <- globalRules m dataType classification ;;
  Normal (own ++ glob)%list.

Record ValidationResult : Type := {
  allowed : bool;
  reason : option string;
  requirements : list string
}.

Definition prohibited_reason (targetRegion : string)
  (rule : DataResidencyRule) : string :=
  "Data transfer to " ++ targetRegion ++ " is prohibited by "
    ++ region rule ++ " regulations".

Definition not_allowed_reason (targetRegion : string)
  (allowedList : list string) : string :=
  "Data transfer to " ++ targetRegion ++ " is not in allowed regions: "
    ++ join allowedList ", ".

Definition deny (why : string) : ValidationResult :=
  {| allowed := false; reason := Some why; requirements := [] |}.

(** The two checks of the first loop body on one rule: [Some] is the
    [return] taken, [None] falls through to the next iteration. *)
Definition checkRule (targetRegion : string) (rule : DataResidencyRule)
  : Completion (option ValidationResult) :=
  r <- deref (restrictions rule) "prohibitedRegions" ;;
  p <- deref (prohibitedRegions r) "includes" ;;
  if includes p targetRegion
  then Normal (Some (deny (prohibited_reason targetRegion rule)))
  else
    a <- deref (allowedRegions r) "length" ;;
    if andb (Nat.ltb 0 (List.length a)) (negb (includes a targetRegion))
    then Normal (Some (deny (not_allowed_reason targetRegion a)))
    else Normal None.

Fixpoint checkRules (targetRegion : string) (rules : list DataResidencyRule)
  : Completion (option ValidationResult) :=
  match rules with
  | [] => Normal None
  | rule :: rest =>
      v <- checkRule targetRegion rule ;;
      match v with
      | Some verdict => Normal (Some verdict)
      | None => checkRules targetRegion rest
      end
  end.

(** The second loop, which pushes onto [requirements]. *)
Fixpoint collectRequirements (classification : option DataClassification)
  (rules : list DataResidencyRule) : Completion (list string) :=
  match rules with
  | [] => Normal []
  | rule :: rest =>
      r <- deref (restrictions rule) "requiresEncryption" ;;
      c <- deref classification "personalData" ;;
      tail <- collectRequirements classification rest ;;
      Normal
        ((if requiresEncryption r
          then ["Data must be encrypted at rest and in transit"] else [])
         ++ (if personalData c
             then ["Personal data processing requires explicit consent"]
             else [])
         ++ (if Level_eqb (level c) restricted
             then ["Restricted data requires additional access controls"]
             else [])
         ++ tail)%list
  end.

(** The body of the [try] block of [validateDataOperation]. *)
Definition validateBody (m : Registry) (org dataType : string)
  (operation : Operation) (targetRegion : string)
  (classification : option DataClassification)
  : Completion ValidationResult :=
  applicableRules <- getApplicableRules m org dataType classification ;;
  early <- checkRules targetRegion applicableRules ;;
  match early with
  | Some verdict => Normal verdict
  | None =>
      reqs <- collectRequirements classification applicableRules ;;
      Normal {| allowed := true; reason := None;
                requirements := dedupe reqs |}
  end.

Definition validationFailed : ValidationResult :=
  {| allowed := false;
     reason := Some "Data residency validation failed";
     requirements := [] |}.

Definition validateDataOperation (m : Registry) (org dataType : string)
  (operation : Operation) (targetRegion : string)
  (classification : option DataClassification)
  : Completion ValidationResult :=
  try_catch
    (validateBody m org dataType operation targetRegion classification)
    (fun _ => Normal validationFailed).

(** [typeof value === 'object' && value !== null]. *)
Definition is_object (v : JsValue) : bool :=
  match v with
  | JArray _ | JObject _ => true
  | _ => false
  end.

(** The loop of [hasField] over [Object.entries(data)], for an object and
    for an array (whose entries are keyed by index); [inner] is the
    recursive call [this.hasField(value, field)]. *)
Section Entries.

Variable inner : JsValue -> bool.
Variable field : string.

Fixpoint objectEntries (ps : list (string * JsValue)) : bool :=
  match ps with
  | [] => false
  | (key, value) :: rest =>
      if str_includes (toLowerCase key) (toLowerCase field) then true
      else if andb (is_object value) (inner value) then true
      else objectEntries rest
  end.

Fixpoint arrayEntries (i : nat) (xs : list JsValue) : bool :=
  match xs with
  | [] => false
  | value :: rest =>
      if str_includes (toLowerCase (index_key i)) (toLowerCase field)
      then true
      else if andb (is_object value) (inner value) then true
      else arrayEntries (S i) rest
  end.

End Entries.

Fixpoint hasField (data : JsValue) (field : string) : bool :=
  match data with
  | JObject props => objectEntries (fun v => hasField v field) field props
  | JArray items => arrayEntries (fun v => hasField v field) field 0 items
  | _ => false
  end.

Definition personalFields : list string :=
  ["email"; "phone"; "ssn"; "passport"; "name"; "address"].
Definition financialFields : list string :=
  ["account"; "balance"; "transaction"; "payment"; "credit"; "portfolio"].
Definition healthFields : list string :=
  ["medical"; "diagnosis"; "treatment"; "prescription"; "health"].
Definition riskFields : list string :=
  ["vulnerability"; "threat"; "incident"; "breach"; "attack"].

(** [for (const field of fields) { if (this.hasField(data, field)) { ...;
    break; } }]: whether the loop body runs. *)
Definition anyField (data : JsValue) (fields : list string) : bool :=
  existsb (hasField data) fields.

Definition classifyData (data : JsValue) : DataClassification :=
  let level0 := internal in
  let categories0 : list string := [] in
  let personal := anyField data personalFields in
  let categories1 :=
    if personal then (categories0 ++ ["personal"])%list else categories0 in
  let level1 := if personal then confidential else level0 in
  let financial := anyField data financialFields in
  let categories2 :=
    if financial then (categories1 ++ ["financial"])%list else categories1 in
  let level2 := if financial then confidential else level1 in
  let health := anyField data healthFields in
  let categories3 :=
    if health then (categories2 ++ ["health"])%list else categories2 in
  let level3 := if health then restricted else level2 in
  let risk := anyField data riskFields in
  let categories4 :=
    if risk then (categories3 ++ ["security"])%list else categories3 in
  let level4 :=
    if risk then (if Level_eqb level3 internal then confidential else level3)
    else level3 in
  {| level := level4; categories := categories4;
     personalData := personal; financialData := financial;
     healthData := health |}.

(** A JavaScript number: an integer day count, or [Infinity]. *)
Inductive Number : Type :=
| Num (z : Z)
| Infinity.

(** [Math.min(...xs)]; [Infinity] for no argument. *)
Fixpoint Math_min (xs : list Z) : Number :=
  match xs with
  | [] => Infinity
  | x :: rest =>
      match Math_min rest with
      | Infinity => Num x
      | Num y => Num (Z.min x y)
      end
  end.

(** [rules.map(rule => rule.restrictions.retentionPeriodDays)]. *)
Fixpoint retentionPeriods (rules : list DataResidencyRule)
  : Completion (list Z) :=
  match rules with
  | [] => Normal []
  | rule :: rest =>
      r <- deref (restrictions rule) "retentionPeriodDays" ;;
      tail <- retentionPeriods rest ;;
      Normal (retentionPeriodDays r :: tail)
  end.

Definition neutralClassification (dataType : string) : DataClassification :=
  {| level := internal; categories := [dataType];
     personalData := false; financialData := false; healthData := false |}.

Definition getRetentionPeriod (m : Registry) (org dataType : string)
  : Completion Number :=
  rules <- getApplicableRules m org dataType
             (Some (neutralClassification dataType)) ;;
  if Nat.eqb (List.length rules) 0 then Normal (Num 2555)
  else
    periods <- retentionPeriods rules ;;
    Normal (Math_min periods).

End DataResidency.

(* ================================================================== *)
(** * Tampering with a stored blob *)
(* ================================================================== *)

Module Tamper.

Definition byte_xor (a b : byte) : byte :=
  let '(a0, (a1, (a2, (a3, (a4, (a5, (a6, a7))))))) := Byte.to_bits a in
  let '(b0, (b1, (b2, (b3, (b4, (b5, (b6, b7))))))) := Byte.to_bits b in
  Byte.of_bits (xorb a0 b0, (xorb a1 b1, (xorb a2 b2, (xorb a3 b3,
               (xorb a4 b4, (xorb a5 b5, (xorb a6 b6, xorb a7 b7))))))).

(** The buffer with the bits of [mask] flipped in the byte at [index]. *)
Fixpoint flipByte (buf : Buffer) (index : nat) (mask : byte) : Buffer :=
  match buf, index with
  | [], _ => []
  | x :: rest, 0 => byte_xor x mask :: rest
  | x :: rest, S i => x :: flipByte rest i mask
  end.

(** What an attacker stores after flipping one byte of the decoded blob. *)
Definition flipBlob (blob : string) (index : nat) (mask : byte) : string :=
  Base64.encode (flipByte (Base64.decode blob) index mask).

End Tamper.

(* ================================================================== *)
(** * A reference provider *)
(* ================================================================== *)

(** A small provider with the interface of [Encryption.Crypto], on which
    every assumption made below about Node's primitives can be checked by
    evaluation. It is not a secure cipher. *)
Module Reference.

Import Encryption.

Definition pad (n : nat) (b : Buffer) : Buffer :=
  firstn n (b ++ repeat x00 n)%list.

Definition kdf (password : string) (salt : Buffer) (iterations : N)
  (keylen : nat) : Buffer :=
  pad keylen (salt ++ utf8_encode password)%list.

Definition tag_of (key aad ciphertext : Buffer) : Buffer :=
  pad 16 (aad ++ ciphertext ++ key)%list.

Definition seal (key aad plaintext : Buffer) : Buffer * Buffer :=
  (rev plaintext, tag_of key aad (rev plaintext)).

Definition open (key aad tag ciphertext : Buffer) : option Buffer :=
  if Buffer_eqb tag (tag_of key aad ciphertext)
  then Some (rev ciphertext) else None.

Definition mac (secret data : string) : Buffer :=
  pad 32 (utf8_encode (data ++ secret)).

Definition crypto : Crypto :=
  {| pbkdf2Sync := kdf; aes256gcm_encrypt := seal;
     aes256gcm_decrypt := open; hmac_sha256 := mac |}.

Definition config : ConfigService :=
  {| ENCRYPTION_MASTER_KEY := Some "master-secret";
     HMAC_SECRET := Some "hmac-secret" |}.

Definition iso (t : Z) : string := NilZero.string_of_int (Z.to_int t).

Definition world : World :=
  {| random := fun i => Hex.byte_of_nat (7 * i + 3);
     cursor := 0; now := 1700000000000%Z; console := [] |}.

End Reference.

(* ================================================================== *)
(** * Vocabulary of the properties *)
(* ================================================================== *)

Module Utf8Spec.

Import Utf8.

(** The text is a sequence of code points, each in its shortest form:
    Table 3-7 of the Unicode standard, with the unpaired surrogates when
    [lone] holds. *)
Inductive CodePoints (lone : bool) : string -> Prop :=
| no_code_point : CodePoints lone EmptyString
| one_byte a rest :
    within 0 127 a = true -> CodePoints lone rest ->
    CodePoints lone (String a rest)
| two_bytes a b rest :
    scalar2 a b = true -> CodePoints lone rest ->
    CodePoints lone (String a (String b rest))
| three_bytes a b c rest :
    scalar3 a b c = true -> CodePoints lone rest ->
    CodePoints lone (String a (String b (String c rest)))
| four_bytes a b c d rest :
    scalar4 a b c d = true -> CodePoints lone rest ->
    CodePoints lone (String a (String b (String c (String d rest))))
| unpaired a b c rest :
    lone = true -> surrogate a b c = true -> CodePoints lone rest ->
    CodePoints lone (String a (String b (String c rest))).

(** Well-formed text has no unpaired surrogate: it is UTF-8. *)
Definition WellFormed : string -> Prop := CodePoints false.

(** A JavaScript string, unpaired surrogates included. *)
Definition Text : string -> Prop := CodePoints true.

(** The string of the one code unit U+D800. *)
Definition loneSurrogate : string :=
  String "237" (String "160" (String "128" EmptyString)).

End Utf8Spec.

Module DataResidencySpec.

Import DataResidency.

(** A rule that conforms to the declared [DataResidencyRule] interface:
    every field the evaluator dereferences is present. *)
Definition WellTyped (r : DataResidencyRule) : Prop :=
  dataTypes r <> None /\
  exists rs a p,
    restrictions r = Some rs /\
    allowedRegions rs = Some a /\ prohibitedRegions rs = Some p.

(** Every rule of the registry conforms to the interface. *)
Definition WellTypedRegistry (m : Registry) : Prop :=
  Forall (fun kv => WellTyped (snd kv)) m.

(** [rule.dataTypes.includes(dataType)] on a rule whose list is present. *)
Definition hasType (r : DataResidencyRule) (dataType : string) : bool :=
  match dataTypes r with
  | Some dts => includes dts dataType
  | None => false
  end.

(** A rule prohibits a region when its prohibited list contains it. *)
Definition prohibits (r : DataResidencyRule) (targetRegion : string) : Prop :=
  exists rs p,
    restrictions r = Some rs /\ prohibitedRegions rs = Some p /\
    includes p targetRegion = true.

(** The rules that apply to a tenant and a data type when the
    classification selects nothing: the tenant's own rule if it lists the
    data type, and every global rule that lists it. *)
Definition Applicable (m : Registry) (org dataType : string)
  (r : DataResidencyRule) : Prop :=
  (map_get m ("ORG_" ++ org) = Some r /\ hasType r dataType = true) \/
  (exists key, In (key, r) m /\ String.prefix "ORG_" key = false /\
               hasType r dataType = true).

(** The global rules that list the data type, in registry order. *)
Definition globalMatches (m : Registry) (dataType : string)
  : list DataResidencyRule :=
  map snd
      (filter (fun kv => andb (negb (String.prefix "ORG_" (fst kv)))
                              (hasType (snd kv) dataType)) m).

(** The tenant's own rule, when it lists the data type. *)
Definition ownMatch (m : Registry) (org dataType : string)
  : list DataResidencyRule :=
  match map_get m ("ORG_" ++ org) with
  | Some r => if hasType r dataType then [r] else []
  | None => []
  end.



(** [rule.restrictions.retentionPeriodDays]. *)
Definition periodOf (r : DataResidencyRule) : Z :=
  match restrictions r with
  | Some rs => retentionPeriodDays rs
  | None => 0%Z
  end.

(** The payload has, at some depth below objects and arrays, a property
    whose lower-cased name contains [field]. *)
Inductive ContainsField (field : string) : JsValue -> Prop :=
| contains_here (props : list (string * JsValue)) key value :
    In (key, value) props ->
    str_includes (toLowerCase key) field = true ->
    ContainsField field (JObject props)
| contains_in_object (props : list (string * JsValue)) key value :
    In (key, value) props ->
    ContainsField field value ->
    ContainsField field (JObject props)
| contains_in_array (items : list JsValue) value :
    In value items ->
    ContainsField field value ->
    ContainsField field (JArray items).

(** The classification of a payload with a financial field only. *)
Definition financialClassification : DataClassification :=
  {| level := confidential; categories := ["financial"];
     personalData := false; financialData := true; healthData := false |}.


(** A tenant rule registered without its [restrictions] object. *)
Definition brokenRule : DataResidencyRule :=
  {| orgId := "org-1"; region := "X"; dataTypes := Some ["trading"];
     restrictions := None |}.

(** A tenant rule with a one-year retention period. *)
Definition shortRetentionRule : DataResidencyRule :=
  {| orgId := "org-1"; region := "ORG"; dataTypes := Some ["financial"];
     restrictions := Some {| allowedRegions := Some [];
                             prohibitedRegions := Some [];
                             requiresEncryption := false;
                             retentionPeriodDays := 365 |} |}.

(** A nested diagnosis next to a financial field. *)
Definition patientRecord : JsValue :=
  JObject [("balance", JNumber 100);
           ("visits", JArray [JObject [("primaryDiagnosis", JString "flu")]])].

End DataResidencySpec.

Module EncryptionSpec.

Import Encryption.

(** Decrypting a ciphertext with the key, associated data and tag it was
    produced with gives the plaintext back. *)
Definition opens_what_it_seals (c : Crypto) : Prop :=
  forall key aad plaintext,
    aes256gcm_decrypt c key aad
                      (snd (aes256gcm_encrypt c key aad plaintext))
                      (fst (aes256gcm_encrypt c key aad plaintext))
    = Some plaintext.

(** [getAuthTag] returns the 16 bytes of a GCM tag. *)
Definition tag_is_128_bits (c : Crypto) : Prop :=
  forall key aad plaintext,
    List.length (snd (aes256gcm_encrypt c key aad plaintext)) = tagLength.

(** The cipher authenticates its associated data: what [key] sealed with
    the associated data [aad] does not open with the other associated data
    [aad']. *)
Definition authenticates (c : Crypto) (key aad aad' plaintext : Buffer)
  : Prop :=
  aad' <> aad ->
  aes256gcm_decrypt c key aad'
    (snd (aes256gcm_encrypt c key aad plaintext))
    (fst (aes256gcm_encrypt c key aad plaintext))
  = None.

(** The text that comes back from the cipher: [cipher.update] writes the
    plaintext as UTF-8 and [decipher.update] reads the bytes as UTF-8. *)
Definition transcoded (plaintext : string) : string :=
  utf8_decode (utf8_encode plaintext).

(** An HMAC-SHA256 digest has 32 bytes. *)
Definition mac_is_256_bits (c : Crypto) : Prop :=
  forall secret data, List.length (hmac_sha256 c secret data) = 32.

Section Sealing.

Variable crypto : Crypto.
Variable masterKey : string.

(** The salt and the initialisation vector that [encrypt] draws in the
    world [w], and the key it derives. *)
Definition saltDrawn (w : World) : Buffer :=
  map (random w) (seq (cursor w) 16).

Definition ivDrawn (w : World) : Buffer :=
  map (random w) (seq (cursor w + 16) ivLength).

Definition keyDerived (w : World) : Buffer :=
  pbkdf2Sync crypto masterKey (saltDrawn w) 100000%N keyLength.

(** The ciphertext and tag stored in a blob sealed under [salt]. *)
Definition sealed (salt : Buffer) (plaintext : string)
  (orgId : option string) : Buffer * Buffer :=
  aes256gcm_encrypt crypto
    (pbkdf2Sync crypto masterKey salt 100000%N keyLength)
    (associatedData orgId) (utf8_encode plaintext).

Definition packed (salt iv : Buffer) (plaintext : string)
  (orgId : option string) : Buffer :=
  (salt ++ iv ++ snd (sealed salt plaintext orgId)
        ++ fst (sealed salt plaintext orgId))%list.

End Sealing.

(** The blob that [encrypt] returns on the reference provider for the
    plaintext [secret] and the tenant [org-A] in [Reference.world]. *)
Definition sampleBlob : string :=
  "AwoRGB8mLTQ7QklQV15lbHN6gYiPlp2kq7K5wMfO1dxvcmctQXRlcmNlcwMKERgfdGVyY2Vz".

End EncryptionSpec.

Module JsonSpec.

(** One member of an object, a quoted key, a colon and a quoted string
    value, followed by [rest]. *)
Definition member (key value rest : string) : string :=
  String Json.dquote
    (Json.escape key
     ++ String Json.dquote
          (String ":"
             (String Json.dquote
                (Json.escape value ++ String Json.dquote rest)))).

(** Every string of the value, the property names included, is a
    JavaScript string: a sequence of code points, unpaired surrogates
    among them. *)
Fixpoint representable (v : JsValue) : bool :=
  match v with
  | JString s => Utf8.codePoints true s
  | JArray items => forallb representable items
  | JObject props =>
      forallb (fun kv => andb (Utf8.codePoints true (fst kv))
                              (representable (snd kv))) props
  | _ => true
  end.

End JsonSpec.

Module AuditLogSpec.

Import Encryption AuditLog.

(** The six fields that the signature covers. *)
Definition signedPart (e : AuditLogEntry)
  : string * string * string * string * string * Date :=
  (userId e, orgId e, action e, resourceType e, resourceId e, timestamp e).

Section Signing.

Variable crypto : Crypto.
Variable configService : ConfigService.
Variable isoFormat : Z -> string.

(** The text that is signed for a record, when its timestamp is valid. *)
Definition signedText (e : AuditLogEntry) : option string :=
  match timestamp e with
  | ValidDate t => Some (canonical e (isoFormat t))
  | InvalidDate => None
  end.

(** The MAC under the configured secret tells the signed texts of the two
    records apart. *)
Definition no_collision (e e' : AuditLogEntry) : Prop :=
  forall secret d d',
    HMAC_SECRET configService = Some secret ->
    signedText e = Some d -> signedText e' = Some d' -> d' <> d ->
    hmac_sha256 crypto secret d' <> hmac_sha256 crypto secret d.

End Signing.

Definition sampleInput : AuditLogInput :=
  {| in_userId := "user-123"; in_orgId := "org-1";
     in_action := "scenario.create"; in_resourceType := "scenario";
     in_resourceId := "scenario-456";
     in_details := JObject [("name", JString "Market Crash Test")];
     in_ipAddress := "192.168.1.100"; in_userAgent := "Mozilla/5.0" |}.

(** The record built for [sampleInput]. *)
Definition sampleEntry : AuditLogEntry :=
  match fst (buildAuditEntry Reference.crypto Reference.config Reference.iso
                             sampleInput Reference.world) with
  | Normal e => e
  | Throw _ =>
      {| id := None; userId := ""; orgId := ""; action := "";
         resourceType := ""; resourceId := ""; details := JNull;
         ipAddress := ""; userAgent := ""; timestamp := InvalidDate;
         signature := None |}
  end.

(** The same record with another actor written over the signed one. *)
Definition forgedEntry : AuditLogEntry :=
  {| id := id sampleEntry; userId := "user-999"; orgId := orgId sampleEntry;
     action := action sampleEntry; resourceType := resourceType sampleEntry;
     resourceId := resourceId sampleEntry; details := details sampleEntry;
     ipAddress := ipAddress sampleEntry; userAgent := userAgent sampleEntry;
     timestamp := timestamp sampleEntry;
     signature := signature sampleEntry |}.

(** A store that always fails, and a service without its HMAC secret. *)
Definition failingStore (e : AuditLogEntry) : M unit :=
  throwM (Error "audit store unavailable").

Definition unsignedConfig : ConfigService :=
  {| ENCRYPTION_MASTER_KEY := Some "master-secret"; HMAC_SECRET := None |}.

End AuditLogSpec.

(* ================================================================== *)
(** * The remaining operations of the services *)
(* ================================================================== *)

Module EncryptionOps.

(** [generateToken(length = 32)]: [None] is the omitted argument. *)
Definition generateToken (length : option nat) : M string :=
  bytes <~ randomBytes (match length with Some n => n | None => 32 end) ;;
  retM (Hex.encode bytes).

(** A lower-case hexadecimal digit. *)
Definition isHexDigit (c : ascii) : Prop := In c Hex.digits.

(** The world after [n] more bytes of entropy have been drawn. *)
Definition afterDrawing (n : nat) (w : World) : World :=
  {| random := random w; cursor := cursor w + n;
     now := now w; console := console w |}.

End EncryptionOps.

Module AuditLogOps.

Import AuditLog.

Definition allowedRoles : list string :=
  ["admin"; "compliance_officer"; "security_admin"].

Definition canAccessAuditLogs (role : string) : bool :=
  includes allowedRoles role.

(** The [filters] argument of [queryAuditLogs]. *)
Record AuditFilters : Type := {
  filter_userId : option string;
  filter_action : option string;
  filter_resourceType : option string;
  filter_startDate : option Date;
  filter_endDate : option Date
}.

Definition queryAuditLogs (org : string) (filters : AuditFilters)
  (requesterRole : string) : M (list AuditLogEntry) :=
  if negb (canAccessAuditLogs requesterRole)
  then throwM (Error "Insufficient permissions to access audit logs")
  else
    stamp <~ newDate ;;
    retM [{| id := Some "audit-1"; userId := "user-123"; orgId := org;
             action := "scenario.create"; resourceType := "scenario";
             resourceId := "scenario-456";
             details := JObject [("name", JString "Market Crash Test")];
             ipAddress := "192.168.1.100"; userAgent := "Mozilla/5.0...";
             timestamp := stamp; signature := Some "mock-signature" |}].

(** Filters that the one record of the mock store does not meet: another
    user, and a date range that ended at the epoch. *)
Definition narrowFilters : AuditFilters :=
  {| filter_userId := Some "user-999"; filter_action := None;
     filter_resourceType := None; filter_startDate := Some (ValidDate 0);
     filter_endDate := Some (ValidDate 0) |}.

(** Two records that agree on everything the signature covers and on the
    signature itself. *)
Definition sameSignedContent (e e' : AuditLogEntry) : Prop :=
  userId e = userId e' /\ orgId e = orgId e' /\ action e = action e' /\
  resourceType e = resourceType e' /\ resourceId e = resourceId e' /\
  timestamp e = timestamp e' /\ signature e = signature e'.

(** The sample input with no details. *)
Definition bareInput : AuditLogInput :=
  {| in_userId := "user-123"; in_orgId := "org-1";
     in_action := "user.login"; in_resourceType := "session";
     in_resourceId := "session-1"; in_details := JObject [];
     in_ipAddress := "192.168.1.100"; in_userAgent := "Mozilla/5.0" |}.

(** The sample record with its details, address and client replaced. *)
Definition redactedEntry : AuditLogEntry :=
  {| id := Some "audit-7"; userId := userId AuditLogSpec.sampleEntry;
     orgId := orgId AuditLogSpec.sampleEntry; action := action AuditLogSpec.sampleEntry;
     resourceType := resourceType AuditLogSpec.sampleEntry;
     resourceId := resourceId AuditLogSpec.sampleEntry;
     details := JObject [("name", JString "something else")];
     ipAddress := "10.0.0.1"; userAgent := "curl";
     timestamp := timestamp AuditLogSpec.sampleEntry;
     signature := signature AuditLogSpec.sampleEntry |}.

End AuditLogOps.

Module DataResidencyOps.

Import DataResidency.

(** The result of [generateComplianceReport]. *)
Record ComplianceReport : Type := {
  report_orgId : string;
  report_applicableRules : list string;
  report_dataTypes : list string;
  report_complianceStatus : string;
  report_violations : list string;
  report_recommendations : list string
}.

(** [Array.from(this.residencyRules.keys())]. *)
Definition map_keys (m : Registry) : list string := map fst m.

Definition generateComplianceReport (m : Registry) (org : string)
  : ComplianceReport :=
  let orgRule := map_get m ("ORG_" ++ org) in
  let applicableRules :=
    filter (fun key => orb (negb (String.prefix "ORG_" key))
                           (String.eqb key ("ORG_" ++ org)))
           (map_keys m) in
  {| report_orgId := org;
     report_applicableRules := applicableRules;
     report_dataTypes :=
       match orgRule with
       | Some rule =>
           match dataTypes rule with
           | Some dts => dts
           | None => ["financial"; "personal"; "operational"]
           end
       | None => ["financial"; "personal"; "operational"]
       end;
     report_complianceStatus := "compliant";
     report_violations := [];
     report_recommendations :=
       ["Implement data encryption at rest and in transit";
        "Regular compliance audits and monitoring";
        "Staff training on data residency requirements";
        "Automated data classification and handling"] |}.

(** The three safeguards that [validateDataOperation] can require. *)
Definition encryptionRequirement : string :=
  "Data must be encrypted at rest and in transit".
Definition consentRequirement : string :=
  "Personal data processing requires explicit consent".
Definition accessRequirement : string :=
  "Restricted data requires additional access controls".

(** The order public < internal < confidential < restricted. *)
Definition rank (l : Level) : nat :=
  match l with
  | public => 0
  | internal => 1
  | confidential => 2
  | restricted => 3
  end.

(** The more sensitive of two levels. *)
Definition maxLevel (a b : Level) : Level :=
  if Nat.leb (rank a) (rank b) then b else a.

(** A global rule of the registry that applies to the data type or to the
    classification. *)
Definition GlobalRuleApplies (m : Registry) (dataType : string)
  (c : DataClassification) (r : DataResidencyRule) : Prop :=
  exists key dts,
    In (key, r) m /\ String.prefix "ORG_" key = false /\
    dataTypes r = Some dts /\
    (includes dts dataType = true \/
     (financialData c = true /\ includes dts "financial" = true) \/
     (personalData c = true /\ includes dts "personal" = true) \/
     (healthData c = true /\ includes dts "health" = true)).

(** Whether a rule with the data types [dts] is selected. *)
Definition selected (dts : list string) (dataType : string)
  (c : DataClassification) : bool :=
  orb (includes dts dataType)
      (orb (andb (financialData c) (includes dts "financial"))
           (orb (andb (personalData c) (includes dts "personal"))
                (andb (healthData c) (includes dts "health")))).

(** The rule demands encryption. *)
Definition demandsEncryption (r : DataResidencyRule) : Prop :=
  exists rs, restrictions r = Some rs /\ requiresEncryption rs = true.

(** The rule lets the target region through both checks. *)
Definition passes (r : DataResidencyRule) (targetRegion : string) : Prop :=
  exists rs a p,
    restrictions r = Some rs /\ allowedRegions rs = Some a /\
    prohibitedRegions rs = Some p /\
    includes p targetRegion = false /\
    (a = [] \/ includes a targetRegion = true).

(** A classification that selects no rule by itself. *)
Definition unflagged (c : DataClassification) : Prop :=
  personalData c = false /\ financialData c = false /\ healthData c = false.

(** A payload without any property to inspect. *)
Definition noProperties (data : JsValue) : Prop :=
  is_object data = false \/ data = JObject [] \/ data = JArray [].

(** The classification of such a payload. *)
Definition unclassified : DataClassification :=
  {| level := internal; categories := [];
     personalData := false; financialData := false; healthData := false |}.

(** The verdict that lets the operation through with no safeguard. *)
Definition allowedFreely : ValidationResult :=
  {| allowed := true; reason := None; requirements := [] |}.

End DataResidencyOps.

(* ================================================================== *)
(** * Properties of DataResidencyService *)
(* ================================================================== *)

Module DataResidencyFacts.

Import DataResidency DataResidencySpec.

Lemma map_get_In (m : Registry) key r :
  map_get m key = Some r -> In (key, r) m.
Proof.
  induction m as [|[k v] rest IH]; simpl; [discriminate|].
  destruct (String.eqb k key) eqn:E.
  - intros H. injection H as ->. apply String.eqb_eq in E. subst. now left.
  - intros H. right. now apply IH.
Qed.

Lemma WellTyped_dataTypes r :
  WellTyped r -> exists dts, dataTypes r = Some dts.
Proof.
  intros [H _]. destruct (dataTypes r) as [dts|]; [now exists dts | congruence].
Qed.

Lemma matchesClassification_neutral r dataType :
  matchesClassification r (Some (neutralClassification dataType))
  = Normal false.
Proof. reflexivity. Qed.

Lemma globalRules_neutral (m : Registry) dataType :
  WellTypedRegistry m ->
  globalRules m dataType (Some (neutralClassification dataType))
  = Normal (globalMatches m dataType).
Proof.
  unfold globalMatches.
  induction m as [|[key rule] rest IH]; intros W; [reflexivity|].
  inversion W as [|? ? Wr Wrest]; subst. simpl in Wr.
  specialize (IH Wrest). simpl.
  destruct (String.prefix "ORG_" key) eqn:P; simpl; [exact IH|].
  destruct (WellTyped_dataTypes _ Wr) as [dts D].
  unfold hasType. rewrite D. simpl.
  destruct (includes dts dataType); simpl; rewrite IH; reflexivity.
Qed.

Lemma getApplicableRules_neutral (m : Registry) org dataType :
  WellTypedRegistry m ->
  getApplicableRules m org dataType (Some (neutralClassification dataType))
  = Normal (ownMatch m org dataType ++ globalMatches m dataType)%list.
Proof.
  intros W. unfold getApplicableRules, ownMatch.
  rewrite (globalRules_neutral m dataType W).
  destruct (map_get m ("ORG_" ++ org)) as [r|] eqn:G; [|reflexivity].
  assert (Wr : WellTyped r).
  { apply map_get_In in G. unfold WellTypedRegistry in W.
    rewrite Forall_forall in W. exact (W _ G). }
  destruct (WellTyped_dataTypes _ Wr) as [dts D].
  unfold hasType. rewrite D. simpl. reflexivity.
Qed.

Lemma applicable_iff (m : Registry) org dataType r :
  In r (ownMatch m org dataType ++ globalMatches m dataType)%list
  <-> Applicable m org dataType r.
Proof.
  unfold Applicable, ownMatch, globalMatches.
  rewrite in_app_iff, in_map_iff. split.
  - intros [H|[[key r'] [E H]]].
    + left. destruct (map_get m ("ORG_" ++ org)) as [r0|]; [|contradiction].
      destruct (hasType r0 dataType) eqn:T; [|contradiction].
      destruct H as [<-|[]]. now split.
    + right. simpl in E. subst r'. apply filter_In in H as [I C].
      simpl in C. apply andb_true_iff in C as [C1 C2].
      exists key. repeat split; try assumption.
      now apply negb_true_iff in C1.
  - intros [[G T]|[key [I [P T]]]].
    + left. rewrite G, T. now left.
    + right. exists (key, r). split; [reflexivity|].
      apply filter_In. split; [assumption|]. simpl. now rewrite P, T.
Qed.

Lemma retentionPeriods_well_typed (rules : list DataResidencyRule) :
  Forall WellTyped rules ->
  retentionPeriods rules = Normal (map periodOf rules).
Proof.
  induction rules as [|r rest IH]; intros W; [reflexivity|].
  inversion W as [|? ? Wr Wrest]; subst.
  destruct Wr as [_ [rs [a [p [R _]]]]].
  simpl. unfold periodOf. rewrite R. simpl. rewrite (IH Wrest). reflexivity.
Qed.

(** [Math.min] of a non-empty argument list is its least element. *)
Lemma Math_min_least (x : Z) (xs : list Z) :
  exists m,
    Math_min (x :: xs) = Num m /\ In m (x :: xs) /\
    forall y, In y (x :: xs) -> (m <= y)%Z.
Proof.
  revert x. induction xs as [|z rest IH]; intros x.
  - exists x. cbn. repeat split; [now left|].
    intros y [<-|[]]. lia.
  - destruct (IH z) as [m [E [I L]]].
    cbn [Math_min] in *. rewrite E.
    exists (Z.min x m). split; [reflexivity|]. split.
    + destruct (Z.min_spec x m) as [[_ ->]|[_ ->]]; [now left | now right].
    + intros y [<-|H]; [lia|]. specialize (L y H). lia.
Qed.

Lemma applicable_well_typed (m : Registry) org dataType :
  WellTypedRegistry m ->
  Forall WellTyped (ownMatch m org dataType ++ globalMatches m dataType)%list.
Proof.
  intros W. apply Forall_forall. intros r H.
  apply applicable_iff in H. unfold WellTypedRegistry in W.
  rewrite Forall_forall in W.
  destruct H as [[G _]|[key [I _]]].
  - apply map_get_In in G. exact (W _ G).
  - exact (W _ I).
Qed.

(** C8. On a registry of well-typed rules [getRetentionPeriod] returns
    the least [retentionPeriodDays] over the applicable rules: a period
    that some applicable rule carries and that no applicable rule
    undercuts; when no rule applies it returns the fallback 2555. *)
Theorem retention_minimum (m : Registry) (org dataType : string) :
  WellTypedRegistry m ->
  ((forall r, ~ Applicable m org dataType r) ->
   getRetentionPeriod m org dataType = Normal (Num 2555)) /\
  ((exists r, Applicable m org dataType r) ->
   exists days,
     getRetentionPeriod m org dataType = Normal (Num days) /\
     (exists r, Applicable m org dataType r /\ periodOf r = days) /\
     (forall r, Applicable m org dataType r -> (days <= periodOf r)%Z)).
Proof.
  intros W. unfold getRetentionPeriod.
  rewrite (getApplicableRules_neutral m org dataType W). simpl.
  pose proof (applicable_well_typed m org dataType W) as WT.
  pose proof (fun r => applicable_iff m org dataType r) as A.
  destruct (ownMatch m org dataType ++ globalMatches m dataType)%list
    as [|r0 rest] eqn:E.
  - split; [reflexivity|].
    intros [r Hr]. apply A in Hr. contradiction.
  - split.
    + intros none. exfalso. apply (none r0), A. now left.
    + intros _. rewrite (retentionPeriods_well_typed _ WT).
      cbn [List.length Nat.eqb bind].
      destruct (Math_min_least (periodOf r0) (map periodOf rest))
        as [days [Em [I L]]].
      change (periodOf r0 :: map periodOf rest)
        with (map periodOf (r0 :: rest)) in *.
      exists days. split; [now rewrite Em|]. split.
      * apply in_map_iff in I as [r [P I]].
        exists r. split; [now apply A | exact P].
      * intros r Hr. apply A in Hr. apply L. now apply in_map.
Qed.









(** Settles [WellTyped] and [Forall WellTyped] on explicit rules. *)
Ltac well_typed :=
  repeat first [apply Forall_cons | apply Forall_nil];
  try (split; [discriminate | do 3 eexists; repeat split; reflexivity]).

Lemma default_registry_well_typed : WellTypedRegistry initializeDefaultRules.
Proof. well_typed. Qed.



(** The same rule checked alone: its prohibition is reported even though
    the target is also absent from its allowed list. *)
Example single_rule_prohibition_first :
  checkRule "CN" (mkRule "X" ["financial"] ["US"; "EU"] ["CN"])
  = Normal (Some (deny "Data transfer to CN is prohibited by X regulations")).
Proof. reflexivity. Qed.

Lemma validate_never_throws (m : Registry) (org dataType : string)
  (operation : Operation) (targetRegion : string)
  (classification : option DataClassification) :
  exists v,
    validateDataOperation m org dataType operation targetRegion classification
    = Normal v /\
    (allowed v = true ->
     validateBody m org dataType operation targetRegion classification
     = Normal v).
Proof.
  unfold validateDataOperation, try_catch.
  destruct (validateBody m org dataType operation targetRegion classification)
    as [v|e].
  - exists v. now split.
  - exists validationFailed. split; [reflexivity|]. discriminate.
Qed.

(** C10. When anything thrown inside the [try] block - while the
    applicable rules are gathered or while they are applied - escapes the
    body, [validateDataOperation] returns normally with the fixed denial
    verdict. *)
Theorem validate_fail_closed (m : Registry) (org dataType : string)
  (operation : Operation) (targetRegion : string)
  (classification : option DataClassification) (e : JsError) :
  validateBody m org dataType operation targetRegion classification = Throw e ->
  validateDataOperation m org dataType operation targetRegion classification
  = Normal {| allowed := false;
              reason := Some "Data residency validation failed";
              requirements := [] |}.
Proof.
  intros B. unfold validateDataOperation. rewrite B. reflexivity.
Qed.

Lemma validate_fail_closed_witness :
  validateBody (registerOrgRules initializeDefaultRules "org-1" brokenRule)
               "org-1" "trading" store "US" (Some financialClassification)
  = Throw (TypeError
             "Cannot read properties of undefined (reading 'prohibitedRegions')")
  /\
  validateDataOperation
    (registerOrgRules initializeDefaultRules "org-1" brokenRule)
    "org-1" "trading" store "US" (Some financialClassification)
  = Normal validationFailed.
Proof.
  split; [reflexivity|].
  apply (validate_fail_closed _ _ _ _ _ _
           (TypeError
              "Cannot read properties of undefined (reading 'prohibitedRegions')")).
  reflexivity.
Defined.

(** A fault while the rules are gathered: a missing classification. *)
Example gathering_fault_is_denied :
  getApplicableRules initializeDefaultRules "org-1" "trading" None
  = Throw (TypeError
             "Cannot read properties of undefined (reading 'financialData')")
  /\
  validateDataOperation initializeDefaultRules "org-1" "trading" store "US"
                        None
  = Normal validationFailed.
Proof. split; reflexivity. Qed.

Lemma retention_minimum_witness :
  WellTypedRegistry
    (registerOrgRules initializeDefaultRules "org-1" shortRetentionRule) /\
  exists days,
    getRetentionPeriod
      (registerOrgRules initializeDefaultRules "org-1" shortRetentionRule)
      "org-1" "financial" = Normal (Num days) /\
    (days <= 365)%Z.
Proof.
  assert (W : WellTypedRegistry
                (registerOrgRules initializeDefaultRules "org-1"
                                  shortRetentionRule)).
  { well_typed. }
  split; [exact W|].
  destruct (retention_minimum _ "org-1" "financial" W) as [_ H].
  destruct H as [days [G [_ L]]].
  - exists shortRetentionRule. left. split; reflexivity.
  - exists days. split; [exact G|].
    apply (L shortRetentionRule). left. split; reflexivity.
Defined.

(** The two periods of the specification's example. *)
Example retention_365_beats_2555 :
  getRetentionPeriod
    (registerOrgRules initializeDefaultRules "org-1" shortRetentionRule)
    "org-1" "financial" = Normal (Num 365) /\
  getRetentionPeriod initializeDefaultRules "org-1" "operational"
  = Normal (Num 2555).
Proof. split; reflexivity. Qed.


(** ** The classifier *)

Lemma ContainsField_is_object field v :
  ContainsField field v -> is_object v = true.
Proof. intros H. destruct H; reflexivity. Qed.

Lemma objectEntries_here inner field props key value :
  In (key, value) props ->
  str_includes (toLowerCase key) (toLowerCase field) = true ->
  objectEntries inner field props = true.
Proof.
  induction props as [|[k v] rest IH]; intros I K; [contradiction|].
  simpl. destruct I as [E|I].
  - injection E as -> ->. now rewrite K.
  - destruct (str_includes (toLowerCase k) (toLowerCase field)); [reflexivity|].
    destruct (andb (is_object v) (inner v)); [reflexivity|]. now apply IH.
Qed.

Lemma objectEntries_nested inner field props key value :
  In (key, value) props ->
  is_object value = true -> inner value = true ->
  objectEntries inner field props = true.
Proof.
  induction props as [|[k v] rest IH]; intros I O N; [contradiction|].
  simpl. destruct (str_includes (toLowerCase k) (toLowerCase field));
    [reflexivity|].
  destruct I as [E|I].
  - injection E as -> ->. now rewrite O, N.
  - destruct (andb (is_object v) (inner v)); [reflexivity|]. now apply IH.
Qed.

Lemma arrayEntries_nested inner field items value :
  In value items ->
  is_object value = true -> inner value = true ->
  forall i, arrayEntries inner field i items = true.
Proof.
  induction items as [|v rest IH]; intros I O N i; [contradiction|].
  simpl.
  destruct (str_includes (toLowerCase (index_key i)) (toLowerCase field));
    [reflexivity|].
  destruct I as [->|I].
  - now rewrite O, N.
  - destruct (andb (is_object v) (inner v)); [reflexivity|]. now apply IH.
Qed.

(** [hasField] finds every property that [ContainsField] describes. *)
Lemma hasField_complete (field : string) (data : JsValue) :
  toLowerCase field = field ->
  ContainsField field data -> hasField data field = true.
Proof.
  intros L H. induction H as [props key value I K
                             |props key value I C IH
                             |items value I C IH].
  - simpl. apply (objectEntries_here _ _ _ key value I). now rewrite L.
  - simpl. apply (objectEntries_nested _ _ _ key value I).
    + now apply (ContainsField_is_object field).
    + exact IH.
  - simpl. apply (arrayEntries_nested _ _ _ value I).
    + now apply (ContainsField_is_object field).
    + exact IH.
Qed.

(** C7. A payload with a property, at any depth, whose name contains
    [diagnosis] in any letter case classifies as [restricted] with
    [healthData] set, whatever else it holds. *)
Theorem diagnosis_is_restricted (data : JsValue) :
  ContainsField "diagnosis" data ->
  level (classifyData data) = restricted /\
  healthData (classifyData data) = true.
Proof.
  intros H.
  assert (F : hasField data "diagnosis" = true)
    by (apply hasField_complete; [reflexivity | exact H]).
  assert (A : anyField data healthFields = true).
  { unfold anyField, healthFields. simpl. rewrite F.
    now rewrite orb_true_r. }
  unfold classifyData. cbn [level healthData]. rewrite A.
  split; [|reflexivity].
  destruct (anyField data riskFields); reflexivity.
Qed.

Lemma diagnosis_is_restricted_witness :
  ContainsField "diagnosis" patientRecord /\
  level (classifyData patientRecord) = restricted /\
  healthData (classifyData patientRecord) = true /\
  financialData (classifyData patientRecord) = true.
Proof.
  assert (C : ContainsField "diagnosis" patientRecord).
  { apply (contains_in_object _ _ "visits"
             (JArray [JObject [("primaryDiagnosis", JString "flu")]]));
      [right; now left|].
    apply (contains_in_array _ _
             (JObject [("primaryDiagnosis", JString "flu")])); [now left|].
    apply (contains_here _ _ "primaryDiagnosis" (JString "flu"));
      [now left | reflexivity]. }
  split; [exact C|].
  destruct (diagnosis_is_restricted patientRecord C) as [L Hd].
  split; [exact L|]. split; [exact Hd | reflexivity].
Defined.

(** The end-to-end payload of the specification. *)
Example classify_email_and_balance :
  classifyData (JObject [("email", JString "a@b.com");
                         ("account_balance", JNumber 100)])
  = {| level := confidential; categories := ["personal"; "financial"];
       personalData := true; financialData := true; healthData := false |}.
Proof. reflexivity. Qed.

End DataResidencyFacts.

(* ================================================================== *)
(** * Properties of the text encodings *)
(* ================================================================== *)

Module Utf8Facts.

Import Utf8 Utf8Spec.

Lemma within_true lo hi c :
  lo <= nat_of_ascii c <= hi -> within lo hi c = true.
Proof.
  intros [L H]. unfold within.
  apply Nat.leb_le in L. apply Nat.leb_le in H. now rewrite L, H.
Qed.

Lemma within_false lo hi c :
  nat_of_ascii c < lo \/ hi < nat_of_ascii c -> within lo hi c = false.
Proof.
  unfold within. intros [L|H].
  - apply Nat.leb_gt in L. now rewrite L.
  - apply Nat.leb_gt in H. rewrite H. apply andb_false_r.
Qed.

Lemma within_spec lo hi c :
  within lo hi c = true <-> lo <= nat_of_ascii c <= hi.
Proof.
  unfold within. rewrite andb_true_iff, !Nat.leb_le. tauto.
Qed.

(** Turns the range tests among the hypotheses into inequalities. *)
Ltac ranges :=
  unfold scalar2, scalar3, scalar4, surrogate, continuation in *;
  repeat match goal with
  | H : andb _ _ = true |- _ => apply andb_true_iff in H; destruct H
  | H : orb _ _ = true |- _ => apply orb_true_iff in H; destruct H
  | H : within _ _ _ = true |- _ => apply within_spec in H
  end.

(** Settles the range tests of the goal from the inequalities at hand. *)
Ltac settle :=
  repeat match goal with
  | |- context [within ?lo ?hi ?c] =>
      first [ rewrite (within_true lo hi c) by lia
            | rewrite (within_false lo hi c) by lia ]
  end.

Ltac run_decoder :=
  repeat (cbn [decode_from fst snd seen due lower upper append];
          unfold step, start, lead; settle).

Lemma decode_one_byte a rest :
  within 0 127 a = true ->
  decode_from None (String a rest) = String a (decode_from None rest).
Proof. intros H. ranges. run_decoder. reflexivity. Qed.

Lemma decode_two_bytes a b rest :
  scalar2 a b = true ->
  decode_from None (String a (String b rest))
  = String a (String b (decode_from None rest)).
Proof. intros H. ranges; run_decoder; reflexivity. Qed.

Lemma decode_three_bytes a b c rest :
  scalar3 a b c = true ->
  decode_from None (String a (String b (String c rest)))
  = String a (String b (String c (decode_from None rest))).
Proof. intros H. ranges; run_decoder; reflexivity. Qed.

Lemma decode_four_bytes a b c d rest :
  scalar4 a b c d = true ->
  decode_from None (String a (String b (String c (String d rest))))
  = String a (String b (String c (String d (decode_from None rest)))).
Proof. intros H. ranges; run_decoder; reflexivity. Qed.

(** Decoding well-formed UTF-8 gives the text back. *)
Lemma decode_well_formed s : WellFormed s -> decode s = s.
Proof.
  unfold decode. induction 1 as [|a rest A _ IH|a b rest A _ IH
                                |a b c rest A _ IH|a b c d rest A _ IH
                                |a b c rest L _ _ _]; try discriminate L.
  - reflexivity.
  - now rewrite decode_one_byte, IH.
  - now rewrite decode_two_bytes, IH.
  - now rewrite decode_three_bytes, IH.
  - now rewrite decode_four_bytes, IH.
Qed.

Lemma toWellFormed_keeps a tail :
  nat_of_ascii a <> 237 ->
  toWellFormed (String a tail) = String a (toWellFormed tail).
Proof.
  intros N. destruct tail as [|b [|c rest]]; try reflexivity.
  cbn [toWellFormed]. unfold surrogate. settle. reflexivity.
Qed.

Lemma toWellFormed_keeps_low a b tail :
  nat_of_ascii b < 160 ->
  toWellFormed (String a (String b tail))
  = String a (toWellFormed (String b tail)).
Proof.
  intros N. destruct tail as [|c rest]; try reflexivity.
  cbn [toWellFormed]. unfold surrogate. settle.
  rewrite andb_false_r. reflexivity.
Qed.

Lemma toWellFormed_unpaired a b c rest :
  surrogate a b c = true ->
  toWellFormed (String a (String b (String c rest)))
  = replacement ++ toWellFormed rest.
Proof. intros H. cbn [toWellFormed]. now rewrite H. Qed.

Lemma toWellFormed_well_formed s : WellFormed s -> toWellFormed s = s.
Proof.
  induction 1 as [|a rest A _ IH|a b rest A _ IH
                 |a b c rest A _ IH|a b c d rest A _ IH
                 |a b c rest L _ _ _]; try discriminate L.
  - reflexivity.
  - ranges. rewrite toWellFormed_keeps by lia. now rewrite IH.
  - ranges. rewrite !toWellFormed_keeps by lia. now rewrite IH.
  - ranges;
      first [ rewrite toWellFormed_keeps by lia
            | rewrite toWellFormed_keeps_low by lia ];
      rewrite !toWellFormed_keeps by lia; now rewrite IH.
  - ranges; rewrite !toWellFormed_keeps by lia; now rewrite IH.
Qed.

Lemma toWellFormed_two_bytes a b rest :
  scalar2 a b = true ->
  toWellFormed (String a (String b rest))
  = String a (String b (toWellFormed rest)).
Proof. intros A. ranges. now rewrite !toWellFormed_keeps by lia. Qed.

Lemma toWellFormed_three_bytes a b c rest :
  scalar3 a b c = true ->
  toWellFormed (String a (String b (String c rest)))
  = String a (String b (String c (toWellFormed rest))).
Proof.
  intros A.
  ranges;
    first [ rewrite toWellFormed_keeps by lia
          | rewrite toWellFormed_keeps_low by lia ];
    now rewrite !toWellFormed_keeps by lia.
Qed.

Lemma toWellFormed_four_bytes a b c d rest :
  scalar4 a b c d = true ->
  toWellFormed (String a (String b (String c (String d rest))))
  = String a (String b (String c (String d (toWellFormed rest)))).
Proof. intros A. ranges; now rewrite !toWellFormed_keeps by lia. Qed.

(** On a JavaScript string [toWellFormed] returns well-formed text. *)
Lemma toWellFormed_text s : Text s -> WellFormed (toWellFormed s).
Proof.
  induction 1 as [|a rest A _ IH|a b rest A _ IH
                 |a b c rest A _ IH|a b c d rest A _ IH
                 |a b c rest _ S _ IH].
  - constructor.
  - rewrite toWellFormed_keeps by (ranges; lia). now apply one_byte.
  - rewrite toWellFormed_two_bytes by exact A. now apply two_bytes.
  - rewrite toWellFormed_three_bytes by exact A. now apply three_bytes.
  - rewrite toWellFormed_four_bytes by exact A. now apply four_bytes.
  - rewrite toWellFormed_unpaired by exact S.
    apply three_bytes; [reflexivity | exact IH].
Qed.

(** The boolean test decides the inductive description. *)
Lemma codePoints_sound lone n s :
  String.length s <= n -> codePoints lone s = true -> CodePoints lone s.
Proof.
  revert s. induction n as [|n IH]; intros s L.
  - destruct s; [constructor | cbn in L; lia].
  - destruct s as [|a t1]; [constructor|]. cbn [String.length] in L.
    cbn [codePoints].
    destruct (within 0 127 a) eqn:A1.
    { intros H. apply one_byte; [exact A1 | apply IH; [lia | exact H]]. }
    destruct t1 as [|b t2]; [discriminate|]. cbn [String.length] in L.
    destruct (scalar2 a b) eqn:A2.
    { intros H. apply two_bytes; [exact A2 | apply IH; [lia | exact H]]. }
    destruct t2 as [|c t3]; [discriminate|]. cbn [String.length] in L.
    destruct (scalar3 a b c) eqn:A3.
    { cbn [orb]. intros H.
      apply three_bytes; [exact A3 | apply IH; [lia | exact H]]. }
    cbn [orb]. destruct (andb lone (surrogate a b c)) eqn:A5.
    { apply andb_true_iff in A5 as [Lone S]. intros H.
      apply unpaired; [exact Lone | exact S | apply IH; [lia | exact H]]. }
    destruct t3 as [|d t4]; [discriminate|]. cbn [String.length] in L.
    destruct (scalar4 a b c d) eqn:A4; [|discriminate].
    intros H. apply four_bytes; [exact A4 | apply IH; [lia | exact H]].
Qed.

Lemma isWellFormed_sound s : isWellFormed s = true -> WellFormed s.
Proof. apply (codePoints_sound false (String.length s)). lia. Qed.

Lemma well_formed_is_text s : WellFormed s -> Text s.
Proof.
  induction 1; now constructor.
Qed.

Lemma utf8_decode_encode (s : string) :
  WellFormed s -> utf8_decode (utf8_encode s) = s.
Proof.
  intros W. unfold utf8_decode, utf8_encode.
  rewrite string_of_list_byte_of_string, toWellFormed_well_formed by exact W.
  now apply decode_well_formed.
Qed.

(** Written as UTF-8 and read back, a JavaScript string is the string
    with each unpaired surrogate replaced by U+FFFD. *)
Lemma utf8_decode_encode_text (s : string) :
  Text s -> utf8_decode (utf8_encode s) = toWellFormed s.
Proof.
  intros T. unfold utf8_decode, utf8_encode.
  rewrite string_of_list_byte_of_string.
  apply decode_well_formed. now apply toWellFormed_text.
Qed.

Example lone_surrogate_is_replaced :
  utf8_encode loneSurrogate = [xef; xbf; xbd] /\
  utf8_decode (utf8_encode loneSurrogate) = replacement /\
  replacement <> loneSurrogate.
Proof. repeat split; try reflexivity. discriminate. Qed.

Example decode_examples :
  utf8_decode [xff] = replacement /\
  utf8_decode [xe2; x82] = replacement /\
  utf8_decode [xe2; x82; x41] = replacement ++ "A" /\
  utf8_decode [xed; xa0; x80] = replacement ++ replacement ++ replacement /\
  utf8_decode [xc0; x80] = replacement ++ replacement /\
  utf8_decode [xf0; x9f; x98; x80] = String "240" (String "159" (String "152" (String "128" ""))) /\
  utf8_decode [xe2; x82; xac] = String "226" (String "130" (String "172" "")).
Proof. repeat split; reflexivity. Qed.

End Utf8Facts.

Module CodecFacts.

Lemma hex_decode_encode_byte (x : byte) (rest : string) :
  Hex.decode (Hex.encode_byte x ++ rest) = x :: Hex.decode rest.
Proof. destruct x; reflexivity. Qed.

Lemma hex_decode_encode (b : Buffer) : Hex.decode (Hex.encode b) = b.
Proof.
  induction b as [|x rest IH]; [reflexivity|].
  cbn [Hex.encode]. rewrite hex_decode_encode_byte, IH. reflexivity.
Qed.

Lemma hex_encode_length (b : Buffer) :
  String.length (Hex.encode b) = 2 * List.length b.
Proof.
  induction b as [|x rest IH]; [reflexivity|].
  cbn [Hex.encode List.length]. unfold Hex.encode_byte.
  cbn [append String.length]. rewrite IH. lia.
Qed.

(** Induction over a buffer three bytes at a time. *)
Lemma triple_induction (P : Buffer -> Prop) :
  P [] -> (forall x, P [x]) -> (forall x y, P [x; y]) ->
  (forall x y z rest, P rest -> P (x :: y :: z :: rest)) ->
  forall b, P b.
Proof.
  intros P0 P1 P2 P3.
  assert (H : forall b, P b /\ (forall x, P (x :: b))
                        /\ (forall x y, P (x :: y :: b))).
  { induction b as [|z rest [Ha [Hb Hc]]].
    - repeat split; auto.
    - split; [apply Hb|]. split; [intros x; apply Hc|].
      intros x y. apply P3. exact Ha. }
  intros b. apply H.
Qed.

Lemma six_lt (a5 a4 a3 a2 a1 a0 : bool) : Base64.six a5 a4 a3 a2 a1 a0 < 64.
Proof.
  destruct a5, a4, a3, a2, a1, a0; cbv [Base64.six Base64.b2n]; lia.
Qed.

Lemma six_bits (a5 a4 a3 a2 a1 a0 : bool) :
  let v := Base64.six a5 a4 a3 a2 a1 a0 in
  Base64.bit v 5 = a5 /\ Base64.bit v 4 = a4 /\ Base64.bit v 3 = a3 /\
  Base64.bit v 2 = a2 /\ Base64.bit v 1 = a1 /\ Base64.bit v 0 = a0.
Proof.
  destruct a5, a4, a3, a2, a1, a0; repeat split; reflexivity.
Qed.

Lemma sextets_char (v : nat) (rest : string) :
  v < 64 ->
  Base64.sextets (String (Base64.char v) rest) = v :: Base64.sextets rest.
Proof.
  intros H.
  do 64 (destruct v as [|v]; [reflexivity|]).
  exfalso. lia.
Qed.

Lemma sextets_chars (vs : list nat) (rest : string) :
  Forall (fun v => v < 64) vs ->
  Base64.sextets (Base64.chars vs ++ rest) = (vs ++ Base64.sextets rest)%list.
Proof.
  unfold Base64.chars.
  induction vs as [|v vs' IH]; intros B; [reflexivity|].
  inversion B as [|? ? Bv Bvs]; subst.
  cbn [map string_of_list_ascii append].
  rewrite (sextets_char v _ Bv), (IH Bvs). reflexivity.
Qed.

Lemma sextets1_lt x : Forall (fun v => v < 64) (Base64.sextets1 x).
Proof.
  unfold Base64.sextets1.
  destruct (Byte.to_bits x) as [? [? [? [? [? [? [? ?]]]]]]].
  repeat (apply Forall_cons; [apply six_lt|]). apply Forall_nil.
Qed.

Lemma sextets2_lt x y : Forall (fun v => v < 64) (Base64.sextets2 x y).
Proof.
  unfold Base64.sextets2.
  destruct (Byte.to_bits x) as [? [? [? [? [? [? [? ?]]]]]]].
  destruct (Byte.to_bits y) as [? [? [? [? [? [? [? ?]]]]]]].
  repeat (apply Forall_cons; [apply six_lt|]). apply Forall_nil.
Qed.

Lemma sextets3_lt x y z : Forall (fun v => v < 64) (Base64.sextets3 x y z).
Proof.
  unfold Base64.sextets3.
  destruct (Byte.to_bits x) as [? [? [? [? [? [? [? ?]]]]]]].
  destruct (Byte.to_bits y) as [? [? [? [? [? [? [? ?]]]]]]].
  destruct (Byte.to_bits z) as [? [? [? [? [? [? [? ?]]]]]]].
  repeat (apply Forall_cons; [apply six_lt|]). apply Forall_nil.
Qed.

(** Rewrites every [bit (six ...) i] to the bit it names. *)
Ltac read_bits :=
  repeat match goal with
         | |- context [Base64.bit (Base64.six ?a5 ?a4 ?a3 ?a2 ?a1 ?a0) _] =>
             let H := fresh "H" in
             pose proof (six_bits a5 a4 a3 a2 a1 a0) as H; cbv zeta in H;
             destruct H as [?H [?H [?H [?H [?H ?H]]]]];
             repeat match goal with
                    | E : Base64.bit _ _ = _ |- _ => rewrite ?E; clear E
                    end
         end.

Lemma bytes_sextets1 x : Base64.bytes (Base64.sextets1 x) = [x].
Proof.
  unfold Base64.sextets1.
  generalize (Byte.of_bits_to_bits x);
    destruct (Byte.to_bits x) as [? [? [? [? [? [? [? ?]]]]]]]; intros <-.
  cbn [Base64.bytes]. unfold Base64.first_byte, Base64.octet.
  read_bits. reflexivity.
Qed.

Lemma bytes_sextets2 x y : Base64.bytes (Base64.sextets2 x y) = [x; y].
Proof.
  unfold Base64.sextets2.
  generalize (Byte.of_bits_to_bits x);
    destruct (Byte.to_bits x) as [? [? [? [? [? [? [? ?]]]]]]]; intros <-.
  generalize (Byte.of_bits_to_bits y);
    destruct (Byte.to_bits y) as [? [? [? [? [? [? [? ?]]]]]]]; intros <-.
  cbn [Base64.bytes].
  unfold Base64.first_byte, Base64.second_byte, Base64.octet.
  read_bits. reflexivity.
Qed.

Lemma bytes_sextets3 x y z (vs : list nat) :
  Base64.bytes (Base64.sextets3 x y z ++ vs)%list
  = x :: y :: z :: Base64.bytes vs.
Proof.
  unfold Base64.sextets3.
  generalize (Byte.of_bits_to_bits x);
    destruct (Byte.to_bits x) as [? [? [? [? [? [? [? ?]]]]]]]; intros <-.
  generalize (Byte.of_bits_to_bits y);
    destruct (Byte.to_bits y) as [? [? [? [? [? [? [? ?]]]]]]]; intros <-.
  generalize (Byte.of_bits_to_bits z);
    destruct (Byte.to_bits z) as [? [? [? [? [? [? [? ?]]]]]]]; intros <-.
  cbn [Base64.bytes app].
  unfold Base64.first_byte, Base64.second_byte, Base64.third_byte,
    Base64.octet.
  read_bits. reflexivity.
Qed.

(** [Buffer.from(buf.toString('base64'), 'base64')] is [buf]. *)
Lemma base64_decode_encode (b : Buffer) :
  Base64.decode (Base64.encode b) = b.
Proof.
  unfold Base64.decode.
  induction b as [|x|x y|x y z rest IH] using triple_induction.
  - reflexivity.
  - cbn [Base64.encode].
    rewrite (sextets_chars _ _ (sextets1_lt x)). cbn [Base64.sextets].
    change (Ascii.eqb "="%char "="%char) with true. cbv iota.
    rewrite app_nil_r. apply bytes_sextets1.
  - cbn [Base64.encode].
    rewrite (sextets_chars _ _ (sextets2_lt x y)). cbn [Base64.sextets].
    change (Ascii.eqb "="%char "="%char) with true. cbv iota.
    rewrite app_nil_r. apply bytes_sextets2.
  - cbn [Base64.encode].
    rewrite (sextets_chars _ _ (sextets3_lt x y z)).
    rewrite bytes_sextets3, IH. reflexivity.
Qed.

Lemma base64_encode_injective (a b : Buffer) :
  Base64.encode a = Base64.encode b -> a = b.
Proof.
  intros H. rewrite <- (base64_decode_encode a), H.
  apply base64_decode_encode.
Qed.

End CodecFacts.

(* ================================================================== *)
(** * Properties of EncryptionService *)
(* ================================================================== *)

Module EncryptionFacts.

Import Encryption EncryptionSpec.

(** ** Buffers *)

Lemma firstn_app_exact {A} (n : nat) (a b : list A) :
  List.length a = n -> firstn n (a ++ b) = a.
Proof.
  intros <-. rewrite firstn_app, Nat.sub_diag, firstn_all. cbn [firstn].
  apply app_nil_r.
Qed.

Lemma skipn_app_exact {A} (n k : nat) (a b : list A) :
  List.length a = n -> skipn (n + k) (a ++ b) = skipn k b.
Proof.
  intros <-. induction a as [|x a IH]; [reflexivity|]. exact IH.
Qed.

Lemma unpack (salt iv tag ciphertext : Buffer) :
  List.length salt = 16 -> List.length iv = 16 -> List.length tag = 16 ->
  let combined := (salt ++ iv ++ tag ++ ciphertext)%list in
  subarray combined 0 16 = salt /\
  subarray combined (16 + ivLength) (16 + ivLength + tagLength) = tag /\
  subarray_from combined (16 + ivLength + tagLength) = ciphertext.
Proof.
  intros Ls Li Lt combined. unfold subarray, subarray_from, combined.
  change (16 - 0) with 16.
  change (16 + ivLength + tagLength - (16 + ivLength)) with 16.
  change (16 + ivLength + tagLength) with (16 + (16 + (16 + 0))).
  change (16 + ivLength) with (16 + (16 + 0)).
  repeat split.
  - cbn [skipn]. now apply firstn_app_exact.
  - rewrite (skipn_app_exact 16 _ salt _ Ls), (skipn_app_exact 16 _ iv _ Li).
    cbn [skipn]. now apply firstn_app_exact.
  - rewrite (skipn_app_exact 16 _ salt _ Ls), (skipn_app_exact 16 _ iv _ Li),
      (skipn_app_exact 16 _ tag _ Lt). reflexivity.
Qed.

Lemma randomBytes_length (n : nat) (w : World) :
  exists bytes w',
    randomBytes n w = (Normal bytes, w') /\ List.length bytes = n.
Proof.
  eexists. eexists. split; [reflexivity|].
  now rewrite length_map, length_seq.
Qed.

(** The value of a run that returned normally. *)
Lemma returned_value {A} (a b : A) (w w' : World) :
  (Normal a, w) = (Normal b, w') -> b = a.
Proof. intros H. now injection H. Qed.

(** ** Tampering *)

Lemma flipByte_length (buf : Buffer) index mask :
  List.length (Tamper.flipByte buf index mask) = List.length buf.
Proof.
  revert index. induction buf as [|x rest IH]; intros [|i]; cbn;
    try reflexivity. now rewrite IH.
Qed.

Lemma flipByte_app_left (a b : Buffer) index mask :
  index < List.length a ->
  Tamper.flipByte (a ++ b)%list index mask
  = (Tamper.flipByte a index mask ++ b)%list.
Proof.
  revert index. induction a as [|x a IH]; intros index L; cbn in L; [lia|].
  destruct index as [|i]; cbn; [reflexivity|].
  rewrite IH by lia. reflexivity.
Qed.

Lemma flipByte_app_right (a b : Buffer) index mask :
  List.length a <= index ->
  Tamper.flipByte (a ++ b)%list index mask
  = (a ++ Tamper.flipByte b (index - List.length a) mask)%list.
Proof.
  revert index. induction a as [|x a IH]; intros index L; cbn in L.
  - cbn. now rewrite Nat.sub_0_r.
  - destruct index as [|i]; [lia|]. cbn. rewrite IH by lia. reflexivity.
Qed.

Lemma xorb_fixed (a b : bool) : xorb a b = a -> b = false.
Proof. destruct a, b; intros H; try reflexivity; discriminate H. Qed.

Lemma byte_xor_fixed (x mask : byte) :
  Tamper.byte_xor x mask = x -> mask = x00.
Proof.
  unfold Tamper.byte_xor.
  generalize (Byte.of_bits_to_bits x) (Byte.of_bits_to_bits mask).
  destruct (Byte.to_bits x) as [a0 [a1 [a2 [a3 [a4 [a5 [a6 a7]]]]]]].
  destruct (Byte.to_bits mask) as [b0 [b1 [b2 [b3 [b4 [b5 [b6 b7]]]]]]].
  intros Ex Em H. rewrite <- Ex in H.
  apply (f_equal Byte.to_bits) in H.
  rewrite !Byte.to_bits_of_bits in H.
  injection H as H0 H1 H2 H3 H4 H5 H6 H7.
  apply xorb_fixed in H0, H1, H2, H3, H4, H5, H6, H7. subst.
  reflexivity.
Qed.

Lemma flipByte_differs (buf : Buffer) index mask :
  mask <> x00 -> index < List.length buf ->
  Tamper.flipByte buf index mask <> buf.
Proof.
  intros M. revert index.
  induction buf as [|x rest IH]; intros index L; cbn in L; [lia|].
  destruct index as [|i]; cbn; intros E; injection E as E.
  - now apply byte_xor_fixed in E.
  - apply (IH i); [lia | exact E].
Qed.

Section Facts.

Variable crypto : Crypto.
Variable configService : ConfigService.
Variable masterKey : string.

Hypothesis configured : ENCRYPTION_MASTER_KEY configService = Some masterKey.
Hypothesis nonempty : masterKey <> "".

Local Abbreviation keyDerived := (EncryptionSpec.keyDerived crypto masterKey).
Local Abbreviation sealed := (EncryptionSpec.sealed crypto masterKey).
Local Abbreviation packed := (EncryptionSpec.packed crypto masterKey).

Lemma deriveKey_configured (salt : Buffer) :
  deriveKey crypto configService salt
  = Normal (pbkdf2Sync crypto masterKey salt 100000%N keyLength).
Proof.
  unfold deriveKey, require. rewrite configured. cbn [truthy].
  apply String.eqb_neq in nonempty. rewrite nonempty. reflexivity.
Qed.

Lemma saltDrawn_length (w : World) : List.length (saltDrawn w) = 16.
Proof. unfold saltDrawn. now rewrite length_map, length_seq. Qed.

Lemma ivDrawn_length (w : World) : List.length (ivDrawn w) = 16.
Proof. unfold ivDrawn. now rewrite length_map, length_seq. Qed.

(** What [encrypt] returns: the four parts, packed and base64-encoded. *)
Lemma encrypt_configured (plaintext : string) (orgId : option string)
  (w : World) :
  exists w',
    encrypt crypto configService plaintext orgId w
    = (Normal (Base64.encode
                 (packed (saltDrawn w) (ivDrawn w) plaintext orgId)), w').
Proof.
  unfold encrypt, try_catchM, bindM, liftC, retM.
  cbn [randomBytes cursor random now console].
  rewrite deriveKey_configured, CodecFacts.hex_decode_encode.
  eexists. reflexivity.
Qed.

(** What [decrypt] does with a well-formed blob: the initialisation
    vector stored in it plays no part. *)
Lemma decrypt_packed (salt iv tag ciphertext : Buffer)
  (orgId : option string) :
  List.length salt = 16 -> List.length iv = 16 -> List.length tag = 16 ->
  decrypt crypto configService
          (Base64.encode (salt ++ iv ++ tag ++ ciphertext)%list) orgId
  = match aes256gcm_decrypt crypto
            (pbkdf2Sync crypto masterKey salt 100000%N keyLength)
            (associatedData orgId) tag ciphertext with
    | Some decrypted => Normal (utf8_decode decrypted)
    | None =>
        Throw (Error
                 "Decryption failed: Unsupported state or unable to authenticate data")
    end.
Proof.
  intros Ls Li Lt. unfold decrypt.
  rewrite CodecFacts.base64_decode_encode. cbv zeta.
  destruct (unpack salt iv tag ciphertext Ls Li Lt) as [-> [-> ->]].
  rewrite deriveKey_configured. cbn [bind].
  unfold setAuthTag. rewrite Lt. cbn [bind Nat.eqb Nat.leb orb andb].
  destruct (aes256gcm_decrypt crypto _ _ tag ciphertext); reflexivity.
Qed.

Lemma decrypt_sealed (salt iv : Buffer) (plaintext : string)
  (sealer opener : option string) :
  tag_is_128_bits crypto ->
  List.length salt = 16 -> List.length iv = 16 ->
  decrypt crypto configService
          (Base64.encode (packed salt iv plaintext sealer)) opener
  = match aes256gcm_decrypt crypto
            (pbkdf2Sync crypto masterKey salt 100000%N keyLength)
            (associatedData opener)
            (snd (sealed salt plaintext sealer))
            (fst (sealed salt plaintext sealer)) with
    | Some decrypted => Normal (utf8_decode decrypted)
    | None =>
        Throw (Error
                 "Decryption failed: Unsupported state or unable to authenticate data")
    end.
Proof.
  intros T Ls Li. unfold EncryptionSpec.packed. apply decrypt_packed; try assumption.
  apply T.
Qed.

(** What [decrypt] returns for a blob that [encrypt] sealed, under any
    tenant tag with the same associated data: the plaintext as the text
    codec of the cipher carries it. *)
Lemma decrypt_encrypted (plaintext : string) (sealer opener : option string)
  (salt iv : Buffer) :
  opens_what_it_seals crypto -> tag_is_128_bits crypto ->
  List.length salt = 16 -> List.length iv = 16 ->
  associatedData opener = associatedData sealer ->
  decrypt crypto configService
          (Base64.encode (packed salt iv plaintext sealer)) opener
  = Normal (transcoded plaintext).
Proof.
  intros O T Ls Li A.
  rewrite (decrypt_sealed _ _ plaintext sealer opener T Ls Li).
  rewrite A. unfold EncryptionSpec.sealed. rewrite O. reflexivity.
Qed.

(** A text without unpaired surrogate comes back as it went in. *)
Lemma transcoded_well_formed (plaintext : string) :
  Utf8.isWellFormed plaintext = true -> transcoded plaintext = plaintext.
Proof.
  intros W. apply Utf8Facts.utf8_decode_encode.
  now apply Utf8Facts.isWellFormed_sound.
Qed.

(** Any other JavaScript string comes back with U+FFFD in the place of
    each unpaired surrogate. *)
Lemma transcoded_text (plaintext : string) :
  Utf8.codePoints true plaintext = true ->
  transcoded plaintext = Utf8.toWellFormed plaintext.
Proof.
  intros T. apply Utf8Facts.utf8_decode_encode_text.
  apply (Utf8Facts.codePoints_sound true (String.length plaintext));
    [lia | exact T].
Qed.

(** C1, for the plaintexts it holds of. With the master secret configured,
    [encrypt] returns a blob and [decrypt] of that blob under the same
    tenant tag returns the plaintext, for every plaintext without an
    unpaired surrogate and a cipher that opens what it seals and whose tag
    has 16 bytes. *)
Theorem encrypt_decrypt_roundtrip (plaintext : string)
  (orgId : option string) (w : World) :
  opens_what_it_seals crypto -> tag_is_128_bits crypto ->
  Utf8.isWellFormed plaintext = true ->
  exists blob w',
    encrypt crypto configService plaintext orgId w = (Normal blob, w') /\
    decrypt crypto configService blob orgId = Normal plaintext.
Proof.
  intros O T W.
  destruct (encrypt_configured plaintext orgId w) as [w' E].
  exists (Base64.encode (packed (saltDrawn w) (ivDrawn w) plaintext orgId)),
         w'.
  split; [exact E|].
  rewrite (decrypt_encrypted plaintext orgId orgId _ _ O T
             (saltDrawn_length w) (ivDrawn_length w) eq_refl).
  now rewrite transcoded_well_formed.
Qed.

(** Whatever the plaintext, [decrypt] returns the text that the codec of
    the cipher makes of it. *)
Lemma encrypt_decrypt_transcodes (plaintext : string)
  (orgId : option string) (w : World) :
  opens_what_it_seals crypto -> tag_is_128_bits crypto ->
  exists blob w',
    encrypt crypto configService plaintext orgId w = (Normal blob, w') /\
    decrypt crypto configService blob orgId = Normal (transcoded plaintext).
Proof.
  intros O T.
  destruct (encrypt_configured plaintext orgId w) as [w' E].
  eexists. exists w'. split; [exact E|].
  exact (decrypt_encrypted plaintext orgId orgId _ _ O T
           (saltDrawn_length w) (ivDrawn_length w) eq_refl).
Qed.

(** C2, at the bytes where the code departs from it. Flipping any bits of
    a byte in the initialisation-vector field (offsets 16 to 31) of a blob
    that [encrypt] produced gives a different blob, which [decrypt]
    accepts under the same tenant tag, returning what the untouched blob
    decrypts to: the plaintext, whenever it has no unpaired surrogate. *)
Theorem iv_flip_goes_undetected (plaintext : string)
  (orgId : option string) (w w' : World) (blob : string)
  (index : nat) (mask : byte) :
  opens_what_it_seals crypto -> tag_is_128_bits crypto ->
  encrypt crypto configService plaintext orgId w = (Normal blob, w') ->
  16 <= index < 32 -> mask <> x00 ->
  Tamper.flipBlob blob index mask <> blob /\
  decrypt crypto configService (Tamper.flipBlob blob index mask) orgId
  = Normal (transcoded plaintext) /\
  (Utf8.isWellFormed plaintext = true ->
   decrypt crypto configService (Tamper.flipBlob blob index mask) orgId
   = Normal plaintext).
Proof.
  intros O T E I M.
  destruct (encrypt_configured plaintext orgId w) as [w1 E1].
  rewrite E1 in E. apply returned_value in E. subst blob.
  pose proof (saltDrawn_length w) as Ls.
  pose proof (ivDrawn_length w) as Li.
  unfold Tamper.flipBlob. rewrite CodecFacts.base64_decode_encode.
  assert (D : decrypt crypto configService
                (Base64.encode
                   (Tamper.flipByte
                      (packed (saltDrawn w) (ivDrawn w) plaintext orgId)
                      index mask)) orgId
              = Normal (transcoded plaintext)).
  { unfold EncryptionSpec.packed.
    rewrite flipByte_app_right by lia.
    rewrite flipByte_app_left by lia.
    rewrite decrypt_packed; try assumption.
    - fold (sealed (saltDrawn w) plaintext orgId).
      unfold EncryptionSpec.sealed. rewrite O. reflexivity.
    - now rewrite flipByte_length.
    - apply T. }
  split; [|split].
  - intros H. apply CodecFacts.base64_encode_injective in H.
    revert H. apply flipByte_differs; [exact M|].
    unfold EncryptionSpec.packed. rewrite !length_app, Ls, Li. lia.
  - exact D.
  - intros W. rewrite D. now rewrite transcoded_well_formed.
Qed.

(** The associated data of two tenant tags differ when the tags are
    different texts, neither empty nor with an unpaired surrogate. *)
Lemma associatedData_tells_apart (a b : string) :
  Utf8.isWellFormed a = true -> Utf8.isWellFormed b = true ->
  a <> "" -> b <> "" -> a <> b ->
  associatedData (Some a) = list_byte_of_string a /\
  associatedData (Some b) = list_byte_of_string b /\
  list_byte_of_string b <> list_byte_of_string a.
Proof.
  intros Wa Wb Na Nb D.
  assert (A : forall t, Utf8.isWellFormed t = true -> t <> "" ->
                        associatedData (Some t) = list_byte_of_string t).
  { intros t Wt Nt. unfold associatedData, or_default, or_else.
    cbn [truthy]. apply String.eqb_neq in Nt. rewrite Nt. cbn [negb].
    unfold utf8_encode.
    rewrite Utf8Facts.toWellFormed_well_formed; [reflexivity|].
    now apply Utf8Facts.isWellFormed_sound. }
  split; [now apply A|]. split; [now apply A|].
  intros E. apply D.
  rewrite <- (string_of_list_byte_of_string a),
          <- (string_of_list_byte_of_string b).
  now rewrite E.
Qed.

(** What [decrypt] answers under another tenant tag: the key derived from
    the embedded salt is the one the blob was sealed with, the associated
    data is not. *)
Lemma other_tenant_rejected (plaintext a b : string) (w w' : World)
  (blob : string) :
  tag_is_128_bits crypto ->
  Utf8.isWellFormed a = true -> Utf8.isWellFormed b = true ->
  a <> "" -> b <> "" -> a <> b ->
  authenticates crypto (keyDerived w) (list_byte_of_string a)
                (list_byte_of_string b) (utf8_encode plaintext) ->
  encrypt crypto configService plaintext (Some a) w = (Normal blob, w') ->
  decrypt crypto configService blob (Some b)
  = Throw (Error
             "Decryption failed: Unsupported state or unable to authenticate data").
Proof.
  intros T Wa Wb Na Nb D R E.
  destruct (associatedData_tells_apart a b Wa Wb Na Nb D) as [Aa [Ab N]].
  destruct (encrypt_configured plaintext (Some a) w) as [w1 E1].
  rewrite E1 in E. apply returned_value in E. subst blob.
  rewrite (decrypt_sealed _ _ plaintext (Some a) (Some b) T
             (saltDrawn_length w) (ivDrawn_length w)).
  unfold EncryptionSpec.sealed. rewrite Aa, Ab.
  unfold authenticates, EncryptionSpec.keyDerived in R.
  rewrite (R N). reflexivity.
Qed.

(** C3. A blob sealed for tenant [org-A] does not decrypt for tenant
    [org-B]. The key derived from the embedded salt is the same; the
    associated data handed to the cipher are the bytes of [org-A] when
    sealing and the bytes of [org-B] when opening, and, the cipher
    rejecting the tag under that other associated data, [decrypt] fails
    with its decryption-failure error. *)
Theorem cross_tenant_decrypt_fails (plaintext : string) (w w' : World)
  (blob : string) :
  tag_is_128_bits crypto ->
  authenticates crypto (keyDerived w) (list_byte_of_string "org-A")
                (list_byte_of_string "org-B") (utf8_encode plaintext) ->
  encrypt crypto configService plaintext (Some "org-A") w
  = (Normal blob, w') ->
  decrypt crypto configService blob (Some "org-B")
  = Throw (Error
             "Decryption failed: Unsupported state or unable to authenticate data").
Proof.
  intros T R E.
  apply (other_tenant_rejected plaintext "org-A" "org-B" w w' blob T);
    try reflexivity; try discriminate; assumption.
Qed.

End Facts.

(** ** Signing *)

Lemma Buffer_eqb_eq (a b : Buffer) : Buffer_eqb a b = true <-> a = b.
Proof.
  revert b. induction a as [|x a IH]; intros [|y b]; cbn;
    try (split; [discriminate | discriminate]); [tauto|].
  rewrite andb_true_iff, IH. split.
  - intros [E ->]. apply Byte.byte_dec_bl in E. now subst.
  - intros E. injection E as -> ->. split; [|reflexivity].
    now apply Byte.byte_dec_lb.
Qed.

Lemma Buffer_eqb_neq (a b : Buffer) : a <> b -> Buffer_eqb a b = false.
Proof.
  intros N. destruct (Buffer_eqb a b) eqn:E; [|reflexivity].
  apply Buffer_eqb_eq in E. contradiction.
Qed.

Section Hmac.

Variable crypto : Crypto.
Variable configService : ConfigService.
Variable hmacSecret : string.

Hypothesis configured : HMAC_SECRET configService = Some hmacSecret.
Hypothesis nonempty : hmacSecret <> "".

Lemma createHMAC_configured (data : string) :
  createHMAC crypto configService data None
  = Normal (Hex.encode (hmac_sha256 crypto hmacSecret data)).
Proof.
  unfold createHMAC, or_else, require. cbn [truthy]. rewrite configured.
  cbn [truthy]. apply String.eqb_neq in nonempty. rewrite nonempty.
  reflexivity.
Qed.

(** [verifyHMAC] is [timingSafeEqual] on the decoded signature and the
    recomputed MAC. *)
Lemma verifyHMAC_configured (data signature : string) :
  verifyHMAC crypto configService data signature None
  = timingSafeEqual (Hex.decode signature)
                    (hmac_sha256 crypto hmacSecret data).
Proof.
  unfold verifyHMAC. rewrite createHMAC_configured. cbn [bind].
  rewrite CodecFacts.hex_decode_encode. reflexivity.
Qed.

(** For a signature of the right length the answer is the comparison of
    the decoded bytes. *)
Lemma verifyHMAC_same_length (data signature : string) :
  mac_is_256_bits crypto ->
  List.length (Hex.decode signature) = 32 ->
  verifyHMAC crypto configService data signature None
  = Normal (Buffer_eqb (Hex.decode signature)
                       (hmac_sha256 crypto hmacSecret data)).
Proof.
  intros L S. rewrite verifyHMAC_configured. unfold timingSafeEqual.
  rewrite S, L. reflexivity.
Qed.

Lemma verifyHMAC_own_signature (data signature : string) :
  createHMAC crypto configService data None = Normal signature ->
  verifyHMAC crypto configService data signature None = Normal true.
Proof.
  rewrite createHMAC_configured. intros E. injection E as <-.
  rewrite verifyHMAC_configured, CodecFacts.hex_decode_encode.
  unfold timingSafeEqual. rewrite Nat.eqb_refl.
  f_equal. now apply Buffer_eqb_eq.
Qed.

(** C9, where the code departs from it. A signature that does not decode
    to 32 bytes makes [verifyHMAC] throw the RangeError of
    [timingSafeEqual]; it does not return [false]. *)
Theorem verifyHMAC_throws_on_length_mismatch (data signature : string) :
  mac_is_256_bits crypto ->
  List.length (Hex.decode signature) <> 32 ->
  verifyHMAC crypto configService data signature None
  = Throw (RangeError "Input buffers must have the same byte length").
Proof.
  intros L S. rewrite verifyHMAC_configured. unfold timingSafeEqual.
  rewrite L. apply Nat.eqb_neq in S. rewrite S. reflexivity.
Qed.

End Hmac.

(** ** The reference provider meets the assumptions *)

Lemma pad_length (n : nat) (b : Buffer) : List.length (Reference.pad n b) = n.
Proof.
  unfold Reference.pad.
  rewrite length_firstn, length_app, repeat_length. lia.
Qed.

Lemma Buffer_eqb_refl (a : Buffer) : Buffer_eqb a a = true.
Proof. now apply Buffer_eqb_eq. Qed.

Lemma reference_opens_what_it_seals : opens_what_it_seals Reference.crypto.
Proof.
  intros key aad plaintext.
  change (Reference.open key aad (Reference.tag_of key aad (rev plaintext))
                         (rev plaintext) = Some plaintext).
  unfold Reference.open.
  rewrite Buffer_eqb_refl, rev_involutive. reflexivity.
Qed.

Lemma reference_tag_is_128_bits : tag_is_128_bits Reference.crypto.
Proof. intros key aad plaintext. exact (pad_length 16 _). Qed.

Lemma reference_mac_is_256_bits : mac_is_256_bits Reference.crypto.
Proof. intros secret data. exact (pad_length 32 _). Qed.

Lemma reference_authenticates (key plaintext : Buffer) :
  authenticates Reference.crypto key (list_byte_of_string "org-A")
                (list_byte_of_string "org-B") plaintext.
Proof. intros _. reflexivity. Qed.

Lemma encrypt_decrypt_roundtrip_witness :
  exists blob w',
    encrypt Reference.crypto Reference.config "secret" (Some "org-A")
            Reference.world = (Normal blob, w') /\
    decrypt Reference.crypto Reference.config blob (Some "org-A")
    = Normal "secret".
Proof.
  apply (encrypt_decrypt_roundtrip Reference.crypto Reference.config
           "master-secret").
  - reflexivity.
  - discriminate.
  - exact reference_opens_what_it_seals.
  - exact reference_tag_is_128_bits.
  - reflexivity.
Defined.

(** C1 as stated fails on a plaintext that is one unpaired surrogate,
    U+D800: the blob that [encrypt] returns for it decrypts, under the
    same tenant tag, to U+FFFD. *)
Lemma unpaired_surrogate_is_not_recovered :
  exists blob w',
    encrypt Reference.crypto Reference.config Utf8Spec.loneSurrogate
            (Some "org-A") Reference.world = (Normal blob, w') /\
    decrypt Reference.crypto Reference.config blob (Some "org-A")
    = Normal Utf8.replacement /\
    Utf8.replacement <> Utf8Spec.loneSurrogate.
Proof.
  eexists. eexists. split; [reflexivity|]. split.
  - vm_compute. reflexivity.
  - discriminate.
Qed.

Lemma sampleBlob_encrypted :
  fst (encrypt Reference.crypto Reference.config "secret" (Some "org-A")
               Reference.world) = Normal sampleBlob.
Proof. vm_compute. reflexivity. Qed.

Lemma iv_flip_goes_undetected_witness :
  Tamper.flipBlob sampleBlob 16 x01 <> sampleBlob /\
  decrypt Reference.crypto Reference.config
          (Tamper.flipBlob sampleBlob 16 x01) (Some "org-A")
  = Normal "secret".
Proof.
  destruct (iv_flip_goes_undetected Reference.crypto Reference.config
              "master-secret" eq_refl ltac:(discriminate) "secret"
              (Some "org-A") Reference.world
              (snd (encrypt Reference.crypto Reference.config "secret"
                            (Some "org-A") Reference.world))
              sampleBlob 16 x01) as [D [_ R]].
  - exact reference_opens_what_it_seals.
  - exact reference_tag_is_128_bits.
  - vm_compute. reflexivity.
  - lia.
  - discriminate.
  - split; [exact D | exact (R eq_refl)].
Defined.

Lemma cross_tenant_decrypt_fails_witness :
  decrypt Reference.crypto Reference.config sampleBlob (Some "org-B")
  = Throw (Error
             "Decryption failed: Unsupported state or unable to authenticate data").
Proof.
  apply (cross_tenant_decrypt_fails Reference.crypto Reference.config
           "master-secret" eq_refl ltac:(discriminate) "secret"
           Reference.world
           (snd (encrypt Reference.crypto Reference.config "secret"
                         (Some "org-A") Reference.world))).
  - exact reference_tag_is_128_bits.
  - apply reference_authenticates.
  - vm_compute. reflexivity.
Defined.

Lemma verifyHMAC_throws_on_length_mismatch_witness :
  verifyHMAC Reference.crypto Reference.config "data" "abcd" None
  = Throw (RangeError "Input buffers must have the same byte length").
Proof.
  apply (verifyHMAC_throws_on_length_mismatch Reference.crypto
           Reference.config "hmac-secret" eq_refl ltac:(discriminate)).
  - exact reference_mac_is_256_bits.
  - vm_compute. discriminate.
Defined.

(** The comparison is on decoded bytes: an upper-case rendering of the
    expected signature is accepted although it is another string. *)
Example verifyHMAC_accepts_other_spelling :
  createHMAC Reference.crypto Reference.config "data" None
  = Normal "64617461686d61632d7365637265740000000000000000000000000000000000"
  /\
  verifyHMAC Reference.crypto Reference.config "data"
    "64617461686D61632D7365637265740000000000000000000000000000000000" None
  = Normal true.
Proof. split; vm_compute; reflexivity. Qed.

End EncryptionFacts.

(* ================================================================== *)
(** * Properties of JSON.stringify *)
(* ================================================================== *)

Module JsonFacts.

Import Utf8 Utf8Spec.

(** Induction on a payload, through its arrays and objects. *)
Lemma JsValue_nested_ind (P : JsValue -> Prop) :
  P JUndefined -> P JNull -> (forall b, P (JBool b)) ->
  (forall n, P (JNumber n)) -> (forall s, P (JString s)) ->
  (forall items, Forall P items -> P (JArray items)) ->
  (forall props, Forall (fun kv => P (snd kv)) props -> P (JObject props)) ->
  forall v, P v.
Proof.
  intros U N B Z S A O. fix IH 1. intros [ | | b | n | s | items | props].
  - exact U.
  - exact N.
  - apply B.
  - apply Z.
  - apply S.
  - apply A. induction items as [|x rest IHr]; constructor;
      [apply IH | exact IHr].
  - apply O. induction props as [|[k x] rest IHr]; constructor;
      [apply IH | exact IHr].
Qed.

Lemma append_assoc (a b c : string) : (a ++ b) ++ c = a ++ (b ++ c).
Proof.
  induction a as [|x a IH]; [reflexivity|]. cbn [append]. now rewrite IH.
Qed.

Lemma hex_value_digit (d : nat) :
  d < 16 -> Hex.value (Hex.digit d) = Some d.
Proof.
  intros L. do 16 (destruct d as [|d]; [reflexivity|]). lia.
Qed.

(** How [escape] moves on: over an unpaired surrogate, or over one
    character. *)
Lemma escape_unpaired a b c rest :
  surrogate a b c = true ->
  Json.escape (String a (String b (String c rest)))
  = Json.escape_surrogate b c ++ Json.escape rest.
Proof. intros H. cbn [Json.escape]. now rewrite H. Qed.

Lemma escape_cases a tail :
  Json.escape (String a tail) = Json.escape_char a ++ Json.escape tail \/
  exists b c rest,
    tail = String b (String c rest) /\ surrogate a b c = true /\
    Json.escape (String a tail)
    = Json.escape_surrogate b c ++ Json.escape rest.
Proof.
  destruct tail as [|b [|c rest]]; try (left; reflexivity).
  destruct (surrogate a b c) eqn:S.
  - right. exists b, c, rest. repeat split; try assumption.
    now apply escape_unpaired.
  - left. cbn [Json.escape]. now rewrite S.
Qed.

Lemma escape_keeps a tail :
  nat_of_ascii a <> 237 ->
  Json.escape (String a tail) = Json.escape_char a ++ Json.escape tail.
Proof.
  intros N. destruct tail as [|b [|c rest]]; try reflexivity.
  cbn [Json.escape]. unfold surrogate. Utf8Facts.settle. reflexivity.
Qed.

Lemma escape_keeps_low a b tail :
  nat_of_ascii b < 160 ->
  Json.escape (String a (String b tail))
  = Json.escape_char a ++ Json.escape (String b tail).
Proof.
  intros N. destruct tail as [|c rest]; try reflexivity.
  cbn [Json.escape]. unfold surrogate. Utf8Facts.settle.
  rewrite andb_false_r. reflexivity.
Qed.

Lemma read_escape_char (a : ascii) (text body after : string) :
  Json.read_literal text = Some (body, after) ->
  Json.read_literal (Json.escape_char a ++ text) = Some (String a body, after).
Proof.
  intros H.
  destruct a as [[] [] [] [] [] [] [] []];
    match goal with
    | |- context [Json.escape_char ?c] =>
        let r := eval vm_compute in (Json.escape_char c) in
        change (Json.escape_char c) with r
    end;
    cbn [append]; simpl; rewrite H; reflexivity.
Qed.

Lemma read_unicode (d1 d2 h l : ascii) (text : string) :
  Json.read_literal
    (String Json.backslash
       (String "u" (String d1 (String d2 (String h (String l text))))))
  = match Hex.value d2, Hex.value h, Hex.value l with
    | Some v2, Some hv, Some lv =>
        match Json.read_literal text with
        | Some (body, after) =>
            Some (Json.unescape_unicode d1 v2 hv lv body, after)
        | None => None
        end
    | _, _, _ => None
    end.
Proof. reflexivity. Qed.

Lemma read_escape_surrogate (b c : ascii) (text body after : string) :
  within 160 191 b = true -> continuation c = true ->
  Json.read_literal text = Some (body, after) ->
  Json.read_literal (Json.escape_surrogate b c ++ text)
  = Some (String "237" (String b (String c body)), after).
Proof.
  intros B C H. Utf8Facts.ranges.
  unfold Json.escape_surrogate.
  set (v := 64 * (nat_of_ascii b - 128) + (nat_of_ascii c - 128)).
  assert (V : v < 4096) by (unfold v; lia).
  cbn [append]. rewrite read_unicode.
  assert (D1 : v / 256 < 16) by (apply Nat.Div0.div_lt_upper_bound; lia).
  assert (D2 : v / 16 mod 16 < 16) by (apply Nat.mod_upper_bound; lia).
  assert (D3 : v mod 16 < 16) by (apply Nat.mod_upper_bound; lia).
  rewrite !hex_value_digit by assumption. rewrite H.
  unfold Json.unescape_unicode. cbn [Ascii.eqb Bool.eqb].
  assert (E : 256 * (v / 256) + 16 * (v / 16 mod 16) + v mod 16 = v).
  { pose proof (Nat.div_mod_eq v 16) as P1.
    pose proof (Nat.div_mod_eq (v / 16) 16) as P2.
    rewrite Nat.Div0.div_div in P2. change (16 * 16) with 256 in P2. lia. }
  rewrite E.
  assert (Q : v / 64 = nat_of_ascii b - 128).
  { unfold v. symmetry. apply (Nat.div_unique _ 64 _ (nat_of_ascii c - 128)); lia. }
  assert (R : v mod 64 = nat_of_ascii c - 128).
  { unfold v. symmetry. apply (Nat.mod_unique _ 64 (nat_of_ascii b - 128)); lia. }
  rewrite Q, R.
  replace (128 + (nat_of_ascii b - 128)) with (nat_of_ascii b) by lia.
  replace (128 + (nat_of_ascii c - 128)) with (nat_of_ascii c) by lia.
  rewrite !ascii_nat_embedding. reflexivity.
Qed.

Lemma code_237 (a : ascii) : within 237 237 a = true -> a = "237"%char.
Proof.
  intros H. apply Utf8Facts.within_spec in H.
  rewrite <- (ascii_nat_embedding a).
  replace (nat_of_ascii a) with 237 by lia. reflexivity.
Qed.

(** A string literal can be read back: the escaped body followed by the
    closing quote denotes the string it was made from. *)
Lemma read_literal_escape (s rest : string) :
  Json.read_literal (Json.escape s ++ String Json.dquote rest)
  = Some (s, rest).
Proof.
  remember (String.length s) as n eqn:L.
  assert (B : String.length s <= n) by lia. clear L.
  revert s B. induction n as [|n IH]; intros s B.
  - destruct s; [reflexivity | cbn in B; lia].
  - destruct s as [|a tail]; [reflexivity|]. cbn [String.length] in B.
    destruct (escape_cases a tail) as [E|[b [c [rest' [-> [S E]]]]]];
      rewrite E, append_assoc.
    + apply read_escape_char. apply IH. lia.
    + cbn [String.length] in B. unfold surrogate in S.
      apply andb_true_iff in S as [A S]. apply andb_true_iff in S as [Sb Sc].
      rewrite (code_237 a A).
      apply read_escape_surrogate; try assumption. apply IH. lia.
Qed.

Lemma escape_framed_injective (a b r r' : string) :
  Json.escape a ++ String Json.dquote r
  = Json.escape b ++ String Json.dquote r' ->
  a = b /\ r = r'.
Proof.
  intros H. apply (f_equal Json.read_literal) in H.
  rewrite !read_literal_escape in H. injection H as -> ->. now split.
Qed.

Lemma String_tail (c c' : ascii) (a b : string) :
  String c a = String c' b -> a = b.
Proof. intros H. now injection H. Qed.

Lemma member_injective (k v r k' v' r' : string) :
  JsonSpec.member k v r = JsonSpec.member k' v' r' -> k = k' /\ v = v' /\ r = r'.
Proof.
  unfold JsonSpec.member. intros H. apply String_tail in H.
  apply escape_framed_injective in H as [-> H].
  apply String_tail, String_tail in H.
  apply escape_framed_injective in H as [-> ->]. repeat split.
Qed.

(** [JSON.stringify] is defined on every value that has own keys. *)
Lemma stringify_with_keys (v : JsValue) :
  0 < Json.ownKeys v -> exists text, Json.stringify v = Some text.
Proof.
  destruct v; cbn [Json.ownKeys Json.stringify]; intros H;
    try (exfalso; lia); eexists; reflexivity.
Qed.

(** ** The text that [JSON.stringify] returns is well formed *)

Lemma well_formed_app (a b : string) :
  WellFormed a -> WellFormed b -> WellFormed (a ++ b).
Proof.
  intros A B. induction A; cbn [append]; try (now constructor).
  exact B.
Qed.

Lemma hex_digit_ascii (d : nat) : within 0 127 (Hex.digit d) = true.
Proof. do 17 (destruct d as [|d]; [reflexivity|]). reflexivity. Qed.

Lemma escape_char_well_formed (a : ascii) (t : string) :
  within 0 127 a = true -> WellFormed t ->
  WellFormed (Json.escape_char a ++ t).
Proof.
  intros A T.
  destruct a as [[] [] [] [] [] [] [] []]; try discriminate A;
    match goal with
    | |- context [Json.escape_char ?c] =>
        let r := eval vm_compute in (Json.escape_char c) in
        change (Json.escape_char c) with r
    end;
    cbn [append]; repeat (apply one_byte; [reflexivity|]); exact T.
Qed.

Lemma escape_char_plain (a : ascii) :
  128 <= nat_of_ascii a -> Json.escape_char a = String a EmptyString.
Proof.
  intros H. unfold Json.escape_char.
  repeat match goal with
  | |- context [Nat.eqb ?x ?y] => rewrite (proj2 (Nat.eqb_neq x y)) by lia
  end.
  rewrite (proj2 (Nat.ltb_ge _ _)) by lia. reflexivity.
Qed.

Lemma escape_surrogate_well_formed (b c : ascii) (t : string) :
  WellFormed t -> WellFormed (Json.escape_surrogate b c ++ t).
Proof.
  intros T. unfold Json.escape_surrogate. cbn [append].
  do 3 (apply one_byte; [reflexivity|]).
  do 3 (apply one_byte; [apply hex_digit_ascii|]). exact T.
Qed.

(** Steps of [escape] over a character that is written as it is. *)
Ltac plain :=
  first [ rewrite escape_keeps by lia
        | rewrite escape_keeps_low by lia ];
  rewrite escape_char_plain by lia; cbn [append].

Lemma escape_two_bytes a b rest :
  scalar2 a b = true ->
  Json.escape (String a (String b rest))
  = String a (String b (Json.escape rest)).
Proof. intros A. Utf8Facts.ranges. do 2 plain. reflexivity. Qed.

Lemma escape_three_bytes a b c rest :
  scalar3 a b c = true ->
  Json.escape (String a (String b (String c rest)))
  = String a (String b (String c (Json.escape rest))).
Proof. intros A. Utf8Facts.ranges; do 3 plain; reflexivity. Qed.

Lemma escape_four_bytes a b c d rest :
  scalar4 a b c d = true ->
  Json.escape (String a (String b (String c (String d rest))))
  = String a (String b (String c (String d (Json.escape rest)))).
Proof. intros A. Utf8Facts.ranges; do 4 plain; reflexivity. Qed.

Lemma escape_well_formed (s : string) : Text s -> WellFormed (Json.escape s).
Proof.
  induction 1 as [|a rest A _ IH|a b rest A _ IH
                 |a b c rest A _ IH|a b c d rest A _ IH
                 |a b c rest _ S _ IH].
  - constructor.
  - rewrite escape_keeps by (Utf8Facts.ranges; lia).
    now apply escape_char_well_formed.
  - rewrite escape_two_bytes by exact A. now apply two_bytes.
  - rewrite escape_three_bytes by exact A. now apply three_bytes.
  - rewrite escape_four_bytes by exact A. now apply four_bytes.
  - rewrite escape_unpaired by exact S.
    now apply escape_surrogate_well_formed.
Qed.

Lemma quote_well_formed (s : string) : Text s -> WellFormed (Json.quote s).
Proof.
  intros T. unfold Json.quote. apply one_byte; [reflexivity|].
  apply well_formed_app; [now apply escape_well_formed|].
  apply one_byte; [reflexivity | constructor].
Qed.

Lemma uint_well_formed (u : Decimal.uint) :
  WellFormed (NilZero.string_of_uint u).
Proof.
  assert (D : forall d, WellFormed (NilEmpty.string_of_uint d)).
  { induction d; cbn [NilEmpty.string_of_uint];
      try (apply one_byte; [reflexivity | assumption]).
    constructor. }
  destruct u; try apply D.
  apply one_byte; [reflexivity | constructor].
Qed.

Lemma number_well_formed (n : Z) : WellFormed (Json.number n).
Proof.
  unfold Json.number, NilZero.string_of_int.
  destruct (Z.to_int n) as [u|u].
  - apply uint_well_formed.
  - apply one_byte; [reflexivity | apply uint_well_formed].
Qed.

Lemma join_well_formed (xs : list string) (sep : string) :
  Forall WellFormed xs -> WellFormed sep -> WellFormed (join xs sep).
Proof.
  intros F S. induction F as [|x rest X F IH]; [constructor|].
  destruct rest as [|y rest]; [exact X|].
  change (join (x :: y :: rest) sep) with (x ++ sep ++ join (y :: rest) sep).
  apply well_formed_app; [exact X|]. now apply well_formed_app.
Qed.

(** On a value whose strings are JavaScript strings, [JSON.stringify]
    returns well-formed text: an unpaired surrogate leaves it escaped. *)
Lemma stringify_well_formed (v : JsValue) (text : string) :
  JsonSpec.representable v = true -> Json.stringify v = Some text ->
  WellFormed text.
Proof.
  revert text. induction v as [ | | b | n | s | items IH | props IH ]
    using JsValue_nested_ind; intros text R E;
    cbn [Json.stringify] in E; try discriminate E;
    injection E as <-.
  - apply Utf8Facts.isWellFormed_sound. reflexivity.
  - destruct b; apply Utf8Facts.isWellFormed_sound; reflexivity.
  - apply number_well_formed.
  - apply quote_well_formed.
    apply (Utf8Facts.codePoints_sound true (String.length s)); [lia | exact R].
  - cbn [JsonSpec.representable] in R.
    apply one_byte; [reflexivity|]. apply well_formed_app.
    + apply join_well_formed;
        [|apply Utf8Facts.isWellFormed_sound; reflexivity].
      induction IH as [|x rest X _ IHrest]; [constructor|].
      cbn [forallb] in R. apply andb_true_iff in R as [Rx Rrest].
      cbn [map]. constructor; [|now apply IHrest].
      destruct (Json.stringify x) as [t|] eqn:Sx.
      * now apply X.
      * apply Utf8Facts.isWellFormed_sound. reflexivity.
    + apply Utf8Facts.isWellFormed_sound. reflexivity.
  - cbn [JsonSpec.representable] in R.
    apply one_byte; [reflexivity|]. apply well_formed_app.
    + apply join_well_formed;
        [|apply Utf8Facts.isWellFormed_sound; reflexivity].
      induction IH as [|[k x] rest X _ IHrest]; [constructor|].
      cbn [forallb fst snd] in R. apply andb_true_iff in R as [Rx Rrest].
      apply andb_true_iff in Rx as [Rk Rx].
      cbn [flat_map fst snd]. cbn [snd] in X.
      destruct (Json.stringify x) as [t|] eqn:Sx; cbn [app].
      * constructor; [|now apply IHrest].
        change (WellFormed (Json.quote k ++ ":" ++ t)).
        apply well_formed_app.
        -- apply quote_well_formed.
           apply (Utf8Facts.codePoints_sound true (String.length k));
             [lia | exact Rk].
        -- apply one_byte; [reflexivity|]. now apply X.
      * now apply IHrest.
    + apply Utf8Facts.isWellFormed_sound. reflexivity.
Qed.

End JsonFacts.

(* ================================================================== *)
(** * Properties of AuditLogService *)
(* ================================================================== *)

Module AuditLogFacts.

Import Encryption AuditLog AuditLogSpec.

Section Facts.

Variable crypto : Crypto.
Variable configService : ConfigService.
Variable isoFormat : Z -> string.

Local Abbreviation signedText := (AuditLogSpec.signedText isoFormat).
Local Abbreviation no_collision :=
  (AuditLogSpec.no_collision crypto configService isoFormat).

Lemma canonical_shape (e : AuditLogEntry) (iso : string) :
  canonical e iso
  = String "{"
      (JsonSpec.member "userId" (userId e)
      (String ","
      (JsonSpec.member "orgId" (orgId e)
      (String ","
      (JsonSpec.member "action" (action e)
      (String ","
      (JsonSpec.member "resourceType" (resourceType e)
      (String ","
      (JsonSpec.member "resourceId" (resourceId e)
      (String ","
      (JsonSpec.member "timestamp" iso "}"))))))))))).
Proof.
  unfold canonical, signedFields, JsonSpec.member.
  cbn [Json.stringify flat_map snd fst app join]. unfold Json.quote.
  repeat (rewrite JsonFacts.append_assoc || cbn [append]).
  reflexivity.
Qed.

(** The canonical text determines every signed field. *)
Lemma canonical_injective (e e' : AuditLogEntry) (iso iso' : string) :
  canonical e iso = canonical e' iso' ->
  userId e = userId e' /\ orgId e = orgId e' /\ action e = action e' /\
  resourceType e = resourceType e' /\ resourceId e = resourceId e' /\
  iso = iso'.
Proof.
  rewrite !canonical_shape. intros H. apply JsonFacts.String_tail in H.
  apply JsonFacts.member_injective in H as [_ [H1 H]].
  apply JsonFacts.String_tail in H.
  apply JsonFacts.member_injective in H as [_ [H2 H]].
  apply JsonFacts.String_tail in H.
  apply JsonFacts.member_injective in H as [_ [H3 H]].
  apply JsonFacts.String_tail in H.
  apply JsonFacts.member_injective in H as [_ [H4 H]].
  apply JsonFacts.String_tail in H.
  apply JsonFacts.member_injective in H as [_ [H5 H]].
  apply JsonFacts.String_tail in H.
  apply JsonFacts.member_injective in H as [_ [H6 _]].
  repeat split; assumption.
Qed.

Lemma createHMAC_inversion (data signature : string) :
  createHMAC crypto configService data None = Normal signature ->
  exists secret,
    HMAC_SECRET configService = Some secret /\ secret <> "" /\
    signature = Hex.encode (hmac_sha256 crypto secret data).
Proof.
  unfold createHMAC, or_else, require. cbn [truthy].
  destruct (HMAC_SECRET configService) as [secret|]; [|discriminate].
  cbn [truthy]. destruct (String.eqb secret "") eqn:E; [discriminate|].
  cbn. intros H. injection H as <-. exists secret.
  repeat split. now apply String.eqb_neq.
Qed.

(** What [logAction] hands to the store: the caller's fields, the time of
    the call, and the MAC of the canonical text. *)
Lemma buildAuditEntry_signed (input : AuditLogInput) (w w1 : World)
  (e : AuditLogEntry) :
  buildAuditEntry crypto configService isoFormat input w = (Normal e, w1) ->
  timestamp e = ValidDate (now w) /\
  userId e = in_userId input /\ orgId e = in_orgId input /\
  action e = in_action input /\ resourceType e = in_resourceType input /\
  resourceId e = in_resourceId input /\
  exists s,
    signature e = Some s /\
    createHMAC crypto configService (canonical e (isoFormat (now w))) None
    = Normal s.
Proof.
  unfold buildAuditEntry, bindM, newDate, liftC, retM, throwM.
  cbn [timestamp toISOString].
  match goal with
  | |- context [createHMAC crypto configService ?d None] =>
      destruct (createHMAC crypto configService d None) as [s|err] eqn:S
  end; [|discriminate].
  cbn [details with_signature].
  destruct (Nat.ltb 0 (Json.ownKeys (in_details input))).
  - destruct (Json.stringify (in_details input)) as [text|]; [|discriminate].
    destruct (encrypt crypto configService text _ w) as [[blob|err] w2];
      [|discriminate].
    intros H. injection H as <- _.
    do 6 (split; [reflexivity|]).
    exists s. split; [reflexivity|].
    unfold canonical, signedFields in S |- *.
    cbn [userId orgId action resourceType resourceId with_details
         with_signature] in S |- *.
    exact S.
  - intros H. injection H as <- _.
    do 6 (split; [reflexivity|]).
    exists s. split; [reflexivity|].
    unfold canonical, signedFields in S |- *.
    cbn [userId orgId action resourceType resourceId with_details
         with_signature] in S |- *.
    exact S.
Qed.

(** C4. Whatever the entry, the configuration, the primitives and the
    store do - the store may throw, the signer may be unconfigured -
    [logAction] completes normally. *)
Theorem logAction_never_throws (store : AuditLogEntry -> M unit)
  (input : AuditLogInput) (w : World) :
  exists w',
    logAction crypto configService isoFormat store input w = (Normal tt, w').
Proof.
  unfold logAction, try_catchM.
  destruct (bindM (buildAuditEntry crypto configService isoFormat input) _ w)
    as [[[]|err] w1].
  - now exists w1.
  - unfold console_write. eexists. reflexivity.
Qed.

(** A store that throws leaves its error on the console and nowhere
    else. *)
Lemma logAction_failing_store (input : AuditLogInput) (w w1 w2 : World)
  (e : AuditLogEntry) (err : JsError) (store : AuditLogEntry -> M unit) :
  buildAuditEntry crypto configService isoFormat input w = (Normal e, w1) ->
  store e w1 = (Throw err, w2) ->
  exists w',
    logAction crypto configService isoFormat store input w = (Normal tt, w') /\
    console w'
    = (console w2
       ++ [("Failed to create audit log: " ++ show_error err)%string])%list.
Proof.
  intros B S. unfold logAction, try_catchM, bindM. rewrite B, S.
  unfold console_write. eexists. split; reflexivity.
Qed.

Lemma verifyAuditEntry_invalid_date (e : AuditLogEntry) (w : World) :
  timestamp e = InvalidDate ->
  fst (verifyAuditEntry crypto configService isoFormat e w) = Normal false.
Proof.
  intros T. unfold verifyAuditEntry, try_catchM, bindM, liftC.
  rewrite T. reflexivity.
Qed.

(** C5. The record that [logAction] builds verifies; a record that keeps
    its signature while one of the six signed fields differs does not,
    as long as the MAC does not collide on the two signed texts
    ([toISOString] being injective on valid dates). *)
Theorem audit_signature_stability (input : AuditLogInput) (w w1 : World)
  (e : AuditLogEntry) :
  buildAuditEntry crypto configService isoFormat input w = (Normal e, w1) ->
  (forall a b, isoFormat a = isoFormat b -> a = b) ->
  (forall w2,
     fst (verifyAuditEntry crypto configService isoFormat e w2)
     = Normal true) /\
  (forall e' w2,
     signature e' = signature e ->
     signedPart e' <> signedPart e ->
     no_collision e e' ->
     fst (verifyAuditEntry crypto configService isoFormat e' w2)
     = Normal false).
Proof.
  intros B Inj.
  destruct (buildAuditEntry_signed input w w1 e B)
    as [T [_ [_ [_ [_ [_ [s [Sg H]]]]]]]].
  destruct (createHMAC_inversion _ _ H) as [secret [C [N Es]]].
  split.
  - intros w2. unfold verifyAuditEntry, try_catchM, bindM, liftC.
    rewrite T, Sg. cbn [toISOString].
    rewrite (EncryptionFacts.verifyHMAC_own_signature crypto configService
               secret C N _ s H).
    reflexivity.
  - intros e' w2 Sg' D NC.
    destruct (timestamp e') as [t'|] eqn:T';
      [|now apply verifyAuditEntry_invalid_date].
    unfold verifyAuditEntry, try_catchM, bindM, liftC.
    rewrite T', Sg', Sg. cbn [toISOString].
    rewrite (EncryptionFacts.verifyHMAC_configured crypto configService
               secret C N).
    rewrite Es, CodecFacts.hex_decode_encode.
    assert (X : hmac_sha256 crypto secret (canonical e' (isoFormat t'))
                <> hmac_sha256 crypto secret (canonical e (isoFormat (now w)))).
    { apply NC; try assumption.
      - unfold AuditLogSpec.signedText. now rewrite T.
      - unfold AuditLogSpec.signedText. now rewrite T'.
      - intros Q. apply canonical_injective in Q
          as [Q1 [Q2 [Q3 [Q4 [Q5 Q6]]]]].
        apply Inj in Q6. apply D. unfold signedPart.
        rewrite Q1, Q2, Q3, Q4, Q5, T, T', Q6. reflexivity. }
    unfold timingSafeEqual.
    destruct (Nat.eqb _ _); [|reflexivity].
    rewrite EncryptionFacts.Buffer_eqb_neq; [reflexivity|].
    intros Q. apply X. symmetry. exact Q.
Qed.

End Facts.

(** ** A run on the reference provider *)

Lemma reference_iso_injective (a b : Z) :
  Reference.iso a = Reference.iso b -> a = b.
Proof.
  unfold Reference.iso. intros H.
  assert (N : forall z, Z.to_int z <> Decimal.Pos Decimal.Nil
                        /\ Z.to_int z <> Decimal.Neg Decimal.Nil).
  { intros [|p|p]; cbn; split; try discriminate;
      intros Q; injection Q as Q;
      exact (DecimalPos.Unsigned.to_uint_nonnil p Q). }
  apply (f_equal NilZero.int_of_string) in H.
  destruct (N a) as [Pa Na]. destruct (N b) as [Pb Nb].
  rewrite (NilZero.isi _ Pa Na), (NilZero.isi _ Pb Nb) in H.
  injection H as H. now apply DecimalZ.to_int_inj.
Qed.

Lemma audit_signature_stability_witness :
  fst (verifyAuditEntry Reference.crypto Reference.config Reference.iso
                        sampleEntry Reference.world) = Normal true /\
  fst (verifyAuditEntry Reference.crypto Reference.config Reference.iso
                        forgedEntry Reference.world) = Normal false.
Proof.
  destruct (audit_signature_stability Reference.crypto Reference.config
              Reference.iso sampleInput Reference.world
              (snd (buildAuditEntry Reference.crypto Reference.config
                                    Reference.iso sampleInput
                                    Reference.world))
              sampleEntry) as [V F].
  - vm_compute. reflexivity.
  - exact reference_iso_injective.
  - split; [apply V|]. apply F.
    + reflexivity.
    + vm_compute. discriminate.
    + intros secret d d' C D D' _.
      vm_compute in C. injection C as <-.
      vm_compute in D. injection D as <-.
      vm_compute in D'. injection D' as <-.
      vm_compute. discriminate.
Defined.

Example logAction_survives_failing_store :
  let run := logAction Reference.crypto Reference.config Reference.iso
                       failingStore sampleInput Reference.world in
  fst run = Normal tt /\
  console (snd run)
  = ["Failed to create audit log: Error: audit store unavailable"].
Proof. vm_compute. split; reflexivity. Qed.

Example logAction_survives_missing_secret :
  let run := logAction Reference.crypto unsignedConfig Reference.iso
                       (storeAuditEntry Reference.iso) sampleInput
                       Reference.world in
  fst run = Normal tt /\
  console (snd run)
  = ["Failed to create audit log: Error: HMAC_SECRET not configured"].
Proof. vm_compute. split; reflexivity. Qed.

End AuditLogFacts.

(* ================================================================== *)
(** * Further properties of EncryptionService *)
(* ================================================================== *)

Module EncryptionOpsFacts.

Import Encryption EncryptionSpec EncryptionOps.

Lemma deriveKey_unconfigured (crypto : Crypto) (cfg : ConfigService)
  (salt : Buffer) :
  truthy (ENCRYPTION_MASTER_KEY cfg) = false ->
  deriveKey crypto cfg salt
  = Throw (Error "ENCRYPTION_MASTER_KEY not configured").
Proof.
  intros U. unfold deriveKey, require.
  destruct (ENCRYPTION_MASTER_KEY cfg) as [k|]; [|reflexivity].
  rewrite U. reflexivity.
Qed.

Lemma drawn_twice (f : nat -> byte) (c : nat) :
  (map f (seq c 16) ++ map f (seq (c + 16) 16))%list = map f (seq c 32).
Proof. rewrite <- map_app, <- seq_app. reflexivity. Qed.

Lemma afterDrawing_twice (w : World) :
  {| random := random w; cursor := cursor w + 16 + ivLength;
     now := now w; console := console w |} = afterDrawing 32 w.
Proof.
  unfold afterDrawing, ivLength. f_equal. lia.
Qed.

(** X1. With the master secret configured [encrypt] draws exactly 32 bytes
    of entropy, touches nothing else of the world, and stores those bytes
    unchanged as the first 32 bytes of the decoded blob. *)
Theorem encrypt_places_entropy (crypto : Crypto) (cfg : ConfigService)
  (masterKey plaintext : string) (orgId : option string) (w : World) :
  ENCRYPTION_MASTER_KEY cfg = Some masterKey -> masterKey <> "" ->
  exists blob,
    encrypt crypto cfg plaintext orgId w = (Normal blob, afterDrawing 32 w) /\
    firstn 32 (Base64.decode blob) = map (random w) (seq (cursor w) 32).
Proof.
  intros C N.
  unfold encrypt, try_catchM, bindM, liftC, retM.
  cbn [randomBytes cursor random now console].
  rewrite (EncryptionFacts.deriveKey_configured crypto cfg masterKey C N).
  rewrite CodecFacts.hex_decode_encode, afterDrawing_twice.
  eexists. split; [reflexivity|].
  rewrite CodecFacts.base64_decode_encode, app_assoc.
  unfold ivLength. rewrite drawn_twice.
  apply EncryptionFacts.firstn_app_exact.
  now rewrite length_map, length_seq.
Qed.

Lemma encrypt_places_entropy_witness :
  exists blob,
    encrypt Reference.crypto Reference.config "secret" (Some "org-A")
            Reference.world
    = (Normal blob, afterDrawing 32 Reference.world) /\
    firstn 32 (Base64.decode blob)
    = map (random Reference.world) (seq (cursor Reference.world) 32).
Proof.
  apply (encrypt_places_entropy Reference.crypto Reference.config
           "master-secret").
  - reflexivity.
  - discriminate.
Defined.

(** X2. Without a master secret (absent or empty) [encrypt] throws the
    wrapped configuration error after it has drawn its 32 bytes, and
    [decrypt] throws the wrapped configuration error for every blob. *)
Theorem master_key_required (crypto : Crypto) (cfg : ConfigService) :
  truthy (ENCRYPTION_MASTER_KEY cfg) = false ->
  (forall plaintext orgId w,
     encrypt crypto cfg plaintext orgId w
     = (Throw (Error "Encryption failed: ENCRYPTION_MASTER_KEY not configured"),
        afterDrawing 32 w)) /\
  (forall blob orgId,
     decrypt crypto cfg blob orgId
     = Throw (Error "Decryption failed: ENCRYPTION_MASTER_KEY not configured")).
Proof.
  intros U. split.
  - intros plaintext orgId w.
    unfold encrypt, try_catchM, bindM, liftC, throwM.
    cbn [randomBytes cursor random now console].
    rewrite (deriveKey_unconfigured crypto cfg _ U), afterDrawing_twice.
    reflexivity.
  - intros blob orgId. unfold decrypt. cbv zeta.
    rewrite (deriveKey_unconfigured crypto cfg _ U). reflexivity.
Qed.

Lemma master_key_required_witness :
  decrypt Reference.crypto
          {| ENCRYPTION_MASTER_KEY := Some ""; HMAC_SECRET := None |}
          sampleBlob (Some "org-A")
  = Throw (Error "Decryption failed: ENCRYPTION_MASTER_KEY not configured").
Proof.
  apply (master_key_required Reference.crypto
           {| ENCRYPTION_MASTER_KEY := Some ""; HMAC_SECRET := None |}).
  reflexivity.
Defined.

(** X3. [decrypt] fails closed: it either throws an [Error] whose message
    starts with [Decryption failed: ], or the cipher has accepted the tag
    at bytes 32-47 for the ciphertext after it, under the key derived from
    bytes 0-15 and the caller's tenant tag, and the result is that
    plaintext. *)
Theorem decrypt_fails_closed (crypto : Crypto) (cfg : ConfigService)
  (blob : string) (orgId : option string) :
  (exists message,
     decrypt crypto cfg blob orgId
     = Throw (Error ("Decryption failed: " ++ message))) \/
  (exists key decrypted,
     deriveKey crypto cfg (subarray (Base64.decode blob) 0 16) = Normal key /\
     aes256gcm_decrypt crypto key (associatedData orgId)
                       (subarray (Base64.decode blob) 32 48)
                       (subarray_from (Base64.decode blob) 48)
     = Some decrypted /\
     decrypt crypto cfg blob orgId = Normal (utf8_decode decrypted)).
Proof.
  unfold decrypt. cbv zeta.
  change (16 + ivLength + tagLength) with 48.
  change (16 + ivLength) with 32.
  destruct (deriveKey crypto cfg (subarray (Base64.decode blob) 0 16))
    as [key|e] eqn:K; cbn [bind try_catch].
  - destruct (setAuthTag (subarray (Base64.decode blob) 32 48)) as [[]|e];
      cbn [bind try_catch].
    + destruct (aes256gcm_decrypt crypto key (associatedData orgId) _ _)
        as [decrypted|] eqn:D.
      * right. exists key, decrypted. repeat split; assumption.
      * left. eexists. reflexivity.
    + left. eexists. reflexivity.
  - left. eexists. reflexivity.
Qed.

Lemma subarray_length (buf : Buffer) (start stop : nat) :
  List.length (subarray buf start stop)
  = Nat.min (stop - start) (List.length buf - start).
Proof. unfold subarray. now rewrite length_firstn, length_skipn. Qed.

(** X4. A blob that decodes to fewer than 36 bytes, the empty string
    included, has no usable tag: with the master secret configured
    [decrypt] rejects it for the length of its tag, before the cipher
    runs. *)
Theorem decrypt_rejects_short_blob (crypto : Crypto) (cfg : ConfigService)
  (masterKey blob : string) (orgId : option string) :
  ENCRYPTION_MASTER_KEY cfg = Some masterKey -> masterKey <> "" ->
  List.length (Base64.decode blob) < 36 ->
  decrypt crypto cfg blob orgId
  = Throw (Error ("Decryption failed: Invalid authentication tag length: "
                    ++ index_key (List.length (Base64.decode blob) - 32))).
Proof.
  intros C N L. unfold decrypt. cbv zeta.
  rewrite (EncryptionFacts.deriveKey_configured crypto cfg masterKey C N).
  cbn [bind]. unfold setAuthTag. rewrite subarray_length.
  change (16 + ivLength + tagLength - (16 + ivLength)) with 16.
  change (16 + ivLength) with 32.
  replace (Nat.min 16 (List.length (Base64.decode blob) - 32))
    with (List.length (Base64.decode blob) - 32) by lia.
  remember (List.length (Base64.decode blob) - 32) as n eqn:E.
  assert (B : n < 4) by lia.
  destruct n as [|[|[|[|n]]]]; try reflexivity. lia.
Qed.

Lemma decrypt_rejects_short_blob_witness :
  decrypt Reference.crypto Reference.config "" None
  = Throw (Error "Decryption failed: Invalid authentication tag length: 0").
Proof.
  apply (decrypt_rejects_short_blob Reference.crypto Reference.config
           "master-secret" "" None).
  - reflexivity.
  - discriminate.
  - cbn. lia.
Defined.

(** X5. The tenant tags [undefined], the empty string and [global] are
    one tenant: [decrypt] answers the same under any two of them, whatever
    the blob, and a blob encrypted under one of them decrypts under any
    other, to the plaintext when it has no unpaired surrogate. *)
Theorem default_tenant_is_global (crypto : Crypto) (cfg : ConfigService)
  (masterKey plaintext : string) (sealer opener : option string)
  (w : World) :
  ENCRYPTION_MASTER_KEY cfg = Some masterKey -> masterKey <> "" ->
  opens_what_it_seals crypto -> tag_is_128_bits crypto ->
  Utf8.isWellFormed plaintext = true ->
  In sealer [None; Some ""; Some "global"] ->
  In opener [None; Some ""; Some "global"] ->
  (forall blob,
     decrypt crypto cfg blob opener = decrypt crypto cfg blob sealer) /\
  exists blob w',
    encrypt crypto cfg plaintext sealer w = (Normal blob, w') /\
    decrypt crypto cfg blob opener = Normal plaintext.
Proof.
  intros C N O T W S P.
  assert (A : associatedData opener = associatedData sealer).
  { cbn in S, P.
    destruct S as [<-|[<-|[<-|[]]]]; destruct P as [<-|[<-|[<-|[]]]];
      reflexivity. }
  split.
  - intros blob. unfold decrypt. rewrite A. reflexivity.
  - destruct (EncryptionFacts.encrypt_configured crypto cfg masterKey C N
                plaintext sealer w) as [w' E].
    eexists. exists w'. split; [exact E|].
    rewrite (EncryptionFacts.decrypt_encrypted crypto cfg masterKey C N
               plaintext sealer opener _ _ O T
               (EncryptionFacts.saltDrawn_length w)
               (EncryptionFacts.ivDrawn_length w) A).
    now rewrite EncryptionFacts.transcoded_well_formed.
Qed.

Lemma default_tenant_is_global_witness :
  (forall blob,
     decrypt Reference.crypto Reference.config blob (Some "global")
     = decrypt Reference.crypto Reference.config blob None) /\
  exists blob w',
    encrypt Reference.crypto Reference.config "secret" None Reference.world
    = (Normal blob, w') /\
    decrypt Reference.crypto Reference.config blob (Some "global")
    = Normal "secret".
Proof.
  apply (default_tenant_is_global Reference.crypto Reference.config
           "master-secret").
  - reflexivity.
  - discriminate.
  - exact EncryptionFacts.reference_opens_what_it_seals.
  - exact EncryptionFacts.reference_tag_is_128_bits.
  - reflexivity.
  - now left.
  - right. right. now left.
Defined.

(** ** Signing and tokens *)

Lemma require_normal (value : option string) (message s : string) :
  require value message = Normal s ->
  value = Some s /\ s <> "".
Proof.
  unfold require. destruct value as [v|]; [|discriminate].
  cbn [truthy]. destruct (String.eqb v "") eqn:E; cbn [negb]; [discriminate|].
  intros H. injection H as <-. split; [reflexivity|].
  now apply String.eqb_neq.
Qed.

Lemma require_throw (value : option string) (message : string) :
  truthy value = false -> require value message = Throw (Error message).
Proof.
  intros U. unfold require. destruct value as [v|]; [|reflexivity].
  rewrite U. reflexivity.
Qed.

(** The secret that [createHMAC] ends up using, when it returns. *)
Lemma createHMAC_secret (crypto : Crypto) (cfg : ConfigService)
  (data : string) (secret : option string) (s : string) :
  createHMAC crypto cfg data secret = Normal s ->
  exists k,
    s = Hex.encode (hmac_sha256 crypto k data) /\
    forall d,
      createHMAC crypto cfg d secret
      = Normal (Hex.encode (hmac_sha256 crypto k d)).
Proof.
  unfold createHMAC.
  destruct (require (or_else secret (HMAC_SECRET cfg))
                    "HMAC_SECRET not configured") as [k|e] eqn:R;
    cbn [bind]; [|discriminate].
  intros H. injection H as <-. exists k. split; reflexivity.
Qed.

Lemma hex_decode_encode_app (b : Buffer) (rest : string) :
  Hex.decode (Hex.encode b ++ rest) = (b ++ Hex.decode rest)%list.
Proof.
  induction b as [|x b IH]; [reflexivity|].
  cbn [Hex.encode]. rewrite JsonFacts.append_assoc.
  rewrite CodecFacts.hex_decode_encode_byte, IH. reflexivity.
Qed.

(** X6. Signing then verifying succeeds: whatever secret [createHMAC]
    used, explicit or configured, [verifyHMAC] accepts the signature it
    returned for the same data and the same secret argument. *)
Theorem sign_then_verify (crypto : Crypto) (cfg : ConfigService)
  (data : string) (secret : option string) (signature : string) :
  createHMAC crypto cfg data secret = Normal signature ->
  verifyHMAC crypto cfg data signature secret = Normal true.
Proof.
  intros H. unfold verifyHMAC. rewrite H. cbn [bind].
  unfold timingSafeEqual. rewrite Nat.eqb_refl.
  f_equal. now apply EncryptionFacts.Buffer_eqb_eq.
Qed.

Lemma sign_then_verify_witness :
  verifyHMAC Reference.crypto Reference.config "data"
    "64617461746f7000000000000000000000000000000000000000000000000000"
    (Some "top")
  = Normal true.
Proof.
  apply sign_then_verify. vm_compute. reflexivity.
Defined.

(** X7. [verifyHMAC] accepts only the MAC: when it returns [true], the
    signature hex-decodes to exactly the bytes of the signature that
    [createHMAC] computes for the data. *)
Theorem verify_accepts_only_the_mac (crypto : Crypto) (cfg : ConfigService)
  (data signature : string) (secret : option string) :
  verifyHMAC crypto cfg data signature secret = Normal true ->
  exists expected,
    createHMAC crypto cfg data secret = Normal expected /\
    Hex.decode signature = Hex.decode expected.
Proof.
  unfold verifyHMAC.
  destruct (createHMAC crypto cfg data secret) as [expected|e];
    cbn [bind]; [|discriminate].
  unfold timingSafeEqual.
  destruct (Nat.eqb _ _); [|discriminate].
  intros H. injection H as H. apply EncryptionFacts.Buffer_eqb_eq in H.
  exists expected. now split.
Qed.

Lemma verify_accepts_only_the_mac_witness :
  exists expected,
    createHMAC Reference.crypto Reference.config "data" None
    = Normal expected /\
    Hex.decode
      "64617461686D61632D7365637265740000000000000000000000000000000000"
    = Hex.decode expected.
Proof.
  apply (verify_accepts_only_the_mac Reference.crypto Reference.config).
  vm_compute. reflexivity.
Defined.

(** X8. The signature check is malleable at the end: a valid signature
    followed by any text that does not begin with a pair of hexadecimal
    digits is accepted as well. *)
Theorem verify_ignores_trailing_text (crypto : Crypto) (cfg : ConfigService)
  (data signature junk : string) (secret : option string) :
  createHMAC crypto cfg data secret = Normal signature ->
  Hex.decode junk = [] ->
  verifyHMAC crypto cfg data (signature ++ junk) secret = Normal true.
Proof.
  intros H J.
  destruct (createHMAC_secret crypto cfg data secret signature H)
    as [k [-> _]].
  unfold verifyHMAC. rewrite H. cbn [bind].
  rewrite hex_decode_encode_app, J, app_nil_r, CodecFacts.hex_decode_encode.
  unfold timingSafeEqual. rewrite Nat.eqb_refl.
  f_equal. now apply EncryptionFacts.Buffer_eqb_eq.
Qed.

Lemma verify_ignores_trailing_text_witness :
  verifyHMAC Reference.crypto Reference.config "data"
    ("64617461686d61632d7365637265740000000000000000000000000000000000"
       ++ "-forged")
    None
  = Normal true.
Proof.
  apply verify_ignores_trailing_text.
  - vm_compute. reflexivity.
  - reflexivity.
Defined.

(** A non-empty explicit secret wins over the configuration, which is
    then not read; an empty explicit secret counts as none and falls back
    to the configured one. *)
Lemma explicit_secret_precedence (crypto : Crypto)
  (cfg : ConfigService) (data k : string) :
  (k <> "" ->
   createHMAC crypto cfg data (Some k)
   = Normal (Hex.encode (hmac_sha256 crypto k data))) /\
  createHMAC crypto cfg data (Some "") = createHMAC crypto cfg data None.
Proof.
  split; [|reflexivity].
  intros N. apply String.eqb_neq in N.
  unfold createHMAC, or_else, require. cbn [truthy]. rewrite N.
  cbn [negb truthy]. rewrite N. reflexivity.
Qed.

Lemma createHMAC_unconfigured (crypto : Crypto) (cfg : ConfigService) :
  truthy (HMAC_SECRET cfg) = false ->
  forall data,
    createHMAC crypto cfg data None
    = Throw (Error "HMAC_SECRET not configured").
Proof.
  intros C data. unfold createHMAC, or_else. cbn [truthy].
  rewrite (require_throw _ _ C). reflexivity.
Qed.

(** X9. With no usable secret, neither in the call nor in the
    configuration, signing throws the configuration error, and so does
    verification: it does not answer [false]. *)
Theorem hmac_secret_required (crypto : Crypto) (cfg : ConfigService)
  (data signature : string) (secret : option string) :
  truthy secret = false -> truthy (HMAC_SECRET cfg) = false ->
  createHMAC crypto cfg data secret
  = Throw (Error "HMAC_SECRET not configured") /\
  verifyHMAC crypto cfg data signature secret
  = Throw (Error "HMAC_SECRET not configured").
Proof.
  intros S C.
  assert (H : createHMAC crypto cfg data secret
              = Throw (Error "HMAC_SECRET not configured")).
  { unfold createHMAC, or_else. rewrite S.
    rewrite (require_throw _ _ C). reflexivity. }
  split; [exact H|]. unfold verifyHMAC. rewrite H. reflexivity.
Qed.

Lemma hmac_secret_required_witness :
  createHMAC Reference.crypto AuditLogSpec.unsignedConfig "data" (Some "")
  = Throw (Error "HMAC_SECRET not configured") /\
  verifyHMAC Reference.crypto AuditLogSpec.unsignedConfig "data" "abcd"
             (Some "")
  = Throw (Error "HMAC_SECRET not configured").
Proof.
  apply hmac_secret_required; reflexivity.
Defined.

Lemma digit_is_hex (n : nat) : n < 16 -> isHexDigit (Hex.digit n).
Proof.
  intros H. unfold isHexDigit, Hex.digit. apply nth_In. exact H.
Qed.

Lemma encode_is_hex (b : Buffer) :
  Forall isHexDigit (list_ascii_of_string (Hex.encode b)).
Proof.
  induction b as [|x b IH]; [constructor|].
  cbn [Hex.encode]. unfold Hex.encode_byte.
  cbn [append list_ascii_of_string].
  pose proof (Byte.to_nat_bounded x) as B.
  constructor; [|constructor; [|exact IH]]; apply digit_is_hex.
  - apply Nat.Div0.div_lt_upper_bound. lia.
  - apply Nat.mod_upper_bound. lia.
Qed.

(** X10. [generateToken(n)] draws [n] bytes of entropy (32 when the
    argument is omitted) and returns them as [2 n] lower-case hexadecimal
    digits that decode back to the bytes drawn. *)
Theorem generateToken_shape (length : option nat) (w : World) :
  let n := match length with Some k => k | None => 32 end in
  exists token,
    generateToken length w = (Normal token, afterDrawing n w) /\
    String.length token = 2 * n /\
    Forall isHexDigit (list_ascii_of_string token) /\
    Hex.decode token = map (random w) (seq (cursor w) n).
Proof.
  intros n. unfold generateToken, bindM, retM, randomBytes. fold n.
  eexists. split; [reflexivity|]. split; [|split].
  - now rewrite CodecFacts.hex_encode_length, length_map, length_seq.
  - apply encode_is_hex.
  - apply CodecFacts.hex_decode_encode.
Qed.

End EncryptionOpsFacts.

(* ================================================================== *)
(** * Further properties of AuditLogService *)
(* ================================================================== *)

Module AuditLogOpsFacts.

Import Encryption AuditLog AuditLogSpec AuditLogOps EncryptionSpec.

Lemma includes_In (xs : list string) (x : string) :
  includes xs x = true <-> In x xs.
Proof.
  unfold includes. rewrite existsb_exists. split.
  - intros [y [I E]]. apply String.eqb_eq in E. now subst.
  - intros I. exists x. split; [exact I | apply String.eqb_refl].
Qed.

(** X11. [queryAuditLogs] is gated on the exact role name and on nothing
    else. The filters play no part: the outcome is the same for any two
    of them. The three privileged roles get one record, which carries the
    tenant asked for and the time of the call; every other role gets the
    permission error. The world is not touched. *)
Theorem query_role_gate (org : string) (filters : AuditFilters)
  (role : string) (w : World) :
  (forall filters',
     queryAuditLogs org filters' role w = queryAuditLogs org filters role w) /\
  (In role ["admin"; "compliance_officer"; "security_admin"] ->
   exists record,
     queryAuditLogs org filters role w = (Normal [record], w) /\
     orgId record = org /\ timestamp record = ValidDate (now w)) /\
  (~ In role ["admin"; "compliance_officer"; "security_admin"] ->
   queryAuditLogs org filters role w
   = (Throw (Error "Insufficient permissions to access audit logs"), w)).
Proof.
  unfold queryAuditLogs, canAccessAuditLogs.
  split; [reflexivity|]. split; intros H.
  - apply (includes_In allowedRoles) in H. rewrite H. cbn [negb].
    eexists. split; [reflexivity|]. split; reflexivity.
  - destruct (includes allowedRoles role) eqn:E.
    + apply includes_In in E. contradiction.
    + reflexivity.
Qed.

(** A date range that excludes the time of the call and a user that the
    record does not name change nothing for an administrator; the role
    [Admin] is refused. *)
Lemma query_role_gate_witness :
  (exists record,
     queryAuditLogs "org-1" narrowFilters "admin" Reference.world
     = (Normal [record], Reference.world) /\
     orgId record = "org-1" /\
     timestamp record = ValidDate (now Reference.world)) /\
  queryAuditLogs "org-1" narrowFilters "Admin" Reference.world
  = (Throw (Error "Insufficient permissions to access audit logs"),
     Reference.world).
Proof.
  split.
  - apply (query_role_gate "org-1" narrowFilters "admin" Reference.world).
    now left.
  - apply (query_role_gate "org-1" narrowFilters "Admin" Reference.world).
    cbn. intros [H|[H|[H|[]]]]; discriminate H.
Defined.

(** X12. No record that [queryAuditLogs] returns passes
    [verifyAuditEntry]: its signature is not hexadecimal, so the check
    fails for every tenant, filter, role and configuration. *)
Theorem queried_records_do_not_verify (crypto : Crypto)
  (cfg : ConfigService) (isoFormat : Z -> string) (org : string)
  (filters : AuditFilters) (role : string) (w w' w2 : World)
  (records : list AuditLogEntry) :
  mac_is_256_bits crypto ->
  queryAuditLogs org filters role w = (Normal records, w') ->
  Forall (fun e => fst (verifyAuditEntry crypto cfg isoFormat e w2)
                   = Normal false) records.
Proof.
  intros L. unfold queryAuditLogs.
  destruct (negb (canAccessAuditLogs role)); [discriminate|].
  unfold bindM, newDate, retM. intros H.
  apply EncryptionFacts.returned_value in H. subst records.
  constructor; [|constructor].
  unfold verifyAuditEntry, try_catchM, bindM, liftC.
  cbn [timestamp toISOString signature]. unfold verifyHMAC.
  destruct (createHMAC crypto cfg _ None) as [expected|e] eqn:C;
    cbn [bind]; [|reflexivity].
  destruct (EncryptionOpsFacts.createHMAC_secret crypto cfg _ None expected C)
    as [k [-> _]].
  rewrite CodecFacts.hex_decode_encode. unfold timingSafeEqual.
  rewrite L. reflexivity.
Qed.

Lemma queried_records_do_not_verify_witness :
  Forall (fun e => fst (verifyAuditEntry Reference.crypto Reference.config
                          Reference.iso e Reference.world) = Normal false)
         [{| id := Some "audit-1"; userId := "user-123"; orgId := "org-1";
             action := "scenario.create"; resourceType := "scenario";
             resourceId := "scenario-456";
             details := JObject [("name", JString "Market Crash Test")];
             ipAddress := "192.168.1.100"; userAgent := "Mozilla/5.0...";
             timestamp := ValidDate (now Reference.world);
             signature := Some "mock-signature" |}].
Proof.
  apply (queried_records_do_not_verify Reference.crypto Reference.config
           Reference.iso "org-1"
           {| filter_userId := None; filter_action := None;
              filter_resourceType := None; filter_startDate := None;
              filter_endDate := None |} "admin" Reference.world
           Reference.world).
  - exact EncryptionFacts.reference_mac_is_256_bits.
  - reflexivity.
Defined.

Section Building.

Variable crypto : Crypto.
Variable configService : ConfigService.
Variable isoFormat : Z -> string.

(** X13. Non-empty details leave [logAction] only in encrypted form: the
    record handed to the store holds a single [encrypted] property, and
    decrypting it under the record's tenant gives the JSON text of the
    caller's details. (The strings of a JavaScript value are sequences of
    code points, which is what [representable] says of the model's;
    [JSON.stringify] escapes their unpaired surrogates, so that the text
    passes the cipher unchanged.) *)
Theorem details_stored_encrypted (masterKey : string)
  (input : AuditLogInput) (w w1 : World) (e : AuditLogEntry) :
  ENCRYPTION_MASTER_KEY configService = Some masterKey -> masterKey <> "" ->
  opens_what_it_seals crypto -> tag_is_128_bits crypto ->
  0 < Json.ownKeys (in_details input) ->
  buildAuditEntry crypto configService isoFormat input w = (Normal e, w1) ->
  exists blob text,
    details e = JObject [("encrypted", JString blob)] /\
    Json.stringify (in_details input) = Some text /\
    decrypt crypto configService blob (Some (orgId e))
    = Normal (transcoded text) /\
    (JsonSpec.representable (in_details input) = true ->
     decrypt crypto configService blob (Some (orgId e)) = Normal text).
Proof.
  intros C N O T K.
  unfold buildAuditEntry, bindM, newDate, liftC, retM, throwM.
  cbn [timestamp toISOString].
  match goal with
  | |- context [createHMAC crypto configService ?d None] =>
      destruct (createHMAC crypto configService d None) as [s|err]
  end; [|discriminate].
  cbn [details with_signature orgId].
  apply Nat.ltb_lt in K. rewrite K.
  destruct (Json.stringify (in_details input)) as [text|] eqn:J;
    [|discriminate].
  destruct (EncryptionFacts.encrypt_configured crypto configService
              masterKey C N text (Some (in_orgId input)) w) as [w2 E].
  rewrite E. intros H. apply EncryptionFacts.returned_value in H. subst e.
  eexists. exists text. split; [reflexivity|]. split; [reflexivity|].
  cbn [orgId with_details].
  rewrite (EncryptionFacts.decrypt_encrypted crypto configService masterKey
             C N text _ _ _ _ O T (EncryptionFacts.saltDrawn_length w)
             (EncryptionFacts.ivDrawn_length w) eq_refl).
  split; [reflexivity|]. intros R. f_equal.
  apply Utf8Facts.utf8_decode_encode.
  exact (JsonFacts.stringify_well_formed _ _ R J).
Qed.

(** X14. Details without own keys (an empty object, [null], a number) are
    stored as they are: nothing is encrypted and no entropy is drawn. *)
Theorem empty_details_stored_plain (input : AuditLogInput) (w w1 : World)
  (e : AuditLogEntry) :
  Json.ownKeys (in_details input) = 0 ->
  buildAuditEntry crypto configService isoFormat input w = (Normal e, w1) ->
  details e = in_details input /\ w1 = w.
Proof.
  intros K.
  unfold buildAuditEntry, bindM, newDate, liftC, retM, throwM.
  cbn [timestamp toISOString].
  match goal with
  | |- context [createHMAC crypto configService ?d None] =>
      destruct (createHMAC crypto configService d None) as [s|err]
  end; [|discriminate].
  cbn [details with_signature]. rewrite K. cbn [Nat.ltb Nat.leb].
  intros H. split.
  - apply EncryptionFacts.returned_value in H. now subst e.
  - now injection H.
Qed.

(** X15. When no HMAC secret is configured [logAction] gives up before the
    store is reached: whatever the store is, the only effect is one console
    line that reports the configuration error. *)
Theorem unsigned_entry_is_not_stored (store : AuditLogEntry -> M unit)
  (input : AuditLogInput) (w : World) :
  truthy (HMAC_SECRET configService) = false ->
  logAction crypto configService isoFormat store input w
  = (Normal tt,
     {| random := random w; cursor := cursor w; now := now w;
        console :=
          (console w
           ++ ["Failed to create audit log: Error: HMAC_SECRET not configured"])
          %list |}).
Proof.
  intros U.
  unfold logAction, try_catchM, bindM, buildAuditEntry, bindM, newDate, liftC.
  cbn [timestamp toISOString].
  rewrite (EncryptionOpsFacts.createHMAC_unconfigured crypto
             configService U).
  reflexivity.
Qed.

(** X16. The signature does not cover [details], [ipAddress], [userAgent]
    or [id]: two records that agree on the six signed fields and on the
    signature get the same answer from [verifyAuditEntry]. *)
Theorem unsigned_fields_are_not_verified (e e' : AuditLogEntry) (w : World) :
  sameSignedContent e e' ->
  verifyAuditEntry crypto configService isoFormat e w
  = verifyAuditEntry crypto configService isoFormat e' w.
Proof.
  intros [U [O [A [RT [RI [T S]]]]]].
  unfold verifyAuditEntry, canonical, signedFields.
  rewrite U, O, A, RT, RI, T, S. reflexivity.
Qed.

(** X17. [verifyAuditEntry] answers [false], and does not throw, when the
    HMAC secret is not configured, when the record has no signature, when
    its signature does not decode to 32 bytes, or when its timestamp is
    invalid. *)
Theorem unverifiable_records_are_false (e : AuditLogEntry) (w : World) :
  mac_is_256_bits crypto ->
  truthy (HMAC_SECRET configService) = false \/
  signature e = None \/
  (exists s, signature e = Some s /\ List.length (Hex.decode s) <> 32) \/
  timestamp e = InvalidDate ->
  fst (verifyAuditEntry crypto configService isoFormat e w) = Normal false.
Proof.
  intros L H.
  unfold verifyAuditEntry, try_catchM, bindM, liftC, verifyHMAC.
  destruct (timestamp e) as [t|]; cbn [toISOString]; [|reflexivity].
  destruct (createHMAC crypto configService (canonical e (isoFormat t)) None)
    as [expected|err] eqn:C.
  - destruct (EncryptionOpsFacts.createHMAC_secret crypto configService
                _ None expected C) as [k [-> _]].
    destruct H as [U|[S|[[s [S B]]|T]]].
    + pose proof (EncryptionOpsFacts.createHMAC_unconfigured crypto
                    configService U (canonical e (isoFormat t))) as X.
      rewrite X in C. discriminate.
    + rewrite S. reflexivity.
    + rewrite S. cbn [bind]. rewrite CodecFacts.hex_decode_encode.
      unfold timingSafeEqual. rewrite L.
      apply Nat.eqb_neq in B. rewrite B. reflexivity.
    + discriminate.
  - destruct (signature e); reflexivity.
Qed.

End Building.

Lemma details_stored_encrypted_witness :
  exists blob text,
    details sampleEntry = JObject [("encrypted", JString blob)] /\
    Json.stringify (in_details sampleInput) = Some text /\
    decrypt Reference.crypto Reference.config blob
            (Some (orgId sampleEntry)) = Normal text.
Proof.
  destruct (details_stored_encrypted Reference.crypto Reference.config
              Reference.iso "master-secret" sampleInput Reference.world
              (snd (buildAuditEntry Reference.crypto Reference.config
                                    Reference.iso sampleInput
                                    Reference.world))
              sampleEntry) as [blob [text [D [J [_ R]]]]].
  - reflexivity.
  - discriminate.
  - exact EncryptionFacts.reference_opens_what_it_seals.
  - exact EncryptionFacts.reference_tag_is_128_bits.
  - cbn. lia.
  - vm_compute. reflexivity.
  - exists blob, text. split; [exact D|]. split; [exact J|].
    exact (R eq_refl).
Defined.

Lemma empty_details_stored_plain_witness :
  exists e,
    buildAuditEntry Reference.crypto Reference.config Reference.iso
                    bareInput Reference.world = (Normal e, Reference.world) /\
    details e = JObject [].
Proof.
  destruct (buildAuditEntry Reference.crypto Reference.config Reference.iso
                            bareInput Reference.world) as [[e|err] w1] eqn:B.
  - destruct (empty_details_stored_plain Reference.crypto Reference.config
                Reference.iso bareInput Reference.world w1 e eq_refl B)
      as [D ->].
    exists e. split; [reflexivity | exact D].
  - vm_compute in B. discriminate B.
Defined.

Lemma unsigned_entry_is_not_stored_witness :
  console (snd (logAction Reference.crypto unsignedConfig Reference.iso
                          failingStore sampleInput Reference.world))
  = ["Failed to create audit log: Error: HMAC_SECRET not configured"].
Proof.
  rewrite (unsigned_entry_is_not_stored Reference.crypto unsignedConfig
             Reference.iso failingStore sampleInput Reference.world eq_refl).
  reflexivity.
Defined.

Lemma unsigned_fields_are_not_verified_witness :
  fst (verifyAuditEntry Reference.crypto Reference.config Reference.iso
                        redactedEntry Reference.world) = Normal true.
Proof.
  rewrite <- (unsigned_fields_are_not_verified Reference.crypto
                Reference.config Reference.iso sampleEntry redactedEntry
                Reference.world).
  - vm_compute. reflexivity.
  - repeat split.
Defined.

Lemma unverifiable_records_are_false_witness :
  fst (verifyAuditEntry Reference.crypto Reference.config Reference.iso
         (with_signature sampleEntry "abcd") Reference.world)
  = Normal false.
Proof.
  apply unverifiable_records_are_false.
  - exact EncryptionFacts.reference_mac_is_256_bits.
  - right. right. left. exists "abcd". split; [reflexivity|].
    vm_compute. discriminate.
Defined.

End AuditLogOpsFacts.

(* ================================================================== *)
(** * Further properties of DataResidencyService *)
(* ================================================================== *)

Module DataResidencyOpsFacts.

Import DataResidency DataResidencySpec DataResidencyOps.

(** ** The rule registry *)

Lemma map_get_set_same (m : Registry) key v :
  map_get (map_set m key v) key = Some v.
Proof.
  induction m as [|[k v0] rest IH]; cbn.
  - now rewrite String.eqb_refl.
  - destruct (String.eqb k key) eqn:E; cbn; rewrite E; [reflexivity | exact IH].
Qed.

Lemma map_get_set_other (m : Registry) key key' v :
  key <> key' -> map_get (map_set m key v) key' = map_get m key'.
Proof.
  intros N. induction m as [|[k v0] rest IH]; cbn.
  - apply String.eqb_neq in N. now rewrite N.
  - destruct (String.eqb k key) eqn:E; cbn.
    + apply String.eqb_eq in E. subst k.
      apply String.eqb_neq in N. now rewrite N.
    + destruct (String.eqb k key'); [reflexivity | exact IH].
Qed.

Lemma map_set_twice (m : Registry) key v1 v2 :
  map_set (map_set m key v1) key v2 = map_set m key v2.
Proof.
  induction m as [|[k v0] rest IH]; cbn.
  - now rewrite String.eqb_refl.
  - destruct (String.eqb k key) eqn:E; cbn; rewrite E; [reflexivity|].
    now rewrite IH.
Qed.

Lemma map_keys_set (m : Registry) key v key' :
  In key' (map_keys (map_set m key v)) <-> key' = key \/ In key' (map_keys m).
Proof.
  unfold map_keys. induction m as [|[k v0] rest IH]; cbn.
  - intuition.
  - destruct (String.eqb k key) eqn:E; cbn.
    + apply String.eqb_eq in E. subst k. intuition.
    + rewrite IH. intuition.
Qed.

Lemma map_keys_set_NoDup (m : Registry) key v :
  NoDup (map_keys m) -> NoDup (map_keys (map_set m key v)).
Proof.
  unfold map_keys. induction m as [|[k v0] rest IH]; cbn; intros D.
  - repeat constructor. intros [].
  - inversion D as [|? ? Nk Dr]; subst.
    destruct (String.eqb k key) eqn:E; cbn.
    + constructor; assumption.
    + constructor; [|now apply IH].
      intros I. apply (map_keys_set rest key v k) in I as [->|I].
      * rewrite String.eqb_refl in E. discriminate.
      * contradiction.
Qed.

Lemma org_key_prefix (org : string) :
  String.prefix "ORG_" ("ORG_" ++ org) = true.
Proof. destruct org; reflexivity. Qed.

Lemma org_key_injective (a b : string) : "ORG_" ++ a = "ORG_" ++ b -> a = b.
Proof. cbn. intros H. now injection H. Qed.

Lemma globalRules_set_org (m : Registry) key v dataType classification :
  String.prefix "ORG_" key = true ->
  globalRules (map_set m key v) dataType classification
  = globalRules m dataType classification.
Proof.
  intros P. induction m as [|[k v0] rest IH]; cbn - [String.prefix].
  - now rewrite P.
  - destruct (String.eqb k key) eqn:E; cbn - [String.prefix].
    + apply String.eqb_eq in E. subst k. now rewrite P.
    + destruct (String.prefix "ORG_" k); [exact IH|]. now rewrite IH.
Qed.

(** X18. Registering a tenant rule and looking it up: the tenant's key
    then holds the rule just registered, a second registration replaces
    the first, and the entry of every other tenant is as before. *)
Theorem register_then_lookup (m : Registry) (org : string)
  (r0 r : DataResidencyRule) :
  map_get (registerOrgRules m org r) ("ORG_" ++ org) = Some r /\
  registerOrgRules (registerOrgRules m org r0) org r
  = registerOrgRules m org r /\
  forall other, other <> org ->
    map_get (registerOrgRules m org r) ("ORG_" ++ other)
    = map_get m ("ORG_" ++ other).
Proof.
  unfold registerOrgRules. split; [apply map_get_set_same|].
  split; [apply map_set_twice|].
  intros other N. apply map_get_set_other.
  intros E. apply org_key_injective in E. congruence.
Qed.

(** X19. The registry keeps its keys distinct and never loses one: after a
    registration every earlier key is still present, the tenant's key is
    present, and no key occurs twice. *)
Theorem registry_keys_invariant (m : Registry) (org : string)
  (r : DataResidencyRule) :
  NoDup (map_keys m) ->
  NoDup (map_keys (registerOrgRules m org r)) /\
  In ("ORG_" ++ org) (map_keys (registerOrgRules m org r)) /\
  forall key, In key (map_keys m) ->
              In key (map_keys (registerOrgRules m org r)).
Proof.
  intros D. unfold registerOrgRules. split; [now apply map_keys_set_NoDup|].
  split.
  - apply map_keys_set. now left.
  - intros key I. apply map_keys_set. now right.
Qed.

Lemma registry_keys_invariant_witness :
  NoDup (map_keys initializeDefaultRules) /\
  NoDup (map_keys (registerOrgRules initializeDefaultRules "org-1"
                                    shortRetentionRule)) /\
  In "EU" (map_keys (registerOrgRules initializeDefaultRules "org-1"
                                      shortRetentionRule)).
Proof.
  assert (D : NoDup (map_keys initializeDefaultRules)).
  { cbn. repeat constructor; cbn; intuition discriminate. }
  split; [exact D|].
  destruct (registry_keys_invariant initializeDefaultRules "org-1"
              shortRetentionRule D) as [N [_ K]].
  split; [exact N|]. apply K. cbn. now left.
Defined.

(** X20. Tenants are isolated: registering rules for one tenant changes
    neither the verdicts nor the retention periods of any other tenant. *)
Theorem registration_is_tenant_local (m : Registry) (org other : string)
  (r : DataResidencyRule) (dataType : string) (operation : Operation)
  (targetRegion : string) (classification : option DataClassification) :
  other <> org ->
  validateDataOperation (registerOrgRules m org r) other dataType operation
                        targetRegion classification
  = validateDataOperation m other dataType operation targetRegion
                          classification /\
  getRetentionPeriod (registerOrgRules m org r) other dataType
  = getRetentionPeriod m other dataType.
Proof.
  intros N.
  assert (G : forall c,
             getApplicableRules (registerOrgRules m org r) other dataType c
             = getApplicableRules m other dataType c).
  { intros c. unfold getApplicableRules, registerOrgRules.
    rewrite map_get_set_other.
    - rewrite globalRules_set_org by apply org_key_prefix. reflexivity.
    - intros E. apply org_key_injective in E. congruence. }
  unfold validateDataOperation, validateBody, getRetentionPeriod.
  rewrite !G. split; reflexivity.
Qed.

Lemma registration_is_tenant_local_witness :
  getRetentionPeriod
    (registerOrgRules initializeDefaultRules "org-1" shortRetentionRule)
    "org-2" "financial"
  = getRetentionPeriod initializeDefaultRules "org-2" "financial".
Proof.
  apply (registration_is_tenant_local initializeDefaultRules "org-1" "org-2"
           shortRetentionRule "financial" store "US" None).
  discriminate.
Defined.

(** X21. The compliance report of a tenant lists exactly the keys of the
    global rules and the tenant's own key, so never the key of another
    tenant; its data types are those of the tenant's registered rule. *)
Theorem report_is_tenant_scoped (m : Registry) (org : string) :
  (forall key,
     In key (report_applicableRules (generateComplianceReport m org)) <->
     In key (map_keys m) /\
     (String.prefix "ORG_" key = false \/ key = "ORG_" ++ org)) /\
  (forall other, other <> org ->
     ~ In ("ORG_" ++ other)
          (report_applicableRules (generateComplianceReport m org))) /\
  (forall r dts, dataTypes r = Some dts ->
     report_dataTypes (generateComplianceReport (registerOrgRules m org r) org)
     = dts).
Proof.
  assert (K : forall key,
     In key (report_applicableRules (generateComplianceReport m org)) <->
     In key (map_keys m) /\
     (String.prefix "ORG_" key = false \/ key = "ORG_" ++ org)).
  { intros key. cbn [generateComplianceReport report_applicableRules].
    rewrite filter_In, orb_true_iff, negb_true_iff, String.eqb_eq.
    reflexivity. }
  split; [exact K|]. split.
  - intros other N I. apply K in I as [_ [P|E]].
    + rewrite org_key_prefix in P. discriminate.
    + apply org_key_injective in E. contradiction.
  - intros r dts D. cbn [generateComplianceReport report_dataTypes].
    unfold registerOrgRules. rewrite map_get_set_same, D. reflexivity.
Qed.

(** ** Verdicts *)

Lemma checkRule_some (targetRegion : string) (r : DataResidencyRule)
  (v : ValidationResult) :
  checkRule targetRegion r = Normal (Some v) ->
  allowed v = false /\ reason v <> None /\ requirements v = [].
Proof.
  unfold checkRule.
  destruct (restrictions r) as [rs|]; cbn [deref bind]; [|discriminate].
  destruct (prohibitedRegions rs) as [p|]; cbn [deref bind]; [|discriminate].
  destruct (includes p targetRegion).
  - intros H. injection H as <-. cbn. repeat split. discriminate.
  - destruct (allowedRegions rs) as [a|]; cbn [deref bind]; [|discriminate].
    destruct (andb _ _); [|discriminate].
    intros H. injection H as <-. cbn. repeat split. discriminate.
Qed.

Lemma checkRule_none (targetRegion : string) (r : DataResidencyRule) :
  checkRule targetRegion r = Normal None -> passes r targetRegion.
Proof.
  unfold checkRule, passes.
  destruct (restrictions r) as [rs|]; cbn [deref bind]; [|discriminate].
  destruct (prohibitedRegions rs) as [p|] eqn:P; cbn [deref bind];
    [|discriminate].
  destruct (includes p targetRegion) eqn:I; [discriminate|].
  destruct (allowedRegions rs) as [a|] eqn:A; cbn [deref bind];
    [|discriminate].
  destruct (andb _ _) eqn:C; [discriminate|]. intros _.
  exists rs, a, p. repeat split; try assumption.
  apply andb_false_iff in C as [C|C].
  - left. destruct a; [reflexivity | discriminate].
  - right. now apply negb_false_iff in C.
Qed.

Lemma checkRules_some (targetRegion : string)
  (rules : list DataResidencyRule) (v : ValidationResult) :
  checkRules targetRegion rules = Normal (Some v) ->
  allowed v = false /\ reason v <> None /\ requirements v = [].
Proof.
  induction rules as [|r rest IH]; cbn [checkRules]; [discriminate|].
  destruct (checkRule targetRegion r) as [[v0|]|e] eqn:C; cbn [bind];
    try discriminate.
  - intros H. injection H as <-. now apply (checkRule_some targetRegion r).
  - exact IH.
Qed.

Lemma checkRules_none (targetRegion : string)
  (rules : list DataResidencyRule) :
  checkRules targetRegion rules = Normal None ->
  Forall (fun r => passes r targetRegion) rules.
Proof.
  induction rules as [|r rest IH]; cbn [checkRules]; [constructor|].
  destruct (checkRule targetRegion r) as [[v0|]|e] eqn:C; cbn [bind];
    try discriminate.
  intros H. constructor; [now apply checkRule_none | now apply IH].
Qed.

(** What lies behind a verdict that allows. *)
Lemma allowed_inversion (m : Registry) (org dataType : string)
  (operation : Operation) (targetRegion : string)
  (classification : option DataClassification) (v : ValidationResult) :
  validateDataOperation m org dataType operation targetRegion classification
  = Normal v ->
  allowed v = true ->
  exists rules reqs,
    getApplicableRules m org dataType classification = Normal rules /\
    checkRules targetRegion rules = Normal None /\
    collectRequirements classification rules = Normal reqs /\
    v = {| allowed := true; reason := None; requirements := dedupe reqs |}.
Proof.
  unfold validateDataOperation, validateBody.
  destruct (getApplicableRules m org dataType classification) as [rules|e]
    eqn:G; cbn [bind try_catch].
  - destruct (checkRules targetRegion rules) as [[v0|]|e] eqn:C;
      cbn [bind try_catch].
    + intros H A. injection H as <-.
      apply checkRules_some in C as [C _]. congruence.
    + destruct (collectRequirements classification rules) as [reqs|e]
        eqn:R; cbn [bind try_catch].
      * intros H _. injection H as <-. exists rules, reqs.
        repeat split; assumption.
      * intros H A. injection H as <-. discriminate.
    + intros H A. injection H as <-. discriminate.
  - intros H A. injection H as <-. discriminate.
Qed.

Lemma applicable_split (m : Registry) (org dataType : string)
  (classification : option DataClassification)
  (rules : list DataResidencyRule) :
  getApplicableRules m org dataType classification = Normal rules ->
  exists own glob,
    rules = (own ++ glob)%list /\
    globalRules m dataType classification = Normal glob.
Proof.
  unfold getApplicableRules.
  destruct (map_get m ("ORG_" ++ org)) as [orgRule|].
  - destruct (dataTypes orgRule) as [dts|]; cbn [deref bind]; [|discriminate].
    destruct (globalRules m dataType classification) as [glob|];
      cbn [bind]; [|discriminate].
    intros H. injection H as <-. eexists. exists glob. now split.
  - cbn [bind].
    destruct (globalRules m dataType classification) as [glob|];
      cbn [bind]; [|discriminate].
    intros H. injection H as <-. exists [], glob. now split.
Qed.

Lemma matchesClassification_defined (r : DataResidencyRule)
  (c : DataClassification) (dts : list string) :
  dataTypes r = Some dts ->
  matchesClassification r (Some c)
  = Normal (orb (andb (financialData c) (includes dts "financial"))
                (orb (andb (personalData c) (includes dts "personal"))
                     (andb (healthData c) (includes dts "health")))).
Proof.
  intros D. unfold matchesClassification. rewrite D. cbn [deref bind].
  destruct (financialData c), (personalData c), (healthData c);
    cbn [bind andb orb];
    destruct (includes dts "financial"), (includes dts "personal"),
      (includes dts "health"); reflexivity.
Qed.

Lemma globalRules_cons (key : string) (rule : DataResidencyRule)
  (rest : Registry) (dataType : string) (c : DataClassification)
  (dts : list string) :
  String.prefix "ORG_" key = false -> dataTypes rule = Some dts ->
  globalRules ((key, rule) :: rest) dataType (Some c)
  = (tail <- globalRules rest dataType (Some c) ;;
     Normal (if selected dts dataType c then rule :: tail else tail)).
Proof.
  intros P D. cbn [globalRules]. rewrite P, D. cbn [deref bind].
  unfold selected. destruct (includes dts dataType); cbn [bind orb].
  - reflexivity.
  - rewrite (matchesClassification_defined rule c dts D). reflexivity.
Qed.

Lemma globalRules_complete (m : Registry) (dataType : string)
  (c : DataClassification) (glob : list DataResidencyRule)
  (r : DataResidencyRule) :
  globalRules m dataType (Some c) = Normal glob ->
  GlobalRuleApplies m dataType c r -> In r glob.
Proof.
  revert glob. induction m as [|[key rule] rest IH]; intros glob G A.
  - destruct A as [k [dts [[] _]]].
  - destruct A as [k [dts [I [P [D H]]]]].
    assert (Rest : In (k, r) rest ->
                   forall tail, globalRules rest dataType (Some c)
                                = Normal tail -> In r tail).
    { intros I' tail T. apply (IH tail T). exists k, dts.
      repeat split; assumption. }
    destruct (String.prefix "ORG_" key) eqn:Pk.
    + cbn [globalRules] in G. rewrite Pk in G.
      destruct I as [I|I]; [|now apply (Rest I)].
      injection I as -> ->. congruence.
    + destruct (dataTypes rule) as [dts0|] eqn:D0.
      * rewrite (globalRules_cons key rule rest dataType c dts0 Pk D0) in G.
        destruct (globalRules rest dataType (Some c)) as [tail|] eqn:T;
          cbn [bind] in G; [|discriminate].
        injection G as <-.
        destruct I as [I|I].
        -- injection I as -> ->. rewrite D in D0. injection D0 as <-.
           assert (S : selected dts dataType c = true).
           { unfold selected.
             destruct H as [H|[[H1 H2]|[[H1 H2]|[H1 H2]]]];
               rewrite ?H, ?H1, ?H2; cbn [andb orb];
               rewrite ?orb_true_r; reflexivity. }
           rewrite S. now left.
        -- specialize (Rest I tail eq_refl).
           destruct (selected dts0 dataType c); [now right | assumption].
      * cbn [globalRules] in G. rewrite Pk, D0 in G. discriminate.
Qed.



(** X23. A global prohibition cannot be lifted: when a global rule that
    applies to the data type or to the classification prohibits the target
    region, the operation is denied for every tenant, whatever tenant
    rules the registry holds. *)
Theorem global_prohibition_stands (m : Registry) (org dataType : string)
  (operation : Operation) (targetRegion : string)
  (c : DataClassification) (r : DataResidencyRule) :
  GlobalRuleApplies m dataType c r ->
  prohibits r targetRegion ->
  exists v,
    validateDataOperation m org dataType operation targetRegion (Some c)
    = Normal v /\
    allowed v = false.
Proof.
  intros A P.
  destruct (DataResidencyFacts.validate_never_throws m org dataType operation
              targetRegion (Some c)) as [v [V _]].
  exists v. split; [exact V|].
  destruct (allowed v) eqn:Al; [exfalso | reflexivity].
  destruct (allowed_inversion _ _ _ _ _ _ _ V Al)
    as [rules [reqs [G [C _]]]].
  destruct (applicable_split _ _ _ _ _ G) as [own [glob [-> Gl]]].
  apply checkRules_none in C. rewrite Forall_forall in C.
  assert (I : In r (own ++ glob)%list)
    by (apply in_or_app; right; now apply (globalRules_complete m dataType c)).
  destruct (C r I) as [rs [a [p [R [_ [Pp [N _]]]]]]].
  destruct P as [rs' [p' [R' [Pp' I']]]]. congruence.
Qed.

Lemma global_prohibition_stands_witness :
  exists v,
    validateDataOperation
      (registerOrgRules initializeDefaultRules "org-1"
         {| orgId := "org-1"; region := "ORG";
            dataTypes := Some ["financial"];
            restrictions := Some {| allowedRegions := Some [];
                                    prohibitedRegions := Some [];
                                    requiresEncryption := false;
                                    retentionPeriodDays := 30 |} |})
      "org-1" "financial" transfer "KP" (Some financialClassification)
    = Normal v /\
    allowed v = false.
Proof.
  apply (global_prohibition_stands _ _ _ _ _ _ FINANCIAL_rule).
  - exists "FINANCIAL", ["financial"; "trading"; "risk"].
    repeat split; [cbn; tauto | now left].
  - eexists. eexists. repeat split; reflexivity.
Defined.

(** ** Safeguards *)

Lemma includes_iff (xs : list string) (x : string) :
  includes xs x = true <-> In x xs.
Proof.
  unfold includes. rewrite existsb_exists. split.
  - intros [y [I E]]. apply String.eqb_eq in E. now subst.
  - intros I. exists x. split; [exact I | apply String.eqb_refl].
Qed.

Lemma dedupe_from_spec (xs seen : list string) :
  NoDup (dedupe_from seen xs) /\
  forall x, In x (dedupe_from seen xs) <-> In x xs /\ ~ In x seen.
Proof.
  revert seen. induction xs as [|y rest IH]; intros seen; cbn [dedupe_from].
  - split; [constructor|]. cbn. tauto.
  - destruct (includes seen y) eqn:E.
    + apply includes_iff in E.
      destruct (IH seen) as [N M]. split; [exact N|].
      intros x. rewrite M. cbn. split.
      * tauto.
      * intros [[<-|I] S]; [contradiction | tauto].
    + assert (Ny : ~ In y seen).
      { intros I. apply includes_iff in I. congruence. }
      destruct (IH (y :: seen)) as [N M]. split.
      * constructor; [|exact N]. rewrite M. cbn. tauto.
      * intros x. cbn. rewrite M. cbn.
        destruct (string_dec y x) as [<-|D]; tauto.
Qed.

Lemma dedupe_NoDup (xs : list string) : NoDup (dedupe xs).
Proof. apply dedupe_from_spec. Qed.

Lemma dedupe_In (xs : list string) (x : string) :
  In x (dedupe xs) <-> In x xs.
Proof.
  unfold dedupe. destruct (dedupe_from_spec xs []) as [_ M].
  rewrite M. cbn. tauto.
Qed.

Lemma Level_eqb_eq (a b : Level) : Level_eqb a b = true <-> a = b.
Proof. destruct a, b; cbn; split; intros H; congruence. Qed.

(** What the second loop of [validateDataOperation] collects. *)
Lemma collectRequirements_spec (c : DataClassification)
  (rules : list DataResidencyRule) (reqs : list string) :
  collectRequirements (Some c) rules = Normal reqs ->
  forall x,
    In x reqs <->
    (x = encryptionRequirement /\ Exists demandsEncryption rules) \/
    (x = consentRequirement /\ personalData c = true /\ rules <> []) \/
    (x = accessRequirement /\ level c = restricted /\ rules <> []).
Proof.
  revert reqs. induction rules as [|r rest IH]; intros reqs;
    cbn [collectRequirements].
  - intros H. injection H as <-. intros x. cbn. split; [tauto|].
    intros [[_ E]|[[_ [_ N]]|[_ [_ N]]]];
      [inversion E | congruence | congruence].
  - destruct (restrictions r) as [rs|] eqn:R; cbn [deref bind];
      [|discriminate].
    destruct (collectRequirements (Some c) rest) as [tail|]; cbn [bind];
      [|discriminate].
    intros H. injection H as <-. intros x.
    specialize (IH tail eq_refl x).
    assert (NE : r :: rest <> []) by discriminate.
    assert (EE : Exists demandsEncryption (r :: rest) <->
                 requiresEncryption rs = true \/
                 Exists demandsEncryption rest).
    { rewrite Exists_cons. unfold demandsEncryption at 1. split.
      - intros [[rs' [R' E]]|E]; [left; congruence | now right].
      - intros [E|E]; [left; now exists rs | now right]. }
    rewrite !in_app_iff, IH, EE.
    pose proof (Level_eqb_eq (level c) restricted) as LE.
    unfold encryptionRequirement, consentRequirement, accessRequirement in *.
    destruct (requiresEncryption rs), (personalData c),
      (Level_eqb (level c) restricted); cbn [In];
      intuition (try congruence; try discriminate).
Qed.

Lemma collectRequirements_members
  (classification : option DataClassification)
  (rules : list DataResidencyRule) (reqs : list string) :
  collectRequirements classification rules = Normal reqs ->
  forall x, In x reqs ->
    x = encryptionRequirement \/ x = consentRequirement \/
    x = accessRequirement.
Proof.
  destruct classification as [c|].
  - intros H x I. apply (collectRequirements_spec c rules reqs H) in I.
    tauto.
  - destruct rules as [|r rest]; cbn [collectRequirements].
    + intros H. injection H as <-. intros x [].
    + destruct (restrictions r); cbn [deref bind]; discriminate.
Qed.

Lemma denied_inversion (m : Registry) (org dataType : string)
  (operation : Operation) (targetRegion : string)
  (classification : option DataClassification) (v : ValidationResult) :
  validateDataOperation m org dataType operation targetRegion classification
  = Normal v ->
  allowed v = false ->
  reason v <> None /\ requirements v = [].
Proof.
  unfold validateDataOperation, validateBody.
  destruct (getApplicableRules m org dataType classification) as [rules|e];
    cbn [bind try_catch].
  - destruct (checkRules targetRegion rules) as [[v0|]|e] eqn:C;
      cbn [bind try_catch].
    + intros H _. injection H as <-. now apply checkRules_some in C.
    + destruct (collectRequirements classification rules) as [reqs|e];
        cbn [bind try_catch].
      * intros H A. injection H as <-. discriminate.
      * intros H _. injection H as <-. split; [discriminate | reflexivity].
    + intros H _. injection H as <-. split; [discriminate | reflexivity].
  - intros H _. injection H as <-. split; [discriminate | reflexivity].
Qed.

(** X24. Every verdict is well formed. A denial carries a reason and no
    requirement; an approval carries no reason; the requirements never
    repeat and are drawn from the three fixed safeguards. *)
Theorem verdict_is_well_formed (m : Registry) (org dataType : string)
  (operation : Operation) (targetRegion : string)
  (classification : option DataClassification) (v : ValidationResult) :
  validateDataOperation m org dataType operation targetRegion classification
  = Normal v ->
  (allowed v = false -> reason v <> None /\ requirements v = []) /\
  (allowed v = true -> reason v = None) /\
  NoDup (requirements v) /\
  (forall x, In x (requirements v) ->
     x = encryptionRequirement \/ x = consentRequirement \/
     x = accessRequirement).
Proof.
  intros V. split; [now apply (denied_inversion _ _ _ _ _ _ _ V)|].
  destruct (allowed v) eqn:A.
  - destruct (allowed_inversion _ _ _ _ _ _ _ V A)
      as [rules [reqs [_ [_ [R ->]]]]].
    cbn [reason requirements]. split; [reflexivity|].
    split; [apply dedupe_NoDup|].
    intros x I. apply (proj1 (dedupe_In reqs x)) in I.
    exact (collectRequirements_members classification rules reqs R x I).
  - destruct (denied_inversion _ _ _ _ _ _ _ V A) as [_ ->].
    split; [discriminate|]. split; [constructor|]. intros x [].
Qed.

Lemma verdict_is_well_formed_witness :
  NoDup (requirements
           {| allowed := true; reason := None;
              requirements := [encryptionRequirement] |}).
Proof.
  apply (verdict_is_well_formed initializeDefaultRules "org-1" "trading"
           store "US" (Some (neutralClassification "trading"))).
  reflexivity.
Defined.



(** ** Defaults and faults *)

Lemma selected_unflagged (dts : list string) (dataType : string)
  (c : DataClassification) :
  unflagged c -> selected dts dataType c = includes dts dataType.
Proof.
  intros [P [F H]]. unfold selected. rewrite P, F, H. cbn [andb orb].
  apply orb_false_r.
Qed.

Lemma globalRules_unflagged (m : Registry) (dataType : string)
  (c : DataClassification) :
  WellTypedRegistry m -> unflagged c ->
  globalRules m dataType (Some c) = Normal (globalMatches m dataType).
Proof.
  intros W U. unfold globalMatches.
  induction m as [|[key rule] rest IH]; [reflexivity|].
  inversion W as [|? ? Wr Wrest]; subst. cbn [snd] in Wr.
  specialize (IH Wrest).
  destruct (String.prefix "ORG_" key) eqn:P.
  - cbn [globalRules filter fst snd]. rewrite P. cbn [negb andb]. exact IH.
  - destruct (DataResidencyFacts.WellTyped_dataTypes _ Wr) as [dts D].
    rewrite (globalRules_cons key rule rest dataType c dts P D), IH.
    cbn [bind filter fst snd]. rewrite P. cbn [negb andb].
    rewrite (selected_unflagged dts dataType c U).
    unfold hasType. rewrite D.
    destruct (includes dts dataType); reflexivity.
Qed.

(** X26. Allowed by default: on a registry of well-typed rules, when the
    classification carries no personal, financial or health flag and no
    rule lists the data type, the operation is allowed for every target
    region, with no reason and no requirement. *)
Theorem allowed_by_default (m : Registry) (org dataType : string)
  (operation : Operation) (targetRegion : string)
  (c : DataClassification) :
  WellTypedRegistry m -> unflagged c ->
  (forall r, ~ Applicable m org dataType r) ->
  validateDataOperation m org dataType operation targetRegion (Some c)
  = Normal allowedFreely.
Proof.
  intros W U N.
  assert (G : getApplicableRules m org dataType (Some c) = Normal []).
  { pose proof (DataResidencyFacts.getApplicableRules_neutral m org dataType W)
      as G0.
    unfold getApplicableRules in *.
    rewrite (globalRules_unflagged m dataType c W U).
    rewrite (DataResidencyFacts.globalRules_neutral m dataType W) in G0.
    rewrite G0. f_equal.
    destruct (ownMatch m org dataType ++ globalMatches m dataType)%list
      as [|r rest] eqn:E; [reflexivity|].
    exfalso. apply (N r).
    apply DataResidencyFacts.applicable_iff. rewrite E. now left. }
  unfold validateDataOperation, validateBody. rewrite G. reflexivity.
Qed.

Lemma allowed_by_default_witness :
  validateDataOperation initializeDefaultRules "org-1" "operational" transfer
                        "CN" (Some unclassified)
  = Normal allowedFreely.
Proof.
  apply allowed_by_default.
  - exact DataResidencyFacts.default_registry_well_typed.
  - repeat split.
  - intros r [[G _]|[key [I [_ T]]]]; [discriminate G|].
    cbn in I. destruct I as [I|[I|[I|[]]]]; injection I as <- <-;
      discriminate T.
Defined.

Lemma matchesClassification_throws (r : DataResidencyRule)
  (classification : option DataClassification) (e : JsError) :
  matchesClassification r classification = Throw e ->
  exists message, e = TypeError message.
Proof.
  unfold matchesClassification.
  destruct classification as [c|]; cbn [deref bind];
    [|intros H; injection H as <-; eexists; reflexivity].
  destruct (dataTypes r) as [dts|]; cbn [deref bind].
  - destruct (financialData c), (personalData c), (healthData c);
      cbn [bind];
      destruct (includes dts "financial"), (includes dts "personal"),
        (includes dts "health"); discriminate.
  - destruct (financialData c), (personalData c), (healthData c);
      cbn [bind]; try discriminate;
      intros H; injection H as <-; eexists; reflexivity.
Qed.

Lemma globalRules_throws (m : Registry) (dataType : string)
  (classification : option DataClassification) (e : JsError) :
  globalRules m dataType classification = Throw e ->
  exists message, e = TypeError message.
Proof.
  induction m as [|[key rule] rest IH]; cbn [globalRules]; [discriminate|].
  destruct (String.prefix "ORG_" key); [exact IH|].
  destruct (dataTypes rule) as [dts|]; cbn [deref bind];
    [|intros H; injection H as <-; eexists; reflexivity].
  destruct (includes dts dataType); cbn [bind].
  - destruct (globalRules rest dataType classification); cbn [bind];
      [discriminate|].
    intros H. injection H as <-. now apply IH.
  - destruct (matchesClassification rule classification) as [hit|e0] eqn:M;
      cbn [bind].
    + destruct (globalRules rest dataType classification); cbn [bind];
        [discriminate|].
      intros H. injection H as <-. now apply IH.
    + intros H. injection H as <-.
      now apply (matchesClassification_throws rule classification).
Qed.

(** The applicable rules of a tenant whose own rule lists the data type. *)
Lemma applicable_with_own_rule (m : Registry) (org dataType : string)
  (classification : option DataClassification) (r : DataResidencyRule)
  (dts : list string) :
  dataTypes r = Some dts -> includes dts dataType = true ->
  (exists message,
     getApplicableRules (registerOrgRules m org r) org dataType classification
     = Throw (TypeError message)) \/
  (exists glob,
     getApplicableRules (registerOrgRules m org r) org dataType classification
     = Normal (r :: glob)).
Proof.
  intros D I. unfold getApplicableRules, registerOrgRules.
  rewrite map_get_set_same, D. cbn [deref bind]. rewrite I.
  destruct (globalRules _ dataType classification) as [glob|e] eqn:G;
    cbn [bind].
  - right. now exists glob.
  - left. destruct (globalRules_throws _ _ _ _ G) as [message ->].
    now exists message.
Qed.

(** X27. A tenant rule registered without its [restrictions] object is
    handled in two ways: [getRetentionPeriod] has no handler and throws a
    TypeError for that tenant and data type, while
    [validateDataOperation] answers with its fixed denial. *)
Theorem broken_tenant_rule (m : Registry) (org dataType : string)
  (r : DataResidencyRule) (dts : list string) :
  dataTypes r = Some dts -> includes dts dataType = true ->
  restrictions r = None ->
  (exists message,
     getRetentionPeriod (registerOrgRules m org r) org dataType
     = Throw (TypeError message)) /\
  (forall operation targetRegion classification,
     validateDataOperation (registerOrgRules m org r) org dataType operation
                           targetRegion classification
     = Normal validationFailed).
Proof.
  intros D I R. split.
  - unfold getRetentionPeriod.
    destruct (applicable_with_own_rule m org dataType
                (Some (neutralClassification dataType)) r dts D I)
      as [[message ->]|[glob ->]]; cbn [bind].
    + now exists message.
    + cbn [List.length Nat.eqb retentionPeriods]. rewrite R.
      cbn [deref bind]. eexists. reflexivity.
  - intros operation targetRegion classification.
    unfold validateDataOperation, validateBody.
    destruct (applicable_with_own_rule m org dataType classification r dts
                D I) as [[message ->]|[glob ->]]; cbn [bind try_catch].
    + reflexivity.
    + cbn [checkRules]. unfold checkRule. rewrite R. reflexivity.
Qed.

Lemma broken_tenant_rule_witness :
  exists message,
    getRetentionPeriod
      (registerOrgRules initializeDefaultRules "org-1" brokenRule)
      "org-1" "trading"
    = Throw (TypeError message).
Proof.
  apply (broken_tenant_rule initializeDefaultRules "org-1" "trading"
           brokenRule ["trading"]); reflexivity.
Defined.

(** ** The classifier *)

Lemma hasField_noProperties (data : JsValue) (field : string) :
  noProperties data -> hasField data field = false.
Proof.
  intros [H|[->| ->]]; [|reflexivity|reflexivity].
  destruct data; try reflexivity; discriminate H.
Qed.

Lemma anyField_noProperties (data : JsValue) (fields : list string) :
  noProperties data -> anyField data fields = false.
Proof.
  intros H. unfold anyField. induction fields as [|f rest IH];
    [reflexivity|].
  cbn [existsb]. now rewrite (hasField_noProperties data f H), IH.
Qed.

(** X28. A payload with nothing to inspect - a string, a number, [null],
    [undefined], an empty object or an empty array - classifies as
    internal, with no category and no flag. *)
Theorem empty_payload_is_internal (data : JsValue) :
  noProperties data -> classifyData data = unclassified.
Proof.
  intros H. unfold classifyData.
  rewrite !(anyField_noProperties data _ H). reflexivity.
Qed.

Lemma empty_payload_is_internal_witness :
  classifyData (JString "diagnosis: flu, balance: 100") = unclassified.
Proof.
  apply empty_payload_is_internal. now left.
Defined.

(** X29. A classification is consistent with itself: the level is never
    public, it is restricted exactly when the health flag is set and
    internal exactly when no category was found; each flag is set exactly
    when its category is listed, and no category is listed twice. *)
Theorem classification_is_consistent (data : JsValue) :
  let c := classifyData data in
  level c <> public /\
  (level c = restricted <-> healthData c = true) /\
  (level c = internal <-> categories c = []) /\
  (personalData c = true <-> In "personal" (categories c)) /\
  (financialData c = true <-> In "financial" (categories c)) /\
  (healthData c = true <-> In "health" (categories c)) /\
  NoDup (categories c).
Proof.
  unfold classifyData.
  destruct (anyField data personalFields), (anyField data financialFields),
    (anyField data healthFields), (anyField data riskFields);
    cbn; repeat split; intros; try discriminate; try tauto;
    try (intuition discriminate);
    repeat constructor; cbn; intuition discriminate.
Qed.

Lemma objectEntries_app (inner : JsValue -> bool) (field : string)
  (a b : list (string * JsValue)) :
  objectEntries inner field (a ++ b)
  = orb (objectEntries inner field a) (objectEntries inner field b).
Proof.
  induction a as [|[key value] rest IH]; [reflexivity|].
  cbn [app objectEntries].
  destruct (str_includes (toLowerCase key) (toLowerCase field));
    [reflexivity|].
  destruct (andb (is_object value) (inner value)); [reflexivity | exact IH].
Qed.

Lemma anyField_app (a b : list (string * JsValue)) (fields : list string) :
  anyField (JObject (a ++ b)) fields
  = orb (anyField (JObject a) fields) (anyField (JObject b) fields).
Proof.
  unfold anyField. induction fields as [|f rest IH]; [reflexivity|].
  cbn [existsb hasField]. rewrite objectEntries_app.
  cbn [hasField] in IH. rewrite IH.
  destruct (objectEntries _ f a), (objectEntries _ f b),
    (existsb _ rest), (existsb _ rest); reflexivity.
Qed.

(** X30. Classification only grows with the payload: for an object that
    holds the properties of two objects, each flag is the disjunction of
    the two flags and the level is the more sensitive of the two
    levels. *)
Theorem classification_of_merged_payload (a b : list (string * JsValue)) :
  let ca := classifyData (JObject a) in
  let cb := classifyData (JObject b) in
  let c := classifyData (JObject (a ++ b)) in
  personalData c = orb (personalData ca) (personalData cb) /\
  financialData c = orb (financialData ca) (financialData cb) /\
  healthData c = orb (healthData ca) (healthData cb) /\
  level c = maxLevel (level ca) (level cb).
Proof.
  unfold classifyData. rewrite !anyField_app.
  destruct (anyField (JObject a) personalFields),
    (anyField (JObject a) financialFields),
    (anyField (JObject a) healthFields),
    (anyField (JObject a) riskFields),
    (anyField (JObject b) personalFields),
    (anyField (JObject b) financialFields),
    (anyField (JObject b) healthFields),
    (anyField (JObject b) riskFields);
    repeat split.
Qed.

End DataResidencyOpsFacts.
